(** * EthOS Token Tracker: the dashboard component and its price alerts

    A shallow embedding of [lib/utils.ts]: the exported formatters, and the
    [CryptoDashboard] component with its numeric safety helper, formatters,
    fetch cycle, alert evaluator and alert life cycle.

    JavaScript numbers are IEEE 754 binary64 values, so [number] is Rocq's
    primitive [float]: comparisons and arithmetic are the processor's, and
    the decimal conversions ([toFixed], [Number::toString], [parseFloat],
    [Number(...)]) are computed from the exact value of a double, read off
    its [spec_float] decomposition. *)

From Stdlib Require Import List String Ascii Bool ZArith NArith Lia.
From Stdlib Require Import Floats DecimalString DecimalN DecimalPos.
Import ListNotations.

Set Warnings "-inexact-float,-register-all".

Local Open Scope string_scope.

(** ** The run-time library the component calls *)

Module JS.

Definition number := float.

(** [x >= y] and [x <= y] and [x > y] on numbers: false as soon as an operand is NaN. *)
Definition ge (x y : number) : bool := (y <=? x)%float.
Definition le (x y : number) : bool := (x <=? y)%float.
Definition gt (x y : number) : bool := (y <? x)%float.

(** The global [isNaN] and [isFinite], applied to a number. *)
Definition isNaN (x : number) : bool := is_nan x.
Definition isFinite (x : number) : bool := is_finite x.

(** *** Decimal digits *)

Definition decimal_digits (n : N) : string :=
  NilEmpty.string_of_uint (N.to_uint n).

Fixpoint zeros (n : nat) : string :=
  match n with
  | O => ""
  | S n' => String "0" (zeros n')
  end.

(** *** Exact arithmetic on the value [m * 2^e] of a finite double *)

(** The value in units of [10^e10] is the fraction
    [scaled_num m e e10 / scaled_den e e10]. *)
Definition scaled_num (m : positive) (e e10 : Z) : Z :=
  Z.pos m * 2 ^ Z.max e 0 * 10 ^ Z.max (- e10) 0.

Definition scaled_den (e e10 : Z) : Z :=
  2 ^ Z.max (- e) 0 * 10 ^ Z.max e10 0.

(** The floor of [m * 2^e / 10^e10]. *)
Definition scaled_floor (m : positive) (e e10 : Z) : Z :=
  scaled_num m e e10 / scaled_den e e10.

(** The integer nearest to [m * 2^e / 10^e10], the larger one when two are
    equally near. *)
Definition scaled_round (m : positive) (e e10 : Z) : Z :=
  (2 * scaled_num m e e10 + scaled_den e e10) / (2 * scaled_den e e10).

(** [m * 2^e / 10^e10] compared with the integer [a]. *)
Definition scaled_compare (m : positive) (e : Z) (a : Z) (e10 : Z) : comparison :=
  (scaled_num m e e10 ?= a * scaled_den e e10)%Z.

(** *** Decimal to binary64, correctly rounded *)

(** The double nearest to [(-1)^s * d * 10^e10] (ties to even), as the
    built-in conversions of a decimal literal compute it. *)
Definition decimal_to_SF (s : bool) (d : N) (e10 : Z) : spec_float :=
  match d with
  | N0 => S754_zero s
  | Npos p =>
      if (0 <=? e10)%Z then
        binary_round prec emax s (Z.to_pos (Z.pos p * 10 ^ e10)) 0
      else
        let '(q, e', l) :=
          SFdiv_core_binary prec emax (Z.pos p) 0 (10 ^ (- e10)) 0 in
        binary_round_aux prec emax s q e' l
  end.

Definition decimal_to_number (s : bool) (d : N) (e10 : Z) : number :=
  SF2Prim (decimal_to_SF s d e10).

(** *** [Number::toString], radix 10 *)

(** Whether the decimal [d * 10^e10] reads back as the finite double [m * 2^e]. *)
Definition reads_back (m : positive) (e : Z) (d : Z) (e10 : Z) : bool :=
  match decimal_to_SF false (Z.to_N d) e10 with
  | S754_finite _ m' e' => Pos.eqb m m' && Z.eqb e e'
  | _ => false
  end.

(** The number [n] of the specification: [10^(n-1) <= m * 2^e < 10^n]. *)
Definition decimal_exponent (m : positive) (e : Z) : Z :=
  Z.of_nat (String.length (decimal_digits (Z.to_N (scaled_floor m e (-400)))))
  - 400.

(** [closer_low m e lo e10]: [lo * 10^e10] is nearer to [m * 2^e] than
    [(lo + 1) * 10^e10] is, or as near and [lo] is even. *)
Definition closer_low (m : positive) (e : Z) (lo : Z) (e10 : Z) : bool :=
  match scaled_compare m (e + 1) (2 * lo + 1) e10 with
  | Lt => true
  | Eq => Z.even lo
  | Gt => false
  end.

(** The shortest digits: the least [k] for which a [k]-digit decimal reads
    back as the double, and of two such decimals the nearer one. *)
Fixpoint shortest_digits (fuel : nat) (k : Z) (n : Z) (m : positive) (e : Z)
  : Z * Z :=
  let e10 := (n - k)%Z in
  let lo := scaled_floor m e e10 in
  let hi := (lo + 1)%Z in
  let ok_lo := reads_back m e lo e10 in
  let ok_hi := reads_back m e hi e10 in
  match fuel with
  | O => (lo, e10)
  | S fuel' =>
      if ok_lo && ok_hi then
        (if closer_low m e lo e10 then lo else hi, e10)
      else if ok_lo then (lo, e10)
      else if ok_hi then (hi, e10)
      else shortest_digits fuel' (k + 1) n m e
  end.

(** Trailing zeros of the digits go to the exponent. *)
Fixpoint strip_zeros (fuel : nat) (s : Z) (e10 : Z) : Z * Z :=
  match fuel with
  | O => (s, e10)
  | S fuel' =>
      if (0 <? s)%Z && (s mod 10 =? 0)%Z then strip_zeros fuel' (s / 10) (e10 + 1)
      else (s, e10)
  end.

Definition substring_from (n : nat) (s : string) : string :=
  substring n (String.length s - n) s.

(** The text of a finite positive double with digits [ds] and decimal
    exponent [n]. *)
Definition layout_digits (ds : string) (n : Z) : string :=
  let k := Z.of_nat (String.length ds) in
  if ((k <=? n) && (n <=? 21))%Z then ds ++ zeros (Z.to_nat (n - k))
  else if ((0 <? n) && (n <=? 21))%Z then
    substring 0 (Z.to_nat n) ds ++ "." ++ substring_from (Z.to_nat n) ds
  else if ((-6 <? n) && (n <=? 0))%Z then
    "0." ++ zeros (Z.to_nat (- n)) ++ ds
  else
    let ex := (n - 1)%Z in
    let sign := if (ex <? 0)%Z then "-" else "+" in
    let mant := if (k =? 1)%Z then ds
                else substring 0 1 ds ++ "." ++ substring_from 1 ds in
    mant ++ "e" ++ sign ++ decimal_digits (Z.to_N (Z.abs ex)).

Definition NumberToString (x : number) : string :=
  match Prim2SF x with
  | S754_nan => "NaN"
  | S754_zero _ => "0"
  | S754_infinity s => if s then "-Infinity" else "Infinity"
  | S754_finite s m e =>
      let n := decimal_exponent m e in
      let '(d, e10) := shortest_digits 17 1 n m e in
      let '(d', e10') := strip_zeros 20 d e10 in
      let ds := decimal_digits (Z.to_N d') in
      (if s then "-" else "")
      ++ layout_digits ds (Z.of_nat (String.length ds) + e10')
  end.

(** *** [Number.prototype.toFixed] *)

(** The digits of the integer [n], with a point before the last [f] of them. *)
Definition fixed_digits (n : N) (f : nat) : string :=
  let m := decimal_digits n in
  if Nat.eqb f 0 then m
  else
    let k := String.length m in
    let m := if Nat.leb k f then zeros (f + 1 - k) ++ m else m in
    let k := String.length m in
    substring 0 (k - f) m ++ "." ++ substring (k - f) f m.

(** [x.toFixed(fractionDigits)] for at most 100 digits. Above 100 the
    built-in raises a RangeError before it looks at the number; the call
    sites pass 2 or 5 digits, and the statements made for any number of
    digits assume the bound. *)
Definition toFixed (x : number) (fractionDigits : nat) : string :=
  match Prim2SF x with
  | S754_nan => "NaN"
  | S754_infinity s => if s then "-Infinity" else "Infinity"
  | S754_zero _ => fixed_digits 0 fractionDigits
  | S754_finite s m e =>
      (if s then "-" else "")
      ++ (match scaled_compare m e (10 ^ 21) 0 with
          | Lt => fixed_digits
                    (Z.to_N (scaled_round m e (- Z.of_nat fractionDigits)))
                    fractionDigits
          | _ => NumberToString (abs x)
          end)
  end.

(** *** Reading decimal literals: [parseFloat] and [Number(string)] *)

(** A text is the UTF-8 encoding of its characters, as a string literal of
    this file has it. The white space and line terminators that the
    built-ins strip are the characters of one byte U+0009 to U+000D and
    U+0020, of two bytes U+00A0, and of three bytes U+1680, U+2000 to U+200A,
    U+2028, U+2029, U+202F, U+205F, U+3000 and U+FEFF. *)
Definition white_space_1 (c : ascii) : bool :=
  let n := nat_of_ascii c in
  ((9 <=? n) && (n <=? 13))%nat || (n =? 32)%nat.

Definition white_space_2 (c1 c2 : ascii) : bool :=
  ((nat_of_ascii c1 =? 194) && (nat_of_ascii c2 =? 160))%nat.

Definition white_space_3 (c1 c2 c3 : ascii) : bool :=
  let n1 := nat_of_ascii c1 in
  let n2 := nat_of_ascii c2 in
  let n3 := nat_of_ascii c3 in
  ((n1 =? 225) && (n2 =? 154) && (n3 =? 128)
   || (n1 =? 226) && (n2 =? 128)
      && ((128 <=? n3) && (n3 <=? 138)
          || (n3 =? 168) || (n3 =? 169) || (n3 =? 175))
   || (n1 =? 226) && (n2 =? 129) && (n3 =? 159)
   || (n1 =? 227) && (n2 =? 128) && (n3 =? 128)
   || (n1 =? 239) && (n2 =? 187) && (n3 =? 191))%nat.

Definition is_digit (c : ascii) : bool :=
  let n := nat_of_ascii c in ((48 <=? n) && (n <=? 57))%nat.

Definition digit_value (c : ascii) : N := N.of_nat (nat_of_ascii c - 48).

Definition is_empty (s : string) : bool :=
  match s with EmptyString => true | _ => false end.

(** The text without the white space it starts with. *)
Fixpoint trim_start (s : string) : string :=
  match s with
  | String c1 r1 =>
      if white_space_1 c1 then trim_start r1
      else
        match r1 with
        | String c2 r2 =>
            if white_space_2 c1 c2 then trim_start r2
            else
              match r2 with
              | String c3 r3 =>
                  if white_space_3 c1 c2 c3 then trim_start r3 else s
              | EmptyString => s
              end
        | EmptyString => s
        end
  | EmptyString => s
  end.

(** A maximal run of decimal digits, accumulated onto [acc]; [count] counts
    the digits read so far. *)
Fixpoint read_digits (s : string) (acc : N) (count : nat) : N * nat * string :=
  match s with
  | String c s' =>
      if is_digit c then read_digits s' (10 * acc + digit_value c) (S count)
      else (acc, count, s)
  | EmptyString => (acc, count, s)
  end.

(** An [ExponentPart] when the text starts with one; otherwise the exponent
    is 0 and nothing is consumed. *)
Definition read_exponent (s : string) : Z * string :=
  match s with
  | String c s1 =>
      if Ascii.eqb c "e" || Ascii.eqb c "E" then
        let '(neg, s2) :=
          match s1 with
          | String "-" r => (true, r)
          | String "+" r => (false, r)
          | _ => (false, s1)
          end in
        let '(v, n, rest) := read_digits s2 0 0 in
        if (n =? 0)%nat then (0%Z, s)
        else ((if neg then - Z.of_N v else Z.of_N v)%Z, rest)
      else (0%Z, s)
  | EmptyString => (0%Z, s)
  end.

Inductive literal : Type :=
  | LitInfinity
  | LitDecimal (d : N) (e10 : Z).

Fixpoint drop (n : nat) (s : string) : string :=
  match n, s with
  | S n', String _ s' => drop n' s'
  | _, _ => s
  end.

(** The longest prefix that is a [StrUnsignedDecimalLiteral], with the rest
    of the text. *)
Definition read_unsigned (s : string) : option (literal * string) :=
  if prefix "Infinity" s then Some (LitInfinity, drop 8 s)
  else
    let '(i, ni, s1) := read_digits s 0 0 in
    match s1 with
    | String "." s2 =>
        let '(v, total, s3) := read_digits s2 i ni in
        if (total =? 0)%nat then None
        else
          let '(ex, s4) := read_exponent s3 in
          Some (LitDecimal v (ex - Z.of_nat (total - ni)), s4)
    | _ =>
        if (ni =? 0)%nat then None
        else
          let '(ex, s4) := read_exponent s1 in
          Some (LitDecimal i ex, s4)
    end.

Definition read_sign (s : string) : bool * string :=
  match s with
  | String "-" r => (true, r)
  | String "+" r => (false, r)
  | _ => (false, s)
  end.

Definition literal_value (neg : bool) (l : literal) : number :=
  match l with
  | LitInfinity => if neg then neg_infinity else infinity
  | LitDecimal d e10 => decimal_to_number neg d e10
  end.

(** The global [parseFloat], applied to a string. *)
Definition parseFloat (s : string) : number :=
  let '(neg, s1) := read_sign (trim_start s) in
  match read_unsigned s1 with
  | Some (l, _) => literal_value neg l
  | None => nan
  end.

(** Digits of a [0x], [0o] or [0b] literal. *)
Definition radix_digit (radix : N) (c : ascii) : option N :=
  let n := nat_of_ascii c in
  let v := if ((48 <=? n) && (n <=? 57))%nat then Some (n - 48)%nat
           else if ((97 <=? n) && (n <=? 102))%nat then Some (n - 87)%nat
           else if ((65 <=? n) && (n <=? 70))%nat then Some (n - 55)%nat
           else None in
  match v with
  | Some d => if (N.of_nat d <? radix)%N then Some (N.of_nat d) else None
  | None => None
  end.

Fixpoint read_radix (radix : N) (s : string) (acc : N) : option N :=
  match s with
  | EmptyString => Some acc
  | String c s' =>
      match radix_digit radix c with
      | Some d => read_radix radix s' (radix * acc + d)
      | None => None
      end
  end.

Definition radix_prefix (s : string) : option (N * string) :=
  match s with
  | String "0" (String c r) =>
      if Ascii.eqb c "x" || Ascii.eqb c "X" then Some (16%N, r)
      else if Ascii.eqb c "o" || Ascii.eqb c "O" then Some (8%N, r)
      else if Ascii.eqb c "b" || Ascii.eqb c "B" then Some (2%N, r)
      else None
  | _ => None
  end.

(** The text without the white space it ends with: cut where only white
    space is left. *)
Fixpoint trim_end (s : string) : string :=
  match s with
  | EmptyString => EmptyString
  | String c s' =>
      if is_empty (trim_start s) then EmptyString else String c (trim_end s')
  end.

(** [StringToNumber]: the whole text, white space trimmed at both ends, must
    be a numeric literal; the empty text is 0. *)
Definition StringToNumber (s : string) : number :=
  let t := trim_end (trim_start s) in
  match radix_prefix t with
  | Some (radix, r) =>
      if is_empty r then nan
      else match read_radix radix r 0 with
           | Some v => decimal_to_number false v 0
           | None => nan
           end
  | None =>
      if is_empty t then zero
      else
        let '(neg, s1) := read_sign t in
        match read_unsigned s1 with
        | Some (l, rest) => if is_empty rest then literal_value neg l else nan
        | None => nan
        end
  end.

(** *** Values and their coercion to numbers *)

(** The primitive values the component handles. *)
Inductive value : Type :=
  | Undefined
  | Null
  | Bool (b : bool)
  | Num (x : number)
  | Str (s : string).

(** [ToString] of a primitive value. *)
Definition ToString (v : value) : string :=
  match v with
  | Undefined => "undefined"
  | Null => "null"
  | Bool b => if b then "true" else "false"
  | Num x => NumberToString x
  | Str s => s
  end.

(** [Number(value)] of a primitive value. *)
Definition Number (v : value) : number :=
  match v with
  | Undefined => nan
  | Null => zero
  | Bool b => if b then one else zero
  | Num x => x
  | Str s => StringToNumber s
  end.

(** What an expression of type [any] holds here: a primitive value, or an
    array or object that [JSON.parse] built. An object lists its own
    properties in source order; no property of such an object is callable,
    and an array has no property of its own besides its elements. *)
Inductive any : Type :=
  | Prim (v : value)
  | Arr (elements : list any)
  | Obj (properties : list (string * any)).

(** The own property [key] of an object; of two properties with one key
    [JSON.parse] keeps the later one. *)
Fixpoint find_property (key : string) (ps : list (string * any)) : option any :=
  match ps with
  | [] => None
  | (k, v) :: ps' =>
      match find_property key ps' with
      | Some later => Some later
      | None => if String.eqb k key then Some v else None
      end
  end.

Definition has_own_property (key : string) (ps : list (string * any)) : bool :=
  match find_property key ps with
  | Some _ => true
  | None => false
  end.

Definition own_property (key : string) (ps : list (string * any)) : any :=
  match find_property key ps with
  | Some v => v
  | None => Prim Undefined
  end.

(** [ToString] of any value; [None] is a TypeError. An object inherits
    [toString], which answers ["[object Object]"], unless it has an own
    property of this name: that one is not callable, [valueOf] gives no
    primitive value either, and the conversion raises. An array joins the
    texts of its elements with commas, [null] and [undefined] giving the
    empty text. *)
Fixpoint ToString_any (a : any) : option string :=
  match a with
  | Prim v => Some (ToString v)
  | Arr l =>
      (fix join (l : list any) : option string :=
         match l with
         | [] => Some ""
         | x :: r =>
             let e := match x with
                      | Prim Undefined | Prim Null => Some ""
                      | _ => ToString_any x
                      end in
             match e, r with
             | None, _ => None
             | Some e, [] => Some e
             | Some e, _ => option_map (fun t => e ++ "," ++ t) (join r)
             end
         end) l
  | Obj ps =>
      if has_own_property "toString" ps then None else Some "[object Object]"
  end.

(** [ToPrimitive], as [Number(value)] applies it first: a primitive value is
    left alone, an array or object goes to its text. [None] is a
    TypeError. *)
Definition ToPrimitive (a : any) : option value :=
  match a with
  | Prim v => Some v
  | Arr _ | Obj _ => option_map Str (ToString_any a)
  end.

(** [base.key], for the property names the component reads: they are own
    properties of an object or absent. [None] is the TypeError raised on
    [null] and [undefined]. *)
Definition get (base : any) (key : string) : option any :=
  match base with
  | Prim Undefined | Prim Null => None
  | Obj ps => Some (own_property key ps)
  | _ => Some (Prim Undefined)
  end.

(** [base?.key]. *)
Definition get_optional (base : any) (key : string) : any :=
  match get base key with
  | Some v => v
  | None => Prim Undefined
  end.

End JS.

(** ** [lib/utils.ts]: the exported formatters *)

Module Utils.
Import JS.

Definition formatPrice (price : number) (decimals : nat) : string :=
  toFixed price decimals.

Definition formatChange (change : number) : string :=
  (if gt change zero then "+" else "") ++ toFixed change 2 ++ "%".

End Utils.

(** ** The data model *)

Module TokenData.
Record t : Type := mk {
  symbol : string;
  name : string;
  price : JS.number;
  change24h : JS.number;
  contract : option string
}.
End TokenData.

Module PriceAlert.

Inductive direction : Type := above | below.

Definition direction_eqb (a b : direction) : bool :=
  match a, b with
  | above, above | below, below => true
  | _, _ => false
  end.

Definition direction_text (d : direction) : string :=
  match d with
  | above => "above"
  | below => "below"
  end.

Record t : Type := mk {
  id : string;
  symbol : string;
  type : direction;
  threshold : JS.number;
  isActive : bool
}.

(** [{ ...a, isActive: false }] *)
Definition deactivated (a : t) : t :=
  mk (id a) (symbol a) (type a) (threshold a) false.

End PriceAlert.

(** ** The component [CryptoDashboard] *)

Module Dashboard.
Import JS.

(** The state cells of the component. *)
Record State : Type := mkState {
  tokens : list TokenData.t;
  airToken : option TokenData.t;
  loading : bool;
  alerts : list PriceAlert.t;
  showAlertModal : bool
}.

Definition initial : State := mkState [] None true [] false.

(** What the component leaves outside its state: the notifications it
    constructs and the lines it writes to the console. *)
Record Notification : Type := mkNotification {
  title : string;
  body : string;
  icon : string
}.

Inductive Error : Type :=
  | NetworkError
  | FailedToFetch
  | SyntaxError
  | TypeError.

Record World : Type := mkWorld {
  state : State;
  notifications : list Notification;
  console : list Error
}.

(** The setters. An updater function is applied to the pending state, so
    successive updaters of one cell compose in call order. *)
Definition setTokens (v : list TokenData.t) (w : World) : World :=
  let s := state w in
  mkWorld (mkState v (airToken s) (loading s) (alerts s) (showAlertModal s))
          (notifications w) (console w).

Definition setAirToken (v : option TokenData.t) (w : World) : World :=
  let s := state w in
  mkWorld (mkState (tokens s) v (loading s) (alerts s) (showAlertModal s))
          (notifications w) (console w).

Definition setLoading (v : bool) (w : World) : World :=
  let s := state w in
  mkWorld (mkState (tokens s) (airToken s) v (alerts s) (showAlertModal s))
          (notifications w) (console w).

Definition setAlerts (f : list PriceAlert.t -> list PriceAlert.t) (w : World)
  : World :=
  let s := state w in
  mkWorld (mkState (tokens s) (airToken s) (loading s) (f (alerts s))
                   (showAlertModal s))
          (notifications w) (console w).

Definition setShowAlertModal (v : bool) (w : World) : World :=
  let s := state w in
  mkWorld (mkState (tokens s) (airToken s) (loading s) (alerts s) v)
          (notifications w) (console w).

Definition newNotification (n : Notification) (w : World) : World :=
  mkWorld (state w) (notifications w ++ [n]) (console w).

Definition console_error (e : Error) (w : World) : World :=
  mkWorld (state w) (notifications w) (console w ++ [e]).

(** *** Numeric safety helper and formatters *)

(** [safeNumber] on a primitive value, where [Number(value)] always
    answers. *)
Definition safeNumber (v : value) (fallback : number) : number :=
  let num := Number v in
  if isNaN num || negb (isFinite num) then fallback else num.

(** [safeNumber] on an expression of type [any]: its [Number(value)] first
    converts an array or object to a primitive value, and raises a TypeError,
    [None], when that fails. *)
Definition safeNumber_any (a : any) (fallback : number) : option number :=
  match ToPrimitive a with
  | Some v => Some (safeNumber v fallback)
  | None => None
  end.

(** The formatters, on a primitive value: the call sites pass numbers. *)
Definition formatPrice (price : value) (decimals : nat) : string :=
  let safePrice := safeNumber price zero in
  toFixed safePrice decimals.

Definition formatChange (change : value) : string :=
  let safeChange := safeNumber change zero in
  (if gt safeChange zero then "+" else "") ++ toFixed safeChange 2 ++ "%".

(** *** Alert evaluator *)

Inductive Permission : Type := granted | denied | default.

Definition price_decimals (symbol : string) : nat :=
  if String.eqb symbol "AIR" then 5%nat else 2%nat.

Definition shouldTrigger (alert : PriceAlert.t) (currentPrice : number) : bool :=
  (PriceAlert.direction_eqb (PriceAlert.type alert) PriceAlert.above
   && ge currentPrice (PriceAlert.threshold alert))
  || (PriceAlert.direction_eqb (PriceAlert.type alert) PriceAlert.below
      && le currentPrice (PriceAlert.threshold alert)).

Definition alert_notification (alert : PriceAlert.t) (currentPrice : number)
  (symbol : string) : Notification :=
  mkNotification
    ("🚨 " ++ symbol ++ " Price Alert!")
    (symbol ++ " hit " ++ PriceAlert.direction_text (PriceAlert.type alert)
     ++ " $" ++ formatPrice (Num (PriceAlert.threshold alert)) (price_decimals symbol)
     ++ "! Current: $" ++ formatPrice (Num currentPrice) (price_decimals symbol))
    "/icon-192.png".

(** [prev => prev.map(a => a.id === alert.id ? { ...a, isActive: false } : a)] *)
Definition deactivate (alert : PriceAlert.t) (prev : list PriceAlert.t)
  : list PriceAlert.t :=
  map (fun a => if String.eqb (PriceAlert.id a) (PriceAlert.id alert)
                then PriceAlert.deactivated a else a) prev.

(** One turn of the [forEach] callback. *)
Definition check_alert (permission : Permission) (currentPrice : number)
  (symbol : string) (w : World) (alert : PriceAlert.t) : World :=
  if String.eqb (PriceAlert.symbol alert) symbol && PriceAlert.isActive alert then
    if shouldTrigger alert currentPrice then
      let w1 := match permission with
                | granted => newNotification
                               (alert_notification alert currentPrice symbol) w
                | _ => w
                end in
      setAlerts (deactivate alert) w1
    else w
  else w.

(** [checkPriceAlerts] walks [alerts], the alert list of the render that
    created the closure, and queues its updates on the state cell. The
    [Notification] interface is taken to exist, as the mount effect tests. *)
Definition checkPriceAlerts (permission : Permission) (alerts : list PriceAlert.t)
  (currentPrice : number) (symbol : string) (w : World) : World :=
  fold_left (check_alert permission currentPrice symbol) alerts w.

(** *** Alert life cycle *)

(** [Date.now()] is a count of milliseconds; its [toString()] is the decimal
    numeral. *)
Definition createAlert (now : N) (symbol : string) (type : PriceAlert.direction)
  (threshold : number) (w : World) : World :=
  let newAlert := PriceAlert.mk (decimal_digits now) symbol type threshold true in
  setAlerts (fun prev => (prev ++ [newAlert])%list) w.

(** The fields of the alert form, local state of [AlertModal]. *)
Record AlertForm : Type := mkForm {
  selectedSymbol : string;
  alertType : PriceAlert.direction;
  thresholdText : string
}.

Definition handleSubmit (now : N) (form : AlertForm) (w : World)
  : AlertForm * World :=
  let thresholdNum := parseFloat (thresholdText form) in
  if gt thresholdNum zero then
    let w1 := createAlert now (selectedSymbol form) (alertType form) thresholdNum w in
    (mkForm (selectedSymbol form) (alertType form) "", setShowAlertModal false w1)
  else (form, w).

(** The delete button of a listed alert:
    [setAlerts(prev => prev.filter(a => a.id !== alert.id))]. *)
Definition deleteAlert (alert_id : string) (w : World) : World :=
  setAlerts (filter (fun a => negb (String.eqb (PriceAlert.id a) alert_id))) w.

(** *** Fetch cycle *)

(** What one request brings back: no response at all, or a response with its
    [ok] flag and its body, [None] when the body is not JSON. *)
Inductive FetchResult : Type :=
  | NoResponse
  | Response (ok : bool) (json : option any).

(** One entry of the array literal; [None] is a TypeError, raised when
    [data] is [null] or when a field does not convert to a number. *)
Definition coin_token (data : any) (coin symbol name : string)
  (fallback : number) : option TokenData.t :=
  match get data coin with
  | None => None
  | Some entry =>
      match safeNumber_any (get_optional entry "usd") fallback with
      | None => None
      | Some price =>
          match safeNumber_any (get_optional entry "usd_24h_change") zero with
          | None => None
          | Some change24h =>
              Some (TokenData.mk symbol name price change24h None)
          end
      end
  end.

(** The array literal [cryptoTokens]; [None] is the TypeError of one of its
    entries. *)
Definition cryptoTokens (data : any) : option (list TokenData.t) :=
  match coin_token data "ethereum" "ETH" "Ethereum" 2340%float,
        coin_token data "bitcoin" "BTC" "Bitcoin" 43250%float,
        coin_token data "usd-coin" "USDC" "USD Coin" 1.0%float,
        coin_token data "chainlink" "LINK" "Chainlink" 14.85%float,
        coin_token data "uniswap" "UNI" "Uniswap" 6.42%float with
  | Some eth, Some btc, Some usdc, Some link, Some uni =>
      Some [eth; btc; usdc; link; uni]
  | _, _, _, _, _ => None
  end.

(** [random1] and [random2] are the two results of [Math.random()]. *)
Definition airTokenData (random1 random2 : number) : TokenData.t :=
  let currentAirPrice := (0.00676 + (random1 - 0.5) * 0.00005)%float in
  TokenData.mk "AIR" "AIR Token"
    (safeNumber (Num currentAirPrice) 0.00676%float)
    (safeNumber (Num (1.8 + (random2 - 0.5) * 3)%float) 1.8%float)
    (Some "0x8164b40840418c77a68f6f9eedb5202b36d8b288").

Definition catch (e : Error) (w : World) : World :=
  setLoading false (console_error e w).

(** The body of [fetchCryptoData] once the request has settled. [alerts] is
    the alert list its [checkPriceAlerts] closes over. *)
Definition fetchCryptoData (permission : Permission) (alerts : list PriceAlert.t)
  (result : FetchResult) (random1 random2 : number) (w : World) : World :=
  match result with
  | NoResponse => catch NetworkError w
  | Response false _ => catch FailedToFetch w
  | Response true None => catch SyntaxError w
  | Response true (Some data) =>
      match cryptoTokens data with
      | None => catch TypeError w
      | Some tokens =>
          let air := airTokenData random1 random2 in
          let w1 := checkPriceAlerts permission alerts
                      (TokenData.price air) "AIR" w in
          let w2 := fold_left
                      (fun w token =>
                         checkPriceAlerts permission alerts
                           (TokenData.price token) (TokenData.symbol token) w)
                      tokens w1 in
          setLoading false (setAirToken (Some air) (setTokens tokens w2))
      end
  end.

(** *** The component as a transition system *)

(** The six evaluator calls of one fetch cycle share one closure, hence one
    alert list. *)
Definition evaluations (permission : Permission) (alerts : list PriceAlert.t)
  (calls : list (number * string)) (w : World) : World :=
  fold_left (fun w call => checkPriceAlerts permission alerts (fst call) (snd call) w)
            calls w.

Inductive Event : Type :=
  | Tick (result : FetchResult) (random1 random2 : number)
  | Submit (now : N) (form : AlertForm)
  | Delete (alert_id : string)
  | ShowModal (shown : bool).

(** The mount effect has an empty dependency list: the interval keeps calling
    the [fetchCryptoData] of the first render, whose [checkPriceAlerts] closes
    over the alert list of [initial]. The handlers of the form and of the
    delete buttons only use functional updates. *)
Definition step (permission : Permission) (e : Event) (w : World) : World :=
  match e with
  | Tick result random1 random2 =>
      fetchCryptoData permission (alerts initial) result random1 random2 w
  | Submit now form => snd (handleSubmit now form w)
  | Delete alert_id => deleteAlert alert_id w
  | ShowModal shown => setShowAlertModal shown w
  end.

Definition run (permission : Permission) (events : list Event) (w : World) : World :=
  fold_left (fun w e => step permission e w) events w.

(** *** Vocabulary of the statements *)

(** The guard of the evaluator: the alert is listed for the symbol, active,
    and its condition holds. *)
Definition triggers (currentPrice : number) (symbol : string)
  (alert : PriceAlert.t) : bool :=
  String.eqb (PriceAlert.symbol alert) symbol && PriceAlert.isActive alert
  && shouldTrigger alert currentPrice.

(** What the evaluator does for an alert that triggers. *)
Definition trigger (permission : Permission) (currentPrice : number)
  (symbol : string) (w : World) (alert : PriceAlert.t) : World :=
  setAlerts (deactivate alert)
    (match permission with
     | granted => newNotification (alert_notification alert currentPrice symbol) w
     | _ => w
     end).

(** The condition of an alert, by direction. *)
Definition condition (alert : PriceAlert.t) (currentPrice : number) : bool :=
  match PriceAlert.type alert with
  | PriceAlert.above => ge currentPrice (PriceAlert.threshold alert)
  | PriceAlert.below => le currentPrice (PriceAlert.threshold alert)
  end.

(** Some alert of [l] triggers and carries the identifier of [x]. *)
Definition hit (currentPrice : number) (symbol : string) (l : list PriceAlert.t)
  (x : PriceAlert.t) : bool :=
  existsb (fun a => triggers currentPrice symbol a
                    && String.eqb (PriceAlert.id x) (PriceAlert.id a)) l.

Definition ids (l : list PriceAlert.t) : list string := map PriceAlert.id l.

(** The request failed, or its body cannot be read as the price table. *)
Definition failed (result : FetchResult) : option Error :=
  match result with
  | NoResponse => Some NetworkError
  | Response false _ => Some FailedToFetch
  | Response true None => Some SyntaxError
  | Response true (Some data) =>
      match cryptoTokens data with
      | None => Some TypeError
      | Some _ => None
      end
  end.

(** Fetch cycles in sequence, each with its own result, random numbers and
    closure. *)
Definition fetches (permission : Permission)
  (cs : list (list PriceAlert.t * FetchResult * number * number)) (w : World)
  : World :=
  fold_left (fun w c =>
               match c with
               | (l, result, random1, random2) =>
                   fetchCryptoData permission l result random1 random2 w
               end) cs w.

(** The clock readings of the submissions among [events]. *)
Definition submit_times (events : list Event) : list N :=
  flat_map (fun e => match e with
                     | Submit now _ => (now :: nil)%list
                     | _ => nil
                     end) events.

(** What holds of every state the mounted component reaches, [seen] being
    the clock readings of the submissions so far: the identifiers are
    pairwise distinct numerals of readings seen, every alert is active, and
    no notification was built. *)
Definition reached (seen : list N) (w : World) : Prop :=
  NoDup (ids (alerts (state w)))
  /\ (forall a, In a (alerts (state w)) ->
                exists t, In t seen /\ PriceAlert.id a = decimal_digits t)
  /\ (forall a, In a (alerts (state w)) -> PriceAlert.isActive a = true)
  /\ notifications w = nil.

(** The coins the component asks for. *)
Definition coins : list string :=
  ["ethereum"; "bitcoin"; "usd-coin"; "chainlink"; "uniswap"].

(** The number a run of decimal digits denotes. *)
Definition digits_value (s : string) : option N :=
  option_map N.of_uint (NilEmpty.uint_of_string s).

End Dashboard.

(** ** Exact rounding *)

(** The arithmetic of binary64 results, on integers: a finite number
    [m * 2^e] is counted in units of [2^-G], and rounding to nearest, ties to
    even, is [RNE]. *)
Module Rounding.
Local Open Scope Z_scope.

(** [M / 2^n] rounded to the nearest integer, to the even one of two. *)
Definition RNE (M n : Z) : Z :=
  let q := M / 2 ^ n in
  match 2 * (M mod 2 ^ n) ?= 2 ^ n with
  | Lt => q
  | Eq => if Z.even q then q else q + 1
  | Gt => q + 1
  end.

(** The number of binary digits of a positive integer. *)
Definition digits (V : Z) : Z := Z.log2 V + 1.

Definition G : Z := 1200.

Definition units (m e : Z) : Z := m * 2 ^ (e + G).

(** The binary64 number nearest to [V] units, in units. *)
Definition round_units (V : Z) : Z :=
  let n := Z.max (digits V - G - 53) (-1074) + G in
  RNE V n * 2 ^ n.

Definition half_sf : spec_float := S754_finite false 4503599627370496 (-53).
Definition one_sf : spec_float := S754_finite false 4503599627370496 (-52).

(** A zero, or a finite number of magnitude at most [bound] units. *)
Definition within (bound : Z) (x : spec_float) : Prop :=
  match x with
  | S754_zero _ => True
  | S754_finite _ m e => -1074 <= e /\ units (Z.pos m) e <= bound
  | _ => False
  end.

(** The expression of both synthesized fields: a base [c0], and a random
    [r] spread over an interval of width [c1] around it. *)
Definition jitter (c0 c1 r : float) : float := (c0 + (r - 0.5) * c1)%float.

(** What the bounds of a jitter ask of its constants [c0 = m0 * 2^e0] and
    [c1 = mc * 2^ec] and of the ends [ml * 2^el] and [mh * 2^eh]; a closed
    computation. *)
Definition jitter_constants (m0 : positive) (e0 : Z) (mc : positive) (ec : Z)
  (ml : positive) (el : Z) (mh : positive) (eh : Z) : Prop :=
  let umax := round_units (units (Z.pos mc) (ec - 1)) in
  let c := units (Z.pos m0) e0 in
  (-126 <=? ec) && (ec <=? 0)
  && (units (Z.pos mc) (ec - 1) <? 2 ^ (G + 900))
  && (-1074 <=? e0) && (e0 <=? 900)
  && (0 <? umax) && (umax <? c)
  && (c + umax <? 2 ^ (G + 900))
  && (round_units c =? c)
  && (0 <? round_units (c - umax))
  && (units (Z.pos ml) el =? round_units (c - umax))
  && (units (Z.pos mh) eh =? round_units (c + umax)) = true.

End Rounding.

(** ** Sample data *)

Module Examples.
Import JS Dashboard.

(** The alert of the specification's example and the world it is checked in. *)
Definition eth_above_3000 : PriceAlert.t :=
  PriceAlert.mk "1700000000000" "ETH" PriceAlert.above 3000%float true.

Definition world_with (l : list PriceAlert.t) : World :=
  mkWorld (mkState [] None false l false) [] [].

Definition btc_below_10 : PriceAlert.t :=
  PriceAlert.mk "1700000000001" "BTC" PriceAlert.below 10%float true.

(** Two alerts created at one clock reading share their identifier; when the
    first triggers, the second, listed for another symbol, is deactivated
    with it. *)
Definition btc_same_id : PriceAlert.t :=
  PriceAlert.mk "1700000000000" "BTC" PriceAlert.below 10%float true.

Definition shown_world : World :=
  mkWorld
    (mkState [TokenData.mk "ETH" "Ethereum" 3100.5%float (-1.25)%float None]
             (Some (airTokenData 0.5%float 0.5%float)) false
             [eth_above_3000] false)
    [] [].

Definition eth_form : AlertForm := mkForm "ETH" PriceAlert.above "3000".

End Examples.

(** ** What the component renders *)

Module View.
Import JS Dashboard.

(** [AlertModal]: [airToken ? [airToken, ...tokens] : tokens], the tokens
    the selector offers. *)
Definition allTokens (s : State) : list TokenData.t :=
  match airToken s with
  | Some air => air :: tokens s
  | None => tokens s
  end.

(** [allTokens.find(t => t.symbol === selectedSymbol)] *)
Definition selectedToken (s : State) (selectedSymbol : string)
  : option TokenData.t :=
  find (fun t => String.eqb (TokenData.symbol t) selectedSymbol) (allTokens s).

(** The placeholder of the threshold field. *)
Definition placeholder (selectedSymbol : string) : string :=
  if String.eqb selectedSymbol "AIR" then "0.00700" else "Enter price".

(** The test [safeNumber(change24h, 0) > 0] that picks the colour of a change
    and its icon. *)
Definition trending_up (change24h : number) : bool :=
  gt (safeNumber (Num change24h) zero) zero.

(** [alerts.filter(a => a.isActive)], the alerts the panel lists. *)
Definition activeAlerts (s : State) : list PriceAlert.t :=
  filter PriceAlert.isActive (alerts s).

(** The tokens on display are finite numbers under pairwise distinct
    symbols: none before the first successful cycle, the six afterwards. *)
Definition well_displayed (s : State) : Prop :=
  (map TokenData.symbol (allTokens s) = []
   \/ map TokenData.symbol (allTokens s)
      = ["AIR"; "ETH"; "BTC"; "USDC"; "LINK"; "UNI"])
  /\ Forall (fun t => isFinite (TokenData.price t) = true
                      /\ isFinite (TokenData.change24h t) = true)
            (allTokens s).

(** What every state of the mounted component satisfies: no notification
    was built, every alert is active with a threshold above zero, and the
    tokens are well displayed. *)
Definition mounted (w : World) : Prop :=
  notifications w = []
  /\ Forall (fun a => PriceAlert.isActive a = true
                      /\ gt (PriceAlert.threshold a) zero = true)
            (alerts (state w))
  /\ well_displayed (state w).

End View.

(** ** Vocabulary of the fetch cycle *)

Module Cycle.
Import JS Dashboard.

(** The evaluator calls of a successful cycle, in order: the synthesized
    token, then the tokens of the list. *)
Definition calls (air : TokenData.t) (toks : list TokenData.t)
  : list (number * string) :=
  map (fun t => (TokenData.price t, TokenData.symbol t)) (air :: toks).

(** Some call of the cycle has an alert of [l] trigger that carries the
    identifier of [x]. *)
Definition hit_by (l : list PriceAlert.t) (cs : list (number * string))
  (x : PriceAlert.t) : bool :=
  existsb (fun c => hit (fst c) (snd c) l x) cs.

(** What a cycle deactivates: nothing when it fails, and otherwise what its
    calls hit. *)
Definition deactivates (l : list PriceAlert.t) (result : FetchResult)
  (random1 random2 : number) (x : PriceAlert.t) : bool :=
  match result with
  | Response true (Some data) =>
      match cryptoTokens data with
      | Some toks => hit_by l (calls (airTokenData random1 random2) toks) x
      | None => false
      end
  | _ => false
  end.

(** The notifications of the calls [cs] over the closure [l]. *)
Definition fired (l : list PriceAlert.t) (cs : list (number * string))
  : list Notification :=
  flat_map (fun c => map (fun a => alert_notification a (fst c) (snd c))
                         (filter (triggers (fst c) (snd c)) l)) cs.

(** What an alert is set to: everything but its active flag. *)
Definition settings (a : PriceAlert.t)
  : string * string * PriceAlert.direction * number :=
  (PriceAlert.id a, PriceAlert.symbol a, PriceAlert.type a,
   PriceAlert.threshold a).

(** The symbols a cycle evaluates. *)
Definition symbols : list string :=
  ["AIR"; "ETH"; "BTC"; "USDC"; "LINK"; "UNI"].

End Cycle.

(** ** Vocabulary of texts *)

Module Text.
Import JS.

(** Every character of the text passes the test. *)
Fixpoint all_chars (p : ascii -> bool) (s : string) : bool :=
  match s with
  | EmptyString => true
  | String c s' => p c && all_chars p s'
  end.

(** The text is not empty, and its first character passes the test. *)
Definition first_char (p : ascii -> bool) (s : string) : bool :=
  match s with
  | EmptyString => false
  | String c _ => p c
  end.

(** The characters of a number written in decimal or exponent notation. *)
Definition numeral_char (c : ascii) : bool :=
  is_digit c || Ascii.eqb c "." || Ascii.eqb c "-" || Ascii.eqb c "e"
  || Ascii.eqb c "+".

(** How the text of a finite number starts. *)
Definition sign_or_digit (c : ascii) : bool := is_digit c || Ascii.eqb c "-".

(** How a threshold text can start, white space apart, for the form to
    accept it. *)
Definition threshold_start (c : ascii) : bool :=
  is_digit c || Ascii.eqb c "." || Ascii.eqb c "+" || Ascii.eqb c "I".

End Text.

(** ** Vocabulary of coercions *)

Module Coercion.
Import JS Dashboard Text.

(** How a text that [Number] reads as a number can start, white space
    apart. *)
Definition numeral_start (c : ascii) : bool :=
  is_digit c || Ascii.eqb c "." || Ascii.eqb c "+" || Ascii.eqb c "-"
  || Ascii.eqb c "I".

(** The text holds white space only. *)
Definition blank (s : string) : bool := is_empty (trim_start s).

(** Values that hold no number: [undefined], NaN and the infinities, a text
    that is not blank and does not start as a numeral does, and an object
    that inherits [toString]. *)
Definition no_number (a : any) : bool :=
  match a with
  | Prim Undefined => true
  | Prim (Num x) => negb (isFinite x)
  | Prim (Str s) =>
      negb (blank s) && negb (first_char numeral_start (trim_start s))
  | Obj ps => negb (has_own_property "toString" ps)
  | _ => false
  end.

(** Values whose conversion to a primitive value raises: an object with an
    own property [toString], alone or as an element of an array, at any
    depth. *)
Fixpoint raises (a : any) : bool :=
  match a with
  | Prim _ => false
  | Arr l => existsb raises l
  | Obj ps => has_own_property "toString" ps
  end.

(** Bodies the array literal cannot be built from: [null], and a body with
    a field that raises. *)
Definition unreadable (data : any) : bool :=
  match data with
  | Prim Undefined | Prim Null => true
  | _ =>
      existsb (fun coin =>
                 raises (get_optional (get_optional data coin) "usd")
                 || raises (get_optional (get_optional data coin)
                                         "usd_24h_change"))
              coins
  end.

(** The coins of the array literal with their fallback prices. *)
Definition coin_fallbacks : list (string * number) :=
  [("ethereum", 2340%float); ("bitcoin", 43250%float); ("usd-coin", 1.0%float);
   ("chainlink", 14.85%float); ("uniswap", 6.42%float)].

End Coercion.

(** ** Vocabulary of parsed numbers *)

Module Parsed.

(** A result that is not NaN carries the sign [s]. *)
Definition signed (s : bool) (x : spec_float) : Prop :=
  match x with
  | S754_zero s' | S754_infinity s' | S754_finite s' _ _ => s' = s
  | S754_nan => True
  end.

End Parsed.

(** ** More sample data *)

Module Scenarios.
Import JS Dashboard View Examples.

(** A response with a price for one coin only. *)
Definition eth_only : any :=
  Obj [("ethereum", Obj [("usd", Prim (Num 3100.5%float));
                         ("usd_24h_change", Prim (Num (-1.25)%float))])].

Definition eth_only_tokens : list TokenData.t :=
  [TokenData.mk "ETH" "Ethereum" 3100.5%float (-1.25)%float None;
   TokenData.mk "BTC" "Bitcoin" 43250%float zero None;
   TokenData.mk "USDC" "USD Coin" 1.0%float zero None;
   TokenData.mk "LINK" "Chainlink" 14.85%float zero None;
   TokenData.mk "UNI" "Uniswap" 6.42%float zero None].

(** The alert the placeholder of the form suggests for the synthesized
    token. *)
Definition air_above_placeholder : PriceAlert.t :=
  PriceAlert.mk "1700000000002" "AIR" PriceAlert.above
    (parseFloat (placeholder "AIR")) true.

(** An alert on a symbol the component does not track. *)
Definition doge_above_1 : PriceAlert.t :=
  PriceAlert.mk "1700000000003" "DOGE" PriceAlert.above 1%float true.

Definition minus_form : AlertForm := mkForm "ETH" PriceAlert.above "  -5".

(** A response in which ETH stands at 3000. *)
Definition eth_at_3000 : any :=
  Obj [("ethereum", Obj [("usd", Prim (Num 3000%float))])].

(** The no-break space, U+00A0. *)
Definition nbsp : string :=
  String (ascii_of_nat 194) (String (ascii_of_nat 160) "").

End Scenarios.

(** * Properties *)

(** ** The alert evaluator *)

Module EvaluatorFacts.
Import JS Dashboard.
Local Open Scope list_scope.

Lemma check_alert_triggers permission price sym w alert :
  check_alert permission price sym w alert
  = if triggers price sym alert then trigger permission price sym w alert else w.
Proof.
  unfold check_alert, triggers, trigger.
  destruct (String.eqb (PriceAlert.symbol alert) sym && PriceAlert.isActive alert);
    simpl; [destruct (shouldTrigger alert price)|]; reflexivity.
Qed.

Lemma checkPriceAlerts_nil permission price sym w :
  checkPriceAlerts permission [] price sym w = w.
Proof. reflexivity. Qed.

Lemma checkPriceAlerts_cons permission a l price sym w :
  checkPriceAlerts permission (a :: l) price sym w
  = checkPriceAlerts permission l price sym (check_alert permission price sym w a).
Proof. reflexivity. Qed.

Lemma checkPriceAlerts_app permission l1 l2 price sym w :
  checkPriceAlerts permission (l1 ++ l2) price sym w
  = checkPriceAlerts permission l2 price sym
      (checkPriceAlerts permission l1 price sym w).
Proof. unfold checkPriceAlerts. apply fold_left_app. Qed.

(** The condition of the source, by direction. *)
Lemma shouldTrigger_condition alert price :
  shouldTrigger alert price = condition alert price.
Proof.
  unfold shouldTrigger, condition.
  destruct (PriceAlert.type alert); simpl.
  - now rewrite orb_false_r.
  - reflexivity.
Qed.

Lemma deactivated_id a : PriceAlert.id (PriceAlert.deactivated a) = PriceAlert.id a.
Proof. reflexivity. Qed.

Lemma deactivated_idem a :
  PriceAlert.deactivated (PriceAlert.deactivated a) = PriceAlert.deactivated a.
Proof. reflexivity. Qed.


Lemma triggers_deactivated price sym a :
  triggers price sym (PriceAlert.deactivated a) = false.
Proof. unfold triggers; simpl. now rewrite andb_false_r. Qed.


(** The state cells other than the alerts, and the console, are out of the
    evaluator's reach. *)
Lemma trigger_frame permission price sym w a :
  let w' := trigger permission price sym w a in
  tokens (state w') = tokens (state w)
  /\ airToken (state w') = airToken (state w)
  /\ loading (state w') = loading (state w)
  /\ showAlertModal (state w') = showAlertModal (state w)
  /\ console w' = console w.
Proof. destruct permission; simpl; auto. Qed.

Lemma checkPriceAlerts_frame permission l price sym w :
  let w' := checkPriceAlerts permission l price sym w in
  tokens (state w') = tokens (state w)
  /\ airToken (state w') = airToken (state w)
  /\ loading (state w') = loading (state w)
  /\ showAlertModal (state w') = showAlertModal (state w)
  /\ console w' = console w.
Proof.
  revert w; induction l as [|a l IH]; intros w; simpl; auto.
  specialize (IH (check_alert permission price sym w a)); simpl in IH.
  rewrite check_alert_triggers in *.
  destruct (triggers price sym a); auto.
  pose proof (trigger_frame permission price sym w a) as F; simpl in F.
  destruct IH as (-> & -> & -> & -> & ->). exact F.
Qed.

(** The alert cell after a run of the evaluator, in closed form: an alert of
    the state is deactivated exactly when a triggering alert of the closure
    carries its identifier. *)
Lemma hit_deactivated price sym l x :
  hit price sym l (PriceAlert.deactivated x) = hit price sym l x.
Proof. reflexivity. Qed.

Lemma checkPriceAlerts_alerts permission l price sym w :
  alerts (state (checkPriceAlerts permission l price sym w))
  = map (fun x => if hit price sym l x then PriceAlert.deactivated x else x)
        (alerts (state w)).
Proof.
  revert w; induction l as [|a l IH]; intros w.
  - simpl. symmetry. apply map_id.
  - rewrite checkPriceAlerts_cons, IH, check_alert_triggers.
    unfold hit; simpl existsb.
    destruct (triggers price sym a) eqn:T; simpl.
    + destruct permission; simpl; unfold deactivate; rewrite map_map;
        apply map_ext; intros x;
        destruct (String.eqb (PriceAlert.id x) (PriceAlert.id a)); simpl;
        try reflexivity;
        destruct (existsb _ l); reflexivity.
    + reflexivity.
Qed.

(** The notifications of a run, in closed form. *)
Lemma checkPriceAlerts_notifications permission l price sym w :
  notifications (checkPriceAlerts permission l price sym w)
  = notifications w
    ++ match permission with
       | granted => map (fun a => alert_notification a price sym)
                        (filter (triggers price sym) l)
       | _ => []
       end.
Proof.
  revert w; induction l as [|a l IH]; intros w.
  - simpl. destruct permission; now rewrite app_nil_r.
  - rewrite checkPriceAlerts_cons, IH, check_alert_triggers. simpl filter.
    destruct (triggers price sym a); [|reflexivity].
    destruct permission; simpl; try reflexivity.
    now rewrite <- app_assoc.
Qed.

End EvaluatorFacts.

Module EvaluatorClaims.
Import JS Dashboard Examples EvaluatorFacts.
Local Open Scope list_scope.

Lemma hit_skip price sym k1 a k2 x :
  triggers price sym a = false ->
  hit price sym (k1 ++ a :: k2) x = hit price sym (k1 ++ k2) x.
Proof.
  intros T. unfold hit. rewrite !existsb_app. simpl. now rewrite T.
Qed.

Lemma hit_here price sym k1 a k2 x :
  triggers price sym a = true ->
  PriceAlert.id x = PriceAlert.id a ->
  hit price sym (k1 ++ a :: k2) x = true.
Proof.
  intros T E. unfold hit. rewrite existsb_app. simpl.
  rewrite T, E, String.eqb_refl. simpl. apply orb_true_r.
Qed.

Lemma triggers_condition price sym a :
  PriceAlert.symbol a = sym ->
  PriceAlert.isActive a = true ->
  triggers price sym a = condition a price.
Proof.
  intros S A. unfold triggers.
  rewrite S, A, String.eqb_refl, shouldTrigger_condition. reflexivity.
Qed.

(** The evaluator as a function of the alert list it closes over: an alert
    of that list, listed for the symbol and active, triggers exactly when its
    condition holds: price >= threshold for [above], price <= threshold for
    [below]. When it holds, the evaluator runs the trigger for this alert, in
    list order (the notification, if permitted, then the deactivation), and
    afterwards every alert of the state with its identifier is inactive.
    When it does not hold, the evaluator behaves as if the alert were not
    listed. *)
Lemma evaluator_triggers_at_threshold
  (permission : Permission) (l1 : list PriceAlert.t) (alert : PriceAlert.t)
  (l2 : list PriceAlert.t) (price : number) (sym : string) (w : World) :
  PriceAlert.symbol alert = sym ->
  PriceAlert.isActive alert = true ->
  let holds :=
    match PriceAlert.type alert with
    | PriceAlert.above => (PriceAlert.threshold alert <=? price)%float
    | PriceAlert.below => (price <=? PriceAlert.threshold alert)%float
    end in
  let after := checkPriceAlerts permission (l1 ++ alert :: l2) price sym w in
  shouldTrigger alert price = holds
  /\ (holds = true ->
      after = checkPriceAlerts permission l2 price sym
                (trigger permission price sym
                   (checkPriceAlerts permission l1 price sym w) alert)
      /\ (permission = granted ->
          In (alert_notification alert price sym) (notifications after))
      /\ (forall a, In a (alerts (state after)) ->
                    PriceAlert.id a = PriceAlert.id alert ->
                    PriceAlert.isActive a = false))
  /\ (holds = false ->
      after = checkPriceAlerts permission (l1 ++ l2) price sym w).
Proof.
  intros S A holds after.
  assert (C : condition alert price = holds) by reflexivity.
  pose proof (triggers_condition price sym alert S A) as T. rewrite C in T.
  split; [now rewrite shouldTrigger_condition|].
  split; intros H; rewrite H in T.
  - split; [|split].
    + unfold after.
      now rewrite checkPriceAlerts_app, checkPriceAlerts_cons,
        check_alert_triggers, T.
    + intros ->. unfold after. rewrite checkPriceAlerts_notifications.
      apply in_or_app; right.
      apply (in_map (fun a => alert_notification a price sym)).
      apply filter_In. split; [|exact T].
      apply in_or_app; right; now left.
    + intros a Ha E. unfold after in Ha.
      rewrite checkPriceAlerts_alerts in Ha. apply in_map_iff in Ha.
      destruct Ha as (x & <- & _).
      destruct (hit price sym (l1 ++ alert :: l2) x) eqn:Hx.
      * reflexivity.
      * rewrite hit_here in Hx; [discriminate | exact T | exact E].
  - unfold after.
    now rewrite !checkPriceAlerts_app, checkPriceAlerts_cons,
      check_alert_triggers, T.
Qed.

(** The example of the specification, evaluated: nothing happens at 2999.99;
    at 3000.00 the notification is built and the alert is inactive; and an
    evaluator that reads the new list does nothing at 3000.00. *)
Example eth_above_3000_run :
  checkPriceAlerts granted [eth_above_3000] 2999.99%float "ETH"
    (world_with [eth_above_3000])
  = world_with [eth_above_3000]
  /\ checkPriceAlerts granted [eth_above_3000] 3000.00%float "ETH"
       (world_with [eth_above_3000])
     = mkWorld
         (mkState [] None false [PriceAlert.deactivated eth_above_3000] false)
         [mkNotification "🚨 ETH Price Alert!"
            "ETH hit above $3000.00! Current: $3000.00" "/icon-192.png"]
         []
  /\ checkPriceAlerts granted [PriceAlert.deactivated eth_above_3000]
       3000.00%float "ETH"
       (world_with [PriceAlert.deactivated eth_above_3000])
     = world_with [PriceAlert.deactivated eth_above_3000].
Proof. repeat split; vm_compute; reflexivity. Qed.

(** *** Frame of the evaluator *)

(** Whatever the closure and the state: alert by alert, the state after is
    the state before, up to the active flag, which can only go off. *)
Lemma checkPriceAlerts_only_deactivates permission l price sym w :
  Forall2 (fun x y => y = x \/ y = PriceAlert.deactivated x)
          (alerts (state w))
          (alerts (state (checkPriceAlerts permission l price sym w))).
Proof.
  rewrite checkPriceAlerts_alerts.
  induction (alerts (state w)) as [|x st IH]; simpl; constructor; auto.
  destruct (hit price sym l x); auto.
Qed.

Lemma ids_unique l a x :
  NoDup (ids l) -> In a l -> In x l -> PriceAlert.id x = PriceAlert.id a -> x = a.
Proof.
  unfold ids. induction l as [|y l IH]; simpl; [tauto|].
  intros N Ha Hx E. inversion N as [|? ? Hy N']; subst.
  destruct Ha as [->|Ha], Hx as [->|Hx]; auto.
  - exfalso. apply Hy. rewrite <- E. now apply in_map.
  - exfalso. apply Hy. rewrite E. now apply in_map.
Qed.

Lemma hit_unique price sym l x :
  NoDup (ids l) -> In x l -> hit price sym l x = triggers price sym x.
Proof.
  intros N Hx. unfold hit.
  destruct (triggers price sym x) eqn:T.
  - apply existsb_exists. exists x. now rewrite T, String.eqb_refl.
  - destruct (existsb _ l) eqn:E; [|reflexivity].
    apply existsb_exists in E. destruct E as (a & Ha & E).
    apply andb_true_iff in E. destruct E as (Ta & E).
    apply String.eqb_eq in E.
    rewrite (ids_unique l a x N Ha Hx E) in T. congruence.
Qed.

(** Deactivation goes by identifier: of two alerts with one identifier in
    the closure and the state, the one that triggers takes the other with
    it, whatever its symbol and condition. *)
Remark same_identifier_deactivated :
  alerts (state (checkPriceAlerts granted [eth_above_3000; btc_same_id]
                   3000.00%float "ETH"
                   (world_with [eth_above_3000; btc_same_id])))
  = [PriceAlert.deactivated eth_above_3000; PriceAlert.deactivated btc_same_id]
  /\ String.eqb (PriceAlert.symbol btc_same_id) "ETH" = false
  /\ shouldTrigger btc_same_id 3000.00%float = false.
Proof. repeat split; vm_compute; reflexivity. Qed.

End EvaluatorClaims.

(** ** Numbers *)

Module NumberFacts.
Import JS.

Lemma SFcompare_refl x : x <> S754_nan -> SFcompare x x = Some Eq.
Proof.
  destruct x as [s|s| |s m e]; simpl; try congruence; intros _.
  - now destruct s.
  - rewrite Z.compare_refl.
    assert (Pos.compare_cont Eq m m = Eq) as -> by apply Pos.compare_cont_refl.
    now destruct s.
Qed.

Lemma is_nan_spec x : is_nan x = true -> Prim2SF x = S754_nan.
Proof.
  unfold is_nan. rewrite eqb_spec. unfold SFeqb. intros H.
  destruct (Prim2SF x) eqn:E; try reflexivity;
    rewrite SFcompare_refl in H by congruence; discriminate.
Qed.

(** A NaN is not greater than zero. *)
Lemma gt_zero_nan x : isNaN x = true -> gt x zero = false.
Proof.
  intros H. unfold gt. rewrite ltb_spec, (is_nan_spec x H).
  reflexivity.
Qed.

(** A number at most zero is not greater than zero. *)
Lemma gt_zero_le x : le x zero = true -> gt x zero = false.
Proof.
  unfold le, gt. rewrite leb_spec, ltb_spec.
  change (Prim2SF zero) with (S754_zero false).
  destruct (Prim2SF x) as [s|s| |s m e]; simpl; try reflexivity.
  - now destruct s.
  - now destruct s.
Qed.

(** A number greater than zero is not NaN. *)
Lemma gt_zero_not_nan x : gt x zero = true -> isNaN x = false.
Proof.
  intros H. destruct (isNaN x) eqn:E; [|reflexivity].
  rewrite gt_zero_nan in H by exact E. discriminate.
Qed.

(** The decimal numeral determines the number. *)
Lemma decimal_digits_inj n n' : decimal_digits n = decimal_digits n' -> n = n'.
Proof.
  unfold decimal_digits. intros H.
  apply DecimalN.Unsigned.to_uint_inj.
  apply (f_equal NilEmpty.uint_of_string) in H.
  rewrite !NilEmpty.usu in H. congruence.
Qed.

End NumberFacts.

(** ** Fetch cycle and alert life cycle *)

Module LifecycleClaims.
Import JS Dashboard Examples Scenarios EvaluatorFacts NumberFacts.
Local Open Scope list_scope.

Lemma checkPriceAlerts_ids permission l price sym w :
  ids (alerts (state (checkPriceAlerts permission l price sym w)))
  = ids (alerts (state w)).
Proof.
  rewrite checkPriceAlerts_alerts. unfold ids. rewrite map_map.
  apply map_ext. intros x. now destruct (hit price sym l x).
Qed.

Lemma checkPriceAlerts_all_ids permission l (calls : list TokenData.t) w :
  ids (alerts (state
         (fold_left (fun w token =>
                       checkPriceAlerts permission l
                         (TokenData.price token) (TokenData.symbol token) w)
                    calls w)))
  = ids (alerts (state w)).
Proof.
  revert w. induction calls as [|c calls IH]; intros w; [reflexivity|].
  simpl. rewrite IH. apply checkPriceAlerts_ids.
Qed.

(** A fetch cycle neither adds nor removes an alert, whatever it receives
    and whatever alert list its closure holds. *)
Lemma fetchCryptoData_ids permission l result random1 random2 w :
  ids (alerts (state (fetchCryptoData permission l result random1 random2 w)))
  = ids (alerts (state w)).
Proof.
  unfold fetchCryptoData.
  destruct result as [|[|] [data|]]; try reflexivity.
  destruct (cryptoTokens data); [|reflexivity].
  simpl. rewrite checkPriceAlerts_all_ids. apply checkPriceAlerts_ids.
Qed.

Lemma fetches_ids permission cs w :
  ids (alerts (state (fetches permission cs w))) = ids (alerts (state w)).
Proof.
  revert w. induction cs as [|[[[l result] r1] r2] cs IH]; intros w.
  - reflexivity.
  - simpl. rewrite IH. apply fetchCryptoData_ids.
Qed.

(** C7. Deleting by identifier keeps exactly the alerts with another
    identifier, in their order, whether active or not; and after any number
    of fetch cycles the identifiers in the state are those left by the
    deletion, so the deleted identifier is not among them. *)
Theorem delete_removes_alert
  (permission : Permission) (alert_id : string) (w : World)
  (cs : list (list PriceAlert.t * FetchResult * number * number)) :
  let deleted := deleteAlert alert_id w in
  alerts (state deleted)
  = filter (fun a => negb (String.eqb (PriceAlert.id a) alert_id))
           (alerts (state w))
  /\ (forall a, In a (alerts (state deleted))
                <-> In a (alerts (state w)) /\ PriceAlert.id a <> alert_id)
  /\ ids (alerts (state (fetches permission cs deleted)))
     = ids (alerts (state deleted))
  /\ ~ In alert_id (ids (alerts (state (fetches permission cs deleted)))).
Proof.
  intros deleted.
  assert (F : forall a, In a (alerts (state deleted))
                <-> In a (alerts (state w)) /\ PriceAlert.id a <> alert_id).
  { intros a. unfold deleted; simpl. rewrite filter_In.
    rewrite negb_true_iff, String.eqb_neq. reflexivity. }
  repeat split; try apply F; auto.
  - apply fetches_ids.
  - rewrite fetches_ids. unfold ids. rewrite in_map_iff.
    intros (a & E & Ha). apply F in Ha. tauto.
Qed.

(** C4. When the request fails, or its body is not JSON (or not a table to
    read prices from), the token list, the synthesized token, the alerts, the
    modal flag and the notifications are those before the cycle; the error
    goes to the console and the loading flag is cleared. *)
Theorem failed_fetch_keeps_state
  (permission : Permission) (l : list PriceAlert.t) (result : FetchResult)
  (random1 random2 : number) (w : World) (e : Error) :
  failed result = Some e ->
  let after := fetchCryptoData permission l result random1 random2 w in
  tokens (state after) = tokens (state w)
  /\ airToken (state after) = airToken (state w)
  /\ alerts (state after) = alerts (state w)
  /\ showAlertModal (state after) = showAlertModal (state w)
  /\ notifications after = notifications w
  /\ console after = console w ++ [e]
  /\ loading (state after) = false.
Proof.
  unfold failed, fetchCryptoData.
  destruct result as [|[|] [data|]]; try (intros [= <-]; simpl; tauto).
  destruct (cryptoTokens data); [discriminate|].
  intros [= <-]; simpl; tauto.
Qed.

Lemma failed_fetch_keeps_state_witness :
  failed (Response true None) = Some SyntaxError
  /\ tokens (state (fetchCryptoData granted [eth_above_3000]
                      (Response true None) 0.25%float 0.75%float shown_world))
     = tokens (state shown_world).
Proof.
  split; [reflexivity|].
  apply (failed_fetch_keeps_state granted [eth_above_3000]
           (Response true None) 0.25%float 0.75%float shown_world SyntaxError
           eq_refl).
Defined.

(** The failures of a cycle: no response, a response that is not [ok], a
    body that is not JSON, the body [null], and a body with a field that
    does not convert to a number. *)
Example failures :
  failed NoResponse = Some NetworkError
  /\ failed (Response false (Some (Obj []))) = Some FailedToFetch
  /\ failed (Response true None) = Some SyntaxError
  /\ failed (Response true (Some (Prim Null))) = Some TypeError
  /\ failed (Response true
               (Some (Obj [("bitcoin",
                            Obj [("usd", Obj [("toString", Prim (Num 1%float))])])])))
     = Some TypeError
  /\ failed (Response true (Some (Obj []))) = None.
Proof. repeat split. Qed.

(** C6 (amended). A submitted threshold text whose [parseFloat] is greater
    than zero appends exactly one alert, active, with the symbol, direction
    and parsed threshold of the form, identified by the decimal numeral of
    the clock reading; this identifier is new when every alert in the list
    was created at another clock reading. Any other text, one whose
    [parseFloat] is NaN or at most zero, changes nothing. *)
Theorem submit_creates_alert (now : N) (form : AlertForm) (w : World) :
  let thresholdNum := parseFloat (thresholdText form) in
  let after := snd (handleSubmit now form w) in
  (gt thresholdNum zero = true ->
   alerts (state after)
   = alerts (state w)
     ++ [PriceAlert.mk (decimal_digits now) (selectedSymbol form)
           (alertType form) thresholdNum true])
  /\ ((forall a, In a (alerts (state w)) ->
                 exists t, PriceAlert.id a = decimal_digits t /\ t <> now) ->
      ~ In (decimal_digits now) (ids (alerts (state w))))
  /\ (gt thresholdNum zero = false -> handleSubmit now form w = (form, w))
  /\ (isNaN thresholdNum = true \/ le thresholdNum zero = true ->
      handleSubmit now form w = (form, w)).
Proof.
  intros thresholdNum after. repeat split.
  - intros G. unfold after, handleSubmit. fold thresholdNum. now rewrite G.
  - intros Fresh. unfold ids. rewrite in_map_iff. intros (a & E & Ha).
    destruct (Fresh a Ha) as (t & Et & Nt).
    apply Nt. apply decimal_digits_inj. congruence.
  - intros G. unfold handleSubmit. fold thresholdNum. now rewrite G.
  - intros R. unfold handleSubmit. fold thresholdNum.
    assert (gt thresholdNum zero = false) as ->; [|reflexivity].
    destruct R; auto using gt_zero_nan, gt_zero_le.
Qed.

Lemma submit_creates_alert_witness :
  gt (parseFloat (thresholdText eth_form)) zero = true
  /\ alerts (state (snd (handleSubmit 1700000000000 eth_form
                           (world_with [btc_below_10]))))
     = [btc_below_10; eth_above_3000].
Proof.
  split; [reflexivity|].
  apply (submit_creates_alert 1700000000000 eth_form
           (world_with [btc_below_10])).
  reflexivity.
Defined.

(** Two submissions at one clock reading: two alerts with one identifier. *)
Lemma submit_creates_alert_counterexample :
  ids (alerts (state
         (run granted
            [Submit 1700000000000 eth_form;
             Submit 1700000000000 (mkForm "BTC" PriceAlert.below "10")]
            (mkWorld initial [] []))))
  = ["1700000000000"; "1700000000000"].
Proof. vm_compute. reflexivity. Qed.

(** What the form accepts and rejects. *)
Example submitted_texts :
  map (fun text => gt (parseFloat text) zero)
      ["3000"; "0.005"; "12abc"; "1e999"; (nbsp ++ "5")%string; "abc"; ""; "0";
       "-5";
       "-0"]
  = [true; true; true; true; true; false; false; false; false; false].
Proof. vm_compute. reflexivity. Qed.

(** *** The component as mounted *)

(** The interval runs the fetch cycle of the first render, whose evaluator
    walks the alert list of that render, the empty one: a tick builds no
    notification and leaves the alerts as they are. *)
Remark tick_reads_mount_alerts permission result random1 random2 w :
  alerts (state (step permission (Tick result random1 random2) w))
  = alerts (state w)
  /\ notifications (step permission (Tick result random1 random2) w)
     = notifications w.
Proof.
  unfold step, fetchCryptoData, initial. cbn [alerts].
  destruct result as [|[|] [data|]]; try (split; reflexivity).
  destruct (cryptoTokens data) as [toks|]; [|split; reflexivity].
  rewrite checkPriceAlerts_nil.
  assert (F : fold_left
                (fun w0 token =>
                   checkPriceAlerts permission []
                     (TokenData.price token) (TokenData.symbol token) w0)
                toks w = w).
  { induction toks as [|t toks IH]; [reflexivity|]. simpl. exact IH. }
  rewrite F. split; reflexivity.
Qed.

Lemma ids_filter_NoDup (f : PriceAlert.t -> bool) l :
  NoDup (ids l) -> NoDup (ids (filter f l)).
Proof.
  unfold ids. induction l as [|a l IH]; simpl; intros N; [constructor|].
  inversion N as [|? ? Ha N']; subst. destruct (f a); simpl; auto.
  constructor; auto. intros H. apply Ha.
  apply in_map_iff in H. destruct H as (x & E & Hx).
  apply filter_In in Hx. rewrite <- E. apply in_map. tauto.
Qed.

Lemma step_reached permission e seen rest w :
  NoDup (seen ++ submit_times (e :: rest)) ->
  reached seen w ->
  reached (seen ++ submit_times [e]) (step permission e w)
  /\ NoDup ((seen ++ submit_times [e]) ++ submit_times rest).
Proof.
  intros N (Nd & Id & Ac & No).
  assert (N' : NoDup ((seen ++ submit_times [e]) ++ submit_times rest)).
  { rewrite <- app_assoc. destruct e; simpl in *; exact N. }
  split; [|exact N'].
  destruct e as [result r1 r2|now form|alert_id|shown].
  - destruct (tick_reads_mount_alerts permission result r1 r2 w) as [Ea En].
    unfold reached. rewrite Ea, En. simpl. rewrite app_nil_r. repeat split; auto.
  - unfold step, handleSubmit.
    assert (Id' : forall a, In a (alerts (state w)) ->
                   exists t, In t (seen ++ submit_times [Submit now form])
                             /\ PriceAlert.id a = decimal_digits t).
    { intros a Ha. destruct (Id a Ha) as (t & Ht & E).
      exists t. split; [apply in_or_app; now left | exact E]. }
    destruct (gt (parseFloat (thresholdText form)) zero).
    + unfold reached. simpl. unfold ids. rewrite map_app. simpl.
      repeat split.
      * apply NoDup_app; [exact Nd | repeat constructor; intros [] |].
        intros x Hx [<-|[]]. apply in_map_iff in Hx.
        destruct Hx as (a & E & Ha). destruct (Id a Ha) as (t & Ht & Et).
        assert (t = now) by (apply decimal_digits_inj; congruence). subst t.
        simpl in N. apply NoDup_remove_2 in N. apply N.
        apply in_or_app. now left.
      * intros a Ha. apply in_app_or in Ha. destruct Ha as [Ha|[<-|[]]].
        -- now apply Id'.
        -- exists now. split; [apply in_or_app; right; now left | reflexivity].
      * intros a Ha. apply in_app_or in Ha. destruct Ha as [Ha|[<-|[]]]; auto.
      * exact No.
    + unfold reached. simpl. repeat split; auto.
  - unfold reached, step, deleteAlert. simpl. rewrite app_nil_r.
    repeat split; auto.
    + now apply ids_filter_NoDup.
    + intros a Ha. apply filter_In in Ha. now apply Id.
    + intros a Ha. apply filter_In in Ha. now apply Ac.
  - unfold reached, step. simpl. rewrite app_nil_r. repeat split; auto.
Qed.

Lemma run_reached permission events seen w :
  NoDup (seen ++ submit_times events) ->
  reached seen w ->
  reached (seen ++ submit_times events) (run permission events w).
Proof.
  revert seen w. induction events as [|e events IH]; intros seen w N R.
  - simpl. now rewrite app_nil_r.
  - destruct (step_reached permission e seen events w N R) as [R' N'].
    specialize (IH _ _ N' R').
    replace (seen ++ submit_times (e :: events))
      with ((seen ++ submit_times [e]) ++ submit_times events).
    + exact IH.
    + rewrite <- app_assoc. f_equal. simpl. now rewrite app_nil_r.
Qed.

(** Whatever happens to the mounted component, as long as no two alerts are
    submitted at one clock reading: the identifiers of its alerts are
    pairwise distinct, and, the interval reading the empty list, every alert
    is still active and no notification was ever built. *)
Remark mounted_component permission events :
  NoDup (submit_times events) ->
  let w := run permission events (mkWorld initial [] []) in
  NoDup (ids (alerts (state w)))
  /\ (forall a, In a (alerts (state w)) -> PriceAlert.isActive a = true)
  /\ notifications w = [].
Proof.
  intros N.
  destruct (run_reached permission events [] (mkWorld initial [] []) N)
    as (Nd & _ & Ac & No).
  - repeat split; simpl; try constructor; intros a [].
  - auto.
Qed.

End LifecycleClaims.

(** ** The alerts in the mounted component *)

Module MountedClaims.
Import JS Dashboard Examples Scenarios Cycle EvaluatorFacts NumberFacts.
Local Open Scope list_scope.

(** An event of the mounted component builds no notification, and leaves
    every alert in the list as it is, unless it deletes it. *)
Lemma step_keeps permission e w :
  notifications (step permission e w) = notifications w
  /\ (forall a, In a (alerts (state w)) -> e <> Delete (PriceAlert.id a) ->
                In a (alerts (state (step permission e w)))).
Proof.
  destruct e as [result r1 r2|now form|alert_id|shown].
  - destruct (LifecycleClaims.tick_reads_mount_alerts permission result r1 r2 w)
      as [-> ->]. auto.
  - unfold step, handleSubmit.
    destruct (gt (parseFloat (thresholdText form)) zero); simpl; auto.
    split; [reflexivity|]. intros a Ha _. apply in_or_app. now left.
  - split; [reflexivity|]. intros a Ha N. simpl. apply filter_In.
    split; [exact Ha|]. apply negb_true_iff, String.eqb_neq. congruence.
  - simpl. auto.
Qed.

Lemma run_keeps permission events w :
  notifications (run permission events w) = notifications w
  /\ (forall a, In a (alerts (state w)) ->
                ~ In (Delete (PriceAlert.id a)) events ->
                In a (alerts (state (run permission events w)))).
Proof.
  revert w. induction events as [|e events IH]; intros w; [simpl; auto|].
  destruct (step_keeps permission e w) as [No Al].
  destruct (IH (step permission e w)) as [No' Al'].
  change (run permission (e :: events) w)
    with (run permission events (step permission e w)).
  split; [congruence|].
  intros a Ha N. apply Al'.
  - apply Al; [exact Ha|]. intros ->. apply N. now left.
  - intros H. apply N. now right.
Qed.


Lemma run_app permission events1 events2 w :
  run permission (events1 ++ events2) w
  = run permission events2 (run permission events1 w).
Proof. apply fold_left_app. Qed.

(** C1. The evaluator the component runs is the one of the first render,
    whose alert list is empty: an alert created through the form is never
    evaluated. Whatever happened before its submission and whatever happens
    afterwards, whichever prices the ticks bring, the alert stays in the
    list, active, and no notification is built, as long as it is not
    deleted. *)
Theorem created_alert_never_triggers
  (permission : Permission) (earlier : list Event) (now : N) (form : AlertForm)
  (later : list Event) :
  gt (parseFloat (thresholdText form)) zero = true ->
  ~ In (Delete (decimal_digits now)) later ->
  let created :=
    PriceAlert.mk (decimal_digits now) (selectedSymbol form) (alertType form)
      (parseFloat (thresholdText form)) true in
  let after :=
    run permission (earlier ++ Submit now form :: later)
      (mkWorld initial [] []) in
  In created (alerts (state after)) /\ notifications after = [].
Proof.
  intros G N created after. unfold after.
  rewrite run_app.
  change (run permission (Submit now form :: later) ?w)
    with (run permission later (step permission (Submit now form) w)).
  destruct (run_keeps permission later
              (step permission (Submit now form)
                 (run permission earlier (mkWorld initial [] []))))
    as [No Al].
  split.
  - apply Al; [|exact N].
    unfold step, handleSubmit. rewrite G. simpl. apply in_or_app. right.
    now left.
  - rewrite No.
    destruct (step_keeps permission (Submit now form)
                (run permission earlier (mkWorld initial [] []))) as [-> _].
    now destruct (run_keeps permission earlier (mkWorld initial [] [])) as [-> _].
Qed.

(** The example of the specification in the component: the alert on ETH
    above 3000 is submitted, and the next tick brings ETH at 3000. *)
Lemma created_alert_never_triggers_witness :
  (gt (parseFloat (thresholdText eth_form)) zero = true
   /\ ~ In (Delete (decimal_digits 1700000000000))
           [Tick (Response true (Some eth_at_3000)) 0.5%float 0.5%float])
  /\ In eth_above_3000
        (alerts (state
           (run granted
              ([Tick (Response true (Some eth_only)) 0.5%float 0.5%float]
               ++ Submit 1700000000000 eth_form
                  :: [Tick (Response true (Some eth_at_3000))
                        0.5%float 0.5%float])
              (mkWorld initial [] []))))
  /\ notifications
       (run granted
          ([Tick (Response true (Some eth_only)) 0.5%float 0.5%float]
           ++ Submit 1700000000000 eth_form
              :: [Tick (Response true (Some eth_at_3000)) 0.5%float 0.5%float])
          (mkWorld initial [] []))
     = [].
Proof.
  assert (N : ~ In (Delete (decimal_digits 1700000000000))
                   [Tick (Response true (Some eth_at_3000)) 0.5%float 0.5%float])
    by (simpl; intuition discriminate).
  split; [split; [reflexivity | exact N]|].
  apply (created_alert_never_triggers granted
           [Tick (Response true (Some eth_only)) 0.5%float 0.5%float]
           1700000000000 eth_form
           [Tick (Response true (Some eth_at_3000)) 0.5%float 0.5%float]
           eq_refl N).
Defined.

(** The same run, evaluated: ETH is displayed at 3000.00, the alert above
    3000 is still active and nothing was notified, where the evaluator given
    the list of the state would have notified and deactivated. *)
Example eth_alert_at_3000 :
  let w := run granted
             [Tick (Response true (Some eth_only)) 0.5%float 0.5%float;
              Submit 1700000000000 eth_form;
              Tick (Response true (Some eth_at_3000)) 0.5%float 0.5%float]
             (mkWorld initial [] []) in
  alerts (state w) = [eth_above_3000]
  /\ notifications w = []
  /\ map (fun t => formatPrice (Num (TokenData.price t)) 2)
         (firstn 1 (tokens (state w)))
     = ["3000.00"]
  /\ alerts (state (checkPriceAlerts granted (alerts (state w)) 3000%float
                      "ETH" w))
     = [PriceAlert.deactivated eth_above_3000].
Proof. vm_compute. repeat split. Qed.




End MountedClaims.

(** ** Numeric safety helper and formatters *)

Module FormatFacts.
Import JS Dashboard.

Lemma digits_value_decimal_digits n : digits_value (decimal_digits n) = Some n.
Proof.
  unfold digits_value, decimal_digits.
  rewrite NilEmpty.usu. simpl. now rewrite DecimalN.Unsigned.of_to.
Qed.

Lemma digits_value_zeros k s : digits_value (zeros k ++ s) = digits_value s.
Proof.
  induction k as [|k IH]; [reflexivity|].
  unfold digits_value in *. simpl.
  destruct (NilEmpty.uint_of_string (zeros k ++ s)) as [d|];
    destruct (NilEmpty.uint_of_string s) as [d'|]; simpl in *; congruence.
Qed.

Lemma length_append s t :
  String.length (s ++ t) = (String.length s + String.length t)%nat.
Proof. induction s as [|c s IH]; simpl; auto. Qed.

Lemma append_assoc s t u : (s ++ t) ++ u = s ++ t ++ u.
Proof. induction s as [|c s IH]; simpl; congruence. Qed.

Lemma length_zeros k : String.length (zeros k) = k.
Proof. induction k; simpl; auto. Qed.

Lemma substring_all s : substring 0 (String.length s) s = s.
Proof. induction s as [|c s IH]; simpl; congruence. Qed.

Lemma substring_split s i :
  (i <= String.length s)%nat ->
  substring 0 i s ++ substring i (String.length s - i) s = s.
Proof.
  revert i. induction s as [|c s IH]; intros [|i] L; simpl in *;
    try reflexivity; try lia.
  - now rewrite substring_all.
  - rewrite IH by lia. reflexivity.
Qed.

Lemma length_substring s i j :
  (i + j <= String.length s)%nat -> String.length (substring i j s) = j.
Proof.
  revert i j. induction s as [|c s IH]; intros [|i] [|j] L; simpl in *;
    try reflexivity; try lia.
  - rewrite (IH 0%nat j); lia.
  - rewrite (IH i 0%nat); lia.
  - rewrite (IH i (S j)); lia.
Qed.

(** The text of [fixed_digits]: the digits of [n], padded to more than [f]
    of them, cut before the last [f]. *)
Lemma fixed_digits_shape n f :
  (0 < f)%nat ->
  exists whole fraction,
    fixed_digits n f = whole ++ "." ++ fraction
    /\ String.length fraction = f
    /\ (0 < String.length whole)%nat
    /\ digits_value (whole ++ fraction) = Some n.
Proof.
  intros F. unfold fixed_digits.
  destruct (Nat.eqb_spec f 0) as [->|_]; [lia|].
  set (m := if (String.length (decimal_digits n) <=? f)%nat
            then zeros (f + 1 - String.length (decimal_digits n))
                 ++ decimal_digits n
            else decimal_digits n).
  assert (L : (f < String.length m)%nat).
  { unfold m. destruct (Nat.leb_spec (String.length (decimal_digits n)) f).
    - rewrite length_append, length_zeros. lia.
    - lia. }
  assert (V : digits_value m = Some n).
  { unfold m. destruct (String.length (decimal_digits n) <=? f)%nat.
    - rewrite digits_value_zeros. apply digits_value_decimal_digits.
    - apply digits_value_decimal_digits. }
  exists (substring 0 (String.length m - f) m),
         (substring (String.length m - f) f m).
  repeat split.
  - apply length_substring. lia.
  - rewrite length_substring; lia.
  - replace (substring (String.length m - f) f m)
      with (substring (String.length m - f)
              (String.length m - (String.length m - f)) m)
      by (f_equal; lia).
    rewrite substring_split by lia. exact V.
Qed.

Lemma scaled_den_pos e e10 : (0 < scaled_den e e10)%Z.
Proof. unfold scaled_den. apply Z.mul_pos_pos; apply Z.pow_pos_nonneg; lia. Qed.

Lemma scaled_num_pos m e e10 : (0 < scaled_num m e e10)%Z.
Proof.
  unfold scaled_num.
  repeat apply Z.mul_pos_pos; try apply Z.pow_pos_nonneg; lia.
Qed.

(** [scaled_round] is the nearest integer, the larger of two. *)
Lemma scaled_round_nearest m e e10 :
  let n := scaled_round m e e10 in
  (2 * scaled_num m e e10 - scaled_den e e10 < 2 * scaled_den e e10 * n
   <= 2 * scaled_num m e e10 + scaled_den e e10)%Z
  /\ (0 <= n)%Z.
Proof.
  unfold scaled_round.
  pose proof (scaled_den_pos e e10) as D.
  pose proof (scaled_num_pos m e e10) as P.
  set (num := scaled_num m e e10) in *. set (den := scaled_den e e10) in *.
  pose proof (Z.mul_div_le (2 * num + den) (2 * den) ltac:(lia)).
  pose proof (Z.mul_succ_div_gt (2 * num + den) (2 * den) ltac:(lia)).
  split; [lia|]. apply Z.div_pos; lia.
Qed.

(** A finite number is finite. *)
Lemma finite_isFinite x s m e :
  Prim2SF x = S754_finite s m e -> isFinite x = true.
Proof.
  intros E. unfold isFinite, is_finite, is_nan, is_infinity.
  rewrite !eqb_spec, abs_spec, E. simpl.
  unfold SFeqb. rewrite NumberFacts.SFcompare_refl by discriminate.
  reflexivity.
Qed.

Lemma zero_isFinite x s : Prim2SF x = S754_zero s -> isFinite x = true.
Proof.
  intros E. unfold isFinite, is_finite, is_nan, is_infinity.
  rewrite !eqb_spec, abs_spec, E. reflexivity.
Qed.


End FormatFacts.

Module NumericClaims.
Import JS Dashboard Examples FormatFacts.

Lemma safeNumber_finite v fallback :
  safeNumber v fallback = if isFinite (Number v) then Number v else fallback.
Proof.
  unfold safeNumber, isNaN, isFinite, is_finite.
  destruct (is_nan (Number v)), (is_infinity (Number v)); reflexivity.
Qed.

(** The text of [toFixed] on a finite number below [10^21] in magnitude:
    a minus sign if negative, then the digits of the integer nearest to
    [|x| * 10^f], with a point before the last [f]. *)
Lemma toFixed_shape x s m e f :
  Prim2SF x = S754_finite s m e ->
  scaled_compare m e (10 ^ 21) 0 = Lt ->
  (0 < f)%nat ->
  exists (n : N) (whole fraction : string),
    (2 * scaled_num m e (- Z.of_nat f) - scaled_den e (- Z.of_nat f)
     < 2 * scaled_den e (- Z.of_nat f) * Z.of_N n
     <= 2 * scaled_num m e (- Z.of_nat f) + scaled_den e (- Z.of_nat f))%Z
    /\ String.length fraction = f
    /\ (0 < String.length whole)%nat
    /\ digits_value (whole ++ fraction) = Some n
    /\ toFixed x f = (if s then "-" else "") ++ whole ++ "." ++ fraction.
Proof.
  intros E B F. unfold toFixed. rewrite E, B.
  pose proof (scaled_round_nearest m e (- Z.of_nat f)) as [R P].
  destruct (fixed_digits_shape (Z.to_N (scaled_round m e (- Z.of_nat f))) f F)
    as (whole & fraction & -> & L & W & V).
  exists (Z.to_N (scaled_round m e (- Z.of_nat f))), whole, fraction.
  rewrite Z2N.id by exact P. auto.
Qed.




(** More changes and prices, formatted. *)
Example formatted :
  map Utils.formatChange
      [1.8%float; (-0.004)%float; 0.004%float; 1.005%float; 12.345%float]
  = ["+1.80%"; "-0.00%"; "+0.00%"; "+1.00%"; "+12.35%"]
  /\ map (fun p => formatPrice (Num p) 2)
         [2340%float; 43250%float; 1.0%float; 14.85%float; 6.42%float]
     = ["2340.00"; "43250.00"; "1.00"; "14.85"; "6.42"].
Proof. split; vm_compute; reflexivity. Qed.

End NumericClaims.

(** ** Rounding of binary64 results *)

Module RoundingFacts.
Import Rounding.
Local Open Scope Z_scope.

Lemma pow2_pos n : 0 <= n -> 0 < 2 ^ n.
Proof. intros. apply Z.pow_pos_nonneg; lia. Qed.

Lemma RNE_bounds M n : 0 <= n -> M / 2 ^ n <= RNE M n <= M / 2 ^ n + 1.
Proof.
  intros N. unfold RNE.
  destruct (2 * (M mod 2 ^ n) ?= 2 ^ n); [destruct (Z.even _)| |]; lia.
Qed.

Lemma RNE_exact K n : 0 <= n -> RNE (K * 2 ^ n) n = K.
Proof.
  intros N. unfold RNE. pose proof (pow2_pos n N).
  rewrite Z.mod_mul, Z.div_mul by lia.
  destruct (Z.compare_spec (2 * 0) (2 ^ n)); try reflexivity; lia.
Qed.

Lemma RNE_ge K M n : 0 <= n -> K * 2 ^ n <= M -> K <= RNE M n.
Proof.
  intros N H. pose proof (pow2_pos n N). pose proof (RNE_bounds M n N).
  assert (K <= M / 2 ^ n) by (apply Z.div_le_lower_bound; lia). lia.
Qed.

Lemma RNE_le K M n : 0 <= n -> M <= K * 2 ^ n -> RNE M n <= K.
Proof.
  intros N H. pose proof (pow2_pos n N) as P.
  destruct (Z.eq_dec M (K * 2 ^ n)) as [->|D].
  - rewrite RNE_exact; lia.
  - pose proof (RNE_bounds M n N).
    assert (M / 2 ^ n < K) by (apply Z.div_lt_upper_bound; lia). lia.
Qed.

Lemma RNE_mono M1 M2 n : 0 <= n -> M1 <= M2 -> RNE M1 n <= RNE M2 n.
Proof.
  intros N H. pose proof (pow2_pos n N) as P.
  pose proof (Z.div_le_mono M1 M2 (2 ^ n) P H) as Q.
  destruct (Z.eq_dec (M1 / 2 ^ n) (M2 / 2 ^ n)) as [E|D].
  - unfold RNE. rewrite E.
    assert (M1 mod 2 ^ n <= M2 mod 2 ^ n).
    { rewrite !Z.mod_eq by lia. rewrite E. lia. }
    destruct (Z.compare_spec (2 * (M1 mod 2 ^ n)) (2 ^ n));
      destruct (Z.compare_spec (2 * (M2 mod 2 ^ n)) (2 ^ n));
      try destruct (Z.even (M2 / 2 ^ n)); lia.
  - pose proof (RNE_bounds M1 n N). pose proof (RNE_bounds M2 n N). lia.
Qed.

Lemma RNE_scale M n j : 0 <= n -> 0 <= j -> RNE (M * 2 ^ j) (n + j) = RNE M n.
Proof.
  intros N J. pose proof (pow2_pos n N). pose proof (pow2_pos j J).
  unfold RNE. rewrite Z.pow_add_r by lia.
  rewrite Z.div_mul_cancel_r by lia.
  rewrite Z.mul_mod_distr_r by lia.
  destruct (Z.compare_spec (2 * (M mod 2 ^ n * 2 ^ j)) (2 ^ n * 2 ^ j));
    destruct (Z.compare_spec (2 * (M mod 2 ^ n)) (2 ^ n)); try reflexivity; nia.
Qed.

Lemma RNE_nonneg M n : 0 <= n -> 0 <= M -> 0 <= RNE M n.
Proof.
  intros N H. apply (RNE_ge 0); lia.
Qed.

(** *** Digits *)

Lemma digits2_size p : digits2_pos p = Pos.size p.
Proof. induction p; simpl; congruence. Qed.

Lemma Zdigits2_log2 p : Zdigits2 (Z.pos p) = Z.log2 (Z.pos p) + 1.
Proof.
  unfold Zdigits2. rewrite digits2_size.
  destruct p; simpl; rewrite ?Pos.add_1_r; reflexivity.
Qed.

Lemma digits_bounds V : 0 < V -> 2 ^ (digits V - 1) <= V < 2 ^ digits V.
Proof.
  intros H. unfold digits. replace (Z.log2 V + 1 - 1) with (Z.log2 V) by lia.
  apply Z.log2_spec in H. unfold Z.succ in H. exact H.
Qed.

Lemma digits_pos V : 0 < V -> 0 < digits V.
Proof. intros. unfold digits. pose proof (Z.log2_nonneg V). lia. Qed.

Lemma digits_mono V1 V2 : 0 < V1 -> V1 <= V2 -> digits V1 <= digits V2.
Proof.
  intros. unfold digits. pose proof (Z.log2_le_mono V1 V2). lia.
Qed.

Lemma digits_shift V j : 0 < V -> 0 <= j -> digits (V * 2 ^ j) = digits V + j.
Proof.
  intros. unfold digits. rewrite Z.log2_mul_pow2 by lia. lia.
Qed.

Lemma digits_lt V d : 0 < V -> V < 2 ^ d -> digits V <= d.
Proof.
  intros H L. pose proof (digits_bounds V H) as [B _].
  destruct (Z_lt_le_dec d (digits V)); [|lia].
  assert (2 ^ d <= 2 ^ (digits V - 1)) by (apply Z.pow_le_mono_r; lia). lia.
Qed.

Lemma digits_ge V d : 0 <= d -> 2 ^ d <= V -> d < digits V.
Proof.
  intros D L. assert (0 < V) by (pose proof (pow2_pos d D); lia).
  pose proof (digits_bounds V H) as [_ B].
  destruct (Z_lt_le_dec d (digits V)); [lia|].
  assert (2 ^ digits V <= 2 ^ d).
  { apply Z.pow_le_mono_r; lia. }
  lia.
Qed.

(** *** Shifting right with round and sticky bits *)

Lemma iter_pos_nat {A} (f : A -> A) p x :
  iter_pos f p x = Nat.iter (Pos.to_nat p) f x.
Proof.
  revert x. induction p as [p IH|p IH|]; intros x; cbn [iter_pos].
  - rewrite !IH, Pos2Nat.inj_xI.
    replace (S (2 * Pos.to_nat p)) with (Pos.to_nat p + (Pos.to_nat p + 1))%nat by lia.
    rewrite !Nat.iter_add. reflexivity.
  - rewrite !IH, Pos2Nat.inj_xO.
    replace (2 * Pos.to_nat p)%nat with (Pos.to_nat p + Pos.to_nat p)%nat by lia.
    rewrite Nat.iter_add. reflexivity.
  - reflexivity.
Qed.

Lemma shr_1_spec m r s :
  0 <= m ->
  shr_1 {| shr_m := m; shr_r := r; shr_s := s |}
  = {| shr_m := m / 2; shr_r := Z.odd m; shr_s := r || s |}.
Proof.
  intros H. rewrite <- Z.div2_div.
  destruct m as [|[p|p|]|p]; try reflexivity. lia.
Qed.

Lemma shr_iter M k :
  0 <= M ->
  let x := Nat.iter k shr_1 {| shr_m := M; shr_r := false; shr_s := false |} in
  shr_m x = M / 2 ^ Z.of_nat k
  /\ (shr_r x || shr_s x) = negb (M mod 2 ^ Z.of_nat k =? 0).
Proof.
  intros H. induction k as [|k IH].
  - simpl. rewrite Z.div_1_r, Z.mod_1_r. auto.
  - cbn [Nat.iter nat_rect]. cbv zeta in IH. unfold Nat.iter in IH.
    destruct (nat_rect _ _ _ k) as [m r s]. cbn [shr_m shr_r shr_s] in IH.
    destruct IH as [Em Es].
    assert (P : 0 < 2 ^ Z.of_nat k) by (apply pow2_pos; lia).
    assert (0 <= m) by (subst m; apply Z.div_pos; lia).
    rewrite shr_1_spec by assumption. cbn [shr_m shr_r shr_s].
    rewrite Nat2Z.inj_succ, Z.pow_succ_r by lia.
    split.
    + subst m. rewrite Z.div_div by lia. f_equal. lia.
    + rewrite Es.
      assert (Q : M mod (2 * 2 ^ Z.of_nat k)
                  = M mod 2 ^ Z.of_nat k + 2 ^ Z.of_nat k * (m mod 2)).
      { subst m. rewrite (Z.mul_comm 2). rewrite Z.rem_mul_r by lia. lia. }
      rewrite Q. rewrite Zodd_mod.
      pose proof (Z.mod_pos_bound M (2 ^ Z.of_nat k) P).
      pose proof (Z.mod_pos_bound m 2 ltac:(lia)).
      destruct (Z.eqb_spec (m mod 2) 1), (Z.eqb_spec (M mod 2 ^ Z.of_nat k) 0);
        simpl; symmetry;
        try (apply negb_true_iff, Z.eqb_neq; nia);
        try (apply negb_false_iff, Z.eqb_eq; nia).
Qed.

(** The mantissa after a shift of [n > 0] bits, rounded. *)
Lemma shr_round M n :
  0 <= M -> 0 < n ->
  let x := fst (shr {| shr_m := M; shr_r := false; shr_s := false |} 0 n) in
  round_nearest_even (shr_m x) (loc_of_shr_record x) = RNE M n.
Proof.
  intros H N. destruct n as [|p|p]; try lia. simpl.
  rewrite iter_pos_nat.
  destruct (Pos.to_nat p) as [|k] eqn:K; [lia|].
  assert (Ek : Z.pos p = Z.of_nat k + 1) by lia. rewrite Ek.
  simpl Nat.iter.
  pose proof (shr_iter M k H) as I. cbv zeta in I.
  destruct (Nat.iter k shr_1 _) as [m r s]. simpl in I. destruct I as [Em Es].
  assert (P : 0 < 2 ^ Z.of_nat k) by (apply pow2_pos; lia).
  assert (0 <= m) by (subst m; apply Z.div_pos; lia).
  rewrite shr_1_spec by assumption. rewrite Es.
  unfold RNE. rewrite Z.pow_add_r, Z.pow_1_r by lia.
  assert (Q : M mod (2 ^ Z.of_nat k * 2)
              = M mod 2 ^ Z.of_nat k + 2 ^ Z.of_nat k * (m mod 2)).
  { subst m. rewrite Z.rem_mul_r by lia. lia. }
  assert (D : M / (2 ^ Z.of_nat k * 2) = m / 2).
  { subst m. rewrite Z.div_div by lia. reflexivity. }
  rewrite Q, D. rewrite Zodd_mod.
  pose proof (Z.mod_pos_bound M (2 ^ Z.of_nat k) P).
  pose proof (Z.mod_pos_bound m 2 ltac:(lia)).
  destruct (Z.eqb_spec (m mod 2) 1) as [O|O],
           (Z.eqb_spec (M mod 2 ^ Z.of_nat k) 0) as [R|R];
    cbn [round_nearest_even loc_of_shr_record shr_m shr_r shr_s negb];
    destruct (Z.compare_spec
                (2 * (M mod 2 ^ Z.of_nat k + 2 ^ Z.of_nat k * (m mod 2)))
                (2 ^ Z.of_nat k * 2)); try reflexivity; nia.
Qed.

Lemma shr_shift M e n :
  0 <= M -> 0 < n ->
  exists x,
    shr {| shr_m := M; shr_r := false; shr_s := false |} e n = (x, e + n)
    /\ round_nearest_even (shr_m x) (loc_of_shr_record x) = RNE M n.
Proof.
  intros H N. pose proof (shr_round M n H N) as R. cbv zeta in R.
  destruct n as [|p|p]; try lia.
  exists (iter_pos shr_1 p {| shr_m := M; shr_r := false; shr_s := false |}).
  split; [reflexivity | exact R].
Qed.

Lemma shr_none mrs e n : n <= 0 -> shr mrs e n = (mrs, e).
Proof. destruct n; try reflexivity; lia. Qed.

Lemma fexp_eq x : fexp prec emax x = Z.max (x - 53) (-1074).
Proof. reflexivity. Qed.

(** *** The value of a rounded result, in units of [2^-G] *)

Lemma binary_round_aux_units s (p : positive) e :
  - G <= e -> e <= 900 -> digits (Z.pos p) + e <= 1000 ->
  match binary_round_aux prec emax s (Z.pos p) e loc_Exact with
  | S754_zero s' => s' = s /\ round_units (units (Z.pos p) e) = 0
  | S754_finite s' m3 e3 =>
      s' = s /\ -1074 <= e3 <= 1000
      /\ units (Z.pos m3) e3 = round_units (units (Z.pos p) e)
  | _ => False
  end.
Proof.
  intros Ge Le Ld. unfold G in *.
  set (M := Z.pos p) in *. assert (HM : 0 < M) by (unfold M; lia).
  pose proof (digits_bounds M HM) as [Dl Du]. pose proof (digits_pos M HM) as Dp.
  set (d := digits M) in *.
  set (E := Z.max (d + e - 53) (-1074)).
  assert (RU : round_units (units M e) = RNE (units M e) (E + 1200) * 2 ^ (E + 1200)).
  { unfold round_units, units, G. rewrite digits_shift by lia. fold d.
    replace (d + (e + 1200) - 1200 - 53) with (d + e - 53) by lia. reflexivity. }
  unfold binary_round_aux, shr_fexp.
  unfold M at 1 2. rewrite Zdigits2_log2. fold M. change (Z.log2 M + 1) with d.
  rewrite fexp_eq. fold E. cbn [shr_record_of_loc].
  destruct (Z_le_gt_dec (E - e) 0) as [Ex|Sh].
  - (* no shift: the value is exact *)
    rewrite shr_none by exact Ex. cbn [shr_m loc_of_shr_record round_nearest_even].
    unfold M at 1 2. rewrite Zdigits2_log2. fold M. change (Z.log2 M + 1) with d.
    rewrite fexp_eq. fold E. cbn [shr_record_of_loc].
    rewrite shr_none by exact Ex. cbn [shr_m]. unfold M at 1.
    replace (e <=? emax - prec) with true
      by (symmetry; apply Z.leb_le; change (emax - prec) with 971; lia).
    split; [reflexivity|]. split; [lia|].
    rewrite RU. unfold units, G. fold M.
    replace (M * 2 ^ (e + 1200)) with (M * 2 ^ (e - E) * 2 ^ (E + 1200)).
    + rewrite RNE_exact by lia. reflexivity.
    + rewrite <- Z.mul_assoc, <- Z.pow_add_r by lia. f_equal. f_equal. lia.
  - (* a shift by [E - e] bits *)
    destruct (shr_shift M e (E - e) ltac:(lia) ltac:(lia)) as (x & -> & R).
    rewrite R. replace (e + (E - e)) with E by lia.
    assert (Q : RNE (units M e) (E + 1200) = RNE M (E - e)).
    { unfold units, G. replace (E + 1200) with (E - e + (e + 1200)) by lia.
      apply RNE_scale; lia. }
    rewrite Q in RU.
    set (q := RNE M (E - e)) in *.
    assert (Q0 : 0 <= q) by (apply RNE_nonneg; lia).
    assert (Q1 : q <= 2 ^ 53).
    { apply RNE_le; [lia|]. rewrite <- Z.pow_add_r by lia.
      assert (2 ^ d <= 2 ^ (53 + (E - e))) by (apply Z.pow_le_mono_r; lia). lia. }
    destruct q as [|q'|q'] eqn:Eq; [| |lia].
    + (* rounded to zero *)
      cbn [Zdigits2]. rewrite fexp_eq. cbn [shr_record_of_loc].
      rewrite shr_none by lia. cbn [shr_m].
      split; [reflexivity|]. rewrite RU. reflexivity.
    + rewrite Zdigits2_log2. change (Z.log2 (Z.pos q') + 1) with (digits (Z.pos q')).
      rewrite fexp_eq. cbn [shr_record_of_loc].
      destruct (Z.eq_dec (Z.pos q') (2 ^ 53)) as [Top|NTop].
      * (* the mantissa overflowed to [2^53]: one more exact shift *)
        rewrite Top. change (digits (2 ^ 53)) with 54.
        replace (Z.max (54 + E - 53) (-1074) - E) with 1 by lia.
        cbn [shr iter_pos]. rewrite shr_1_spec by lia.
        cbn [shr_m]. change (2 ^ 53 / 2) with (Z.pos 4503599627370496).
        replace (E + 1 <=? emax - prec) with true
          by (symmetry; apply Z.leb_le; change (emax - prec) with 971; lia).
        split; [reflexivity|]. split; [lia|].
        rewrite RU, Top. unfold units, G.
        replace (E + 1 + 1200) with (1 + (E + 1200)) by lia.
        rewrite Z.pow_add_r by lia. lia.
      * assert (digits (Z.pos q') <= 53) by (apply digits_lt; lia).
        rewrite shr_none by lia. cbn [shr_m].
        replace (E <=? emax - prec) with true
          by (symmetry; apply Z.leb_le; change (emax - prec) with 971; lia).
        split; [reflexivity|]. split; [lia|].
        rewrite RU. reflexivity.
Qed.

Lemma round_units_mono V1 V2 :
  0 < V1 -> V1 <= V2 -> round_units V1 <= round_units V2.
Proof.
  intros P L. unfold round_units, G.
  pose proof (digits_mono V1 V2 P L) as D.
  pose proof (digits_bounds V1 P) as [_ U1].
  pose proof (digits_bounds V2 ltac:(lia)) as [L2 _].
  pose proof (digits_pos V1 P) as P1.
  set (d1 := digits V1) in *. set (d2 := digits V2) in *.
  set (n1 := Z.max (d1 - 1200 - 53) (-1074) + 1200).
  set (n2 := Z.max (d2 - 1200 - 53) (-1074) + 1200).
  assert (N1 : 0 <= n1) by (unfold n1; lia).
  assert (N2 : 0 <= n2) by (unfold n2; lia).
  destruct (Z.eq_dec n1 n2) as [E|NE].
  - rewrite <- E. apply Z.mul_le_mono_nonneg_r.
    + pose proof (pow2_pos n1 N1). lia.
    + apply RNE_mono; lia.
  - assert (n2 = d2 - 53) by (unfold n1, n2 in *; lia).
    assert (Lo : 2 ^ (d2 - 1) <= RNE V2 n2 * 2 ^ n2).
    { replace (2 ^ (d2 - 1)) with (2 ^ (d2 - 1 - n2) * 2 ^ n2)
        by (rewrite <- Z.pow_add_r by lia; f_equal; lia).
      apply Z.mul_le_mono_nonneg_r; [pose proof (pow2_pos n2 N2); lia|].
      apply RNE_ge; [lia|].
      rewrite <- Z.pow_add_r by lia.
      replace (d2 - 1 - n2 + n2) with (d2 - 1) by lia. exact L2. }
    assert (Hi : RNE V1 n1 * 2 ^ n1 <= 2 ^ (d2 - 1)).
    { destruct (Z_le_gt_dec n1 d1) as [In|Out].
      - assert (RNE V1 n1 <= 2 ^ (d1 - n1)).
        { apply RNE_le; [lia|]. rewrite <- Z.pow_add_r by lia.
          replace (d1 - n1 + n1) with d1 by lia. lia. }
        assert (RNE V1 n1 * 2 ^ n1 <= 2 ^ (d1 - n1) * 2 ^ n1).
        { apply Z.mul_le_mono_nonneg_r; [pose proof (pow2_pos n1 N1)|]; lia. }
        rewrite <- Z.pow_add_r in * by lia.
        replace (d1 - n1 + n1) with d1 in * by lia.
        assert (2 ^ d1 <= 2 ^ (d2 - 1))
          by (apply Z.pow_le_mono_r; unfold n1, n2 in *; lia).
        lia.
      - assert (RNE V1 n1 <= 1).
        { apply RNE_le; [lia|].
          assert (2 ^ d1 <= 2 ^ n1) by (apply Z.pow_le_mono_r; lia). lia. }
        pose proof (pow2_pos n1 N1).
        assert (RNE V1 n1 * 2 ^ n1 <= 1 * 2 ^ n1)
          by (apply Z.mul_le_mono_nonneg_r; lia).
        assert (2 ^ n1 <= 2 ^ (d2 - 1))
          by (apply Z.pow_le_mono_r; unfold n1, n2 in *; lia).
        lia. }
    lia.
Qed.

(** *** [binary_round] and [binary_normalize] *)

Lemma pos_iter_xO m d : Z.pos (Pos.iter xO m d) = Z.pos m * 2 ^ Z.pos d.
Proof.
  revert m. induction d using Pos.peano_ind; intros m.
  - rewrite Pos.iter_succ_r || idtac. simpl. lia.
  - rewrite Pos.iter_succ, Pos2Z.inj_succ, Z.pow_succ_r by lia.
    rewrite Pos2Z.inj_xO, IHd. lia.
Qed.

Lemma shl_align_units m e e' :
  - G <= e' ->
  let '(m', e'') := shl_align m e e' in
  units (Z.pos m') e'' = units (Z.pos m) e
  /\ e'' = Z.min e e'.
Proof.
  intros L. unfold shl_align.
  destruct (e' - e) as [|d|d] eqn:D.
  - split; [reflexivity|lia].
  - split; [reflexivity|lia].
  - rewrite pos_iter_xO. unfold units. split; [|lia].
    rewrite <- Z.mul_assoc, <- Z.pow_add_r by (unfold G in *; lia).
    f_equal. f_equal. lia.
Qed.

Lemma binary_round_units s (p : positive) e :
  - G <= e -> e <= 900 -> digits (Z.pos p) + e <= 1000 ->
  match binary_round prec emax s p e with
  | S754_zero s' => s' = s /\ round_units (units (Z.pos p) e) = 0
  | S754_finite s' m3 e3 =>
      s' = s /\ -1074 <= e3 <= 1000
      /\ units (Z.pos m3) e3 = round_units (units (Z.pos p) e)
  | _ => False
  end.
Proof.
  intros Ge Le Ld. unfold binary_round.
  rewrite fexp_eq.
  pose proof (shl_align_units p e (Z.max (Z.pos (digits2_pos p) + e - 53) (-1074))
                ltac:(unfold G; lia)) as A.
  destruct (shl_align p e _) as [mz ez]. destruct A as [U Ez].
  rewrite <- U.
  apply binary_round_aux_units; [unfold G in *; lia | lia |].
  assert (HP : 0 < Z.pos p) by lia.
  assert (units (Z.pos mz) ez = units (Z.pos p) e) by exact U.
  unfold units in H.
  assert (D : digits (Z.pos mz * 2 ^ (ez + G)) = digits (Z.pos p * 2 ^ (e + G)))
    by (now rewrite H).
  unfold G in *. rewrite !digits_shift in D by lia. lia.
Qed.



Lemma valid_finite s m e :
  valid_binary (S754_finite s m e) = true ->
  e = Z.max (digits (Z.pos m) + e - 53) (-1074) /\ e <= 971.
Proof.
  unfold valid_binary, bounded, canonical_mantissa. rewrite fexp_eq.
  intros H. apply andb_true_iff in H. destruct H as [C B].
  apply Z.eqb_eq in C. apply Z.leb_le in B. change (emax - prec) with 971 in B.
  change (Z.pos (digits2_pos m)) with (Zdigits2 (Z.pos m)) in C.
  rewrite Zdigits2_log2 in C. split; [symmetry; exact C | exact B].
Qed.

Lemma units_pos m e : - G <= e -> 0 < units (Z.pos m) e.
Proof.
  intros. unfold units. apply Z.mul_pos_pos; [lia|]. apply pow2_pos. lia.
Qed.

Lemma digits_units m e :
  - G <= e -> digits (units (Z.pos m) e) = digits (Z.pos m) + e + G.
Proof. intros. unfold units. rewrite digits_shift by lia. lia. Qed.

Lemma SFleb_units m1 e1 m2 e2 :
  valid_binary (S754_finite false m1 e1) = true ->
  valid_binary (S754_finite false m2 e2) = true ->
  units (Z.pos m1) e1 <= units (Z.pos m2) e2 ->
  SFleb (S754_finite false m1 e1) (S754_finite false m2 e2) = true.
Proof.
  intros V1 V2 L.
  apply valid_finite in V1, V2. destruct V1 as [C1 _], V2 as [C2 _].
  assert (G1 : - G <= e1) by (unfold G; lia).
  assert (G2 : - G <= e2) by (unfold G; lia).
  pose proof (digits_mono _ _ (units_pos m1 e1 G1) L) as D.
  rewrite !digits_units in D by assumption.
  unfold SFleb, SFcompare.
  destruct (Z.compare_spec e1 e2) as [E|E|E]; try reflexivity; [|lia].
  subst e2. unfold units in L.
  assert (Z.pos m1 <= Z.pos m2).
  { apply Z.mul_le_mono_pos_r in L; [exact L|]. apply pow2_pos. lia. }
  rewrite Pos.compare_cont_spec.
  destruct (Pos.compare_spec m1 m2); try reflexivity. lia.
Qed.

(** *** The jitter: [c0 + (r - 0.5) * c1] for [0 <= r < 1] *)

Lemma unit_interval R :
  valid_binary R = true ->
  SFleb (S754_zero false) R = true ->
  SFltb R one_sf = true ->
  (exists s, R = S754_zero s)
  \/ (exists m e, R = S754_finite false m e
                  /\ -1074 <= e <= -53 /\ Z.pos m < 2 ^ 53).
Proof.
  intros V L U. destruct R as [s|s| |s m e]; try discriminate.
  - left. now exists s.
  - destruct s; discriminate.
  - right. destruct s; [discriminate|].
    exists m, e. split; [reflexivity|].
    destruct (valid_finite _ _ _ V) as [C _].
    pose proof (digits_bounds (Z.pos m) ltac:(lia)) as [Dl Du].
    assert (digits (Z.pos m) <= 53) by lia.
    assert (Z.pos m < 2 ^ 53).
    { assert (2 ^ digits (Z.pos m) <= 2 ^ 53) by (apply Z.pow_le_mono_r; lia).
      lia. }
    split; [|assumption]. split; [lia|].
    unfold SFltb, one_sf, SFcompare in U.
    destruct (Z.compare_spec e (-52)) as [E|E|E]; try discriminate; [|lia].
    subst e. exfalso.
    assert (D53 : digits (Z.pos m) = 53) by (clear - C H; lia).
    rewrite Pos.compare_cont_spec in U.
    destruct (Pos.compare_spec m 4503599627370496) as [Q|Q|Q];
      try discriminate U.
    rewrite D53 in Dl. change (2 ^ (53 - 1)) with 4503599627370496 in Dl.
    assert (Q' : Z.pos m < 4503599627370496) by exact Q.
    clear - Dl Q'. lia.
Qed.

Lemma round_units_half : round_units (2 ^ (G - 1)) = 2 ^ (G - 1).
Proof. vm_compute. reflexivity. Qed.

Lemma digits_le_bound p e bound :
  -1074 <= e -> units (Z.pos p) e <= bound -> bound < 2 ^ (G + 900) ->
  digits (Z.pos p) + e <= 1000.
Proof.
  intros Ge B Bb.
  assert (digits (units (Z.pos p) e) <= G + 900).
  { apply digits_lt; [apply units_pos; unfold G; lia | lia]. }
  rewrite digits_units in H by (unfold G; lia). unfold G in *. lia.
Qed.

Lemma binary_round_within s p e bound :
  -1074 <= e -> e <= 900 ->
  units (Z.pos p) e <= bound -> bound < 2 ^ (G + 900) ->
  within (round_units bound) (binary_round prec emax s p e).
Proof.
  intros Ge Le B Bb.
  pose proof (digits_le_bound p e bound Ge B Bb) as Dg.
  pose proof (binary_round_units s p e ltac:(unfold G; lia) Le Dg) as Q.
  destruct (binary_round prec emax s p e); try exact I; try contradiction.
  destruct Q as (_ & ? & Q). unfold within. rewrite Q. split; [lia|].
  apply round_units_mono; [apply units_pos; unfold G; lia | exact B].
Qed.

Lemma binary_normalize_within D e bound :
  -1074 <= e -> e <= 900 ->
  Z.abs D * 2 ^ (e + G) <= bound -> bound < 2 ^ (G + 900) ->
  within (round_units bound) (binary_normalize prec emax D e false).
Proof.
  intros Ge Le B Bb. unfold binary_normalize.
  destruct D as [|p|p]; [exact I| |]; apply binary_round_within; assumption.
Qed.

Lemma binary_round_aux_within s p e bound :
  - G <= e -> e <= 900 ->
  units (Z.pos p) e <= bound -> bound < 2 ^ (G + 900) ->
  within (round_units bound) (binary_round_aux prec emax s (Z.pos p) e loc_Exact).
Proof.
  intros Ge Le B Bb.
  assert (Dg : digits (Z.pos p) + e <= 1000).
  { assert (digits (units (Z.pos p) e) <= G + 900).
    { apply digits_lt; [apply units_pos; lia | lia]. }
    rewrite digits_units in H by lia. unfold G in *. lia. }
  pose proof (binary_round_aux_units s p e Ge Le Dg) as Q.
  destruct (binary_round_aux prec emax s (Z.pos p) e loc_Exact);
    try exact I; try contradiction.
  destruct Q as (_ & ? & Q). unfold within. rewrite Q. split; [lia|].
  apply round_units_mono; [apply units_pos; lia | exact B].
Qed.

Lemma units_half : units 4503599627370496 (-53) = 2 ^ (G - 1).
Proof. vm_compute. reflexivity. Qed.

Lemma abs_sub_scale a b P : 0 < P -> Z.abs (a - b) * P = Z.abs (a * P - b * P).
Proof. intros. rewrite <- Z.mul_sub_distr_r, Z.abs_mul, (Z.abs_eq P); lia. Qed.

(** [r - 0.5] has magnitude at most one half. *)
Lemma sub_half_within R :
  valid_binary R = true ->
  SFleb (S754_zero false) R = true ->
  SFltb R one_sf = true ->
  within (2 ^ (G - 1)) (SFsub prec emax R half_sf).
Proof.
  intros V L U.
  destruct (unit_interval R V L U) as [(s & ->)|(m & e & -> & Re & Rm)].
  - change (within (2 ^ (G - 1)) (S754_finite true 4503599627370496 (-53))).
    unfold within. rewrite units_half. split; lia.
  - unfold SFsub, half_sf. rewrite Z.min_l by lia.
    pose proof (shl_align_units m e e ltac:(unfold G; lia)) as A.
    pose proof (shl_align_units 4503599627370496 (-53) e ltac:(unfold G; lia)) as B.
    destruct (shl_align m e e) as [a ea].
    destruct (shl_align 4503599627370496 (-53) e) as [b eb].
    destruct A as [Ua Ea], B as [Ub Eb]. cbn [fst cond_Zopp].
    rewrite Z.min_id in Ea. rewrite Z.min_r in Eb by lia. subst ea eb.
    rewrite <- round_units_half.
    apply binary_normalize_within; try lia.
    + assert (P : 0 < 2 ^ (e + G)) by (apply pow2_pos; unfold G; lia).
      rewrite (abs_sub_scale _ _ _ P).
      unfold units in Ua, Ub. rewrite Ua, Ub.
      fold (units 4503599627370496 (-53)). rewrite units_half.
      assert (Z.pos m * 2 ^ (e + G) < 2 ^ G).
      { assert (Z.pos m * 2 ^ (e + G) < 2 ^ 53 * 2 ^ (e + G))
          by (apply Z.mul_lt_mono_pos_r; lia).
        rewrite <- Z.pow_add_r in H by (unfold G; lia).
        assert (2 ^ (53 + (e + G)) <= 2 ^ G)
          by (apply Z.pow_le_mono_r; unfold G; lia). lia. }
      assert (0 < Z.pos m * 2 ^ (e + G)) by lia.
      replace (2 ^ G) with (2 * 2 ^ (G - 1)) in H
        by (rewrite <- Z.pow_succ_r by (unfold G; lia); f_equal).
      lia.
    + apply Z.pow_lt_mono_r; unfold G; lia.
Qed.

(** [t * c1] for [t] of magnitude at most one half: at most half of [c1],
    rounded. *)
Lemma mul_within T mc ec :
  -126 <= ec <= 0 ->
  units (Z.pos mc) (ec - 1) < 2 ^ (G + 900) ->
  within (2 ^ (G - 1)) T ->
  within (round_units (units (Z.pos mc) (ec - 1)))
         (SFmul prec emax T (S754_finite false mc ec)).
Proof.
  intros Ec Bc W. destruct T as [s|s| |s m e]; try contradiction.
  - exact I.
  - destruct W as [Ge Um]. unfold SFmul.
    assert (P : 0 < 2 ^ (e + ec + G)) by (apply pow2_pos; unfold G; lia).
    assert (N : 0 < 2 ^ (- ec)) by (apply pow2_pos; lia).
    assert (S1 : 2 ^ (e + G) = 2 ^ (e + ec + G) * 2 ^ (- ec)).
    { rewrite <- Z.pow_add_r by (unfold G; lia). f_equal. lia. }
    assert (S2 : 2 ^ (G - 1) = 2 ^ (ec - 1 + G) * 2 ^ (- ec)).
    { rewrite <- Z.pow_add_r by (unfold G; lia). f_equal. lia. }
    assert (Mt : Z.pos m * 2 ^ (e + ec + G) <= 2 ^ (ec - 1 + G)).
    { unfold units in Um. rewrite S1, S2 in Um.
      rewrite Z.mul_assoc in Um. apply Z.mul_le_mono_pos_r in Um; assumption. }
    assert (E1 : e <= -1).
    { assert (Q : 0 < 2 ^ (ec - 1 + G)) by (apply pow2_pos; unfold G; lia).
      assert (2 ^ (e + ec + G) <= 2 ^ (ec - 1 + G)) by nia.
      apply Z.pow_le_mono_r_iff in H; unfold G in *; lia. }
    apply binary_round_aux_within; try (unfold G; lia); [|exact Bc].
    unfold units. rewrite Pos2Z.inj_mul.
    replace (Z.pos m * Z.pos mc * 2 ^ (e + ec + G))
      with (Z.pos mc * (Z.pos m * 2 ^ (e + ec + G))) by lia.
    apply Z.mul_le_mono_nonneg_l; [lia | exact Mt].
Qed.

(** [c0 + u] for [u] of magnitude at most [umax]. *)
Lemma add_within m0 e0 umax U :
  -1074 <= e0 <= 900 ->
  0 < umax < units (Z.pos m0) e0 ->
  units (Z.pos m0) e0 + umax < 2 ^ (G + 900) ->
  round_units (units (Z.pos m0) e0) = units (Z.pos m0) e0 ->
  0 < round_units (units (Z.pos m0) e0 - umax) ->
  within umax U ->
  match SFadd prec emax (S754_finite false m0 e0) U with
  | S754_finite false m e =>
      -1074 <= e
      /\ round_units (units (Z.pos m0) e0 - umax) <= units (Z.pos m) e
         <= round_units (units (Z.pos m0) e0 + umax)
  | _ => False
  end.
Proof.
  intros E0 Um Hi C0 Pos W.
  set (c := units (Z.pos m0) e0) in *.
  assert (Lo1 : round_units (c - umax) <= c)
    by (rewrite <- C0 at 2; apply round_units_mono; lia).
  assert (Hi1 : c <= round_units (c + umax))
    by (rewrite <- C0 at 1; apply round_units_mono; lia).
  destruct U as [s|s| |s m e]; try contradiction.
  - unfold SFadd. fold c. lia.
  - destruct W as [Ge Uu]. unfold SFadd.
    set (ez := Z.min e0 e).
    pose proof (shl_align_units m0 e0 ez ltac:(unfold G, ez; lia)) as A.
    pose proof (shl_align_units m e ez ltac:(unfold G, ez; lia)) as B.
    destruct (shl_align m0 e0 ez) as [a ea]. destruct (shl_align m e ez) as [b eb].
    destruct A as [Ua Ea], B as [Ub Eb]. cbn [fst].
    assert (Ea' : ea = ez) by (unfold ez in *; lia).
    assert (Eb' : eb = ez) by (unfold ez in *; lia).
    clear Ea Eb. subst ea eb.
    fold c in Ua. unfold units in Ua, Ub.
    assert (P : 0 < 2 ^ (ez + G)) by (apply pow2_pos; unfold G, ez; lia).
    set (S := cond_Zopp false (Z.pos a) + cond_Zopp s (Z.pos b)).
    assert (Sv : c - umax <= S * 2 ^ (ez + G) <= c + umax).
    { unfold S. unfold units in Uu.
      assert (0 < Z.pos b * 2 ^ (ez + G)) by (apply Z.mul_pos_pos; lia).
      destruct s; cbn [cond_Zopp];
        rewrite Z.mul_add_distr_r, ?Z.mul_opp_l, Ua, Ub; lia. }
    assert (Sp : 0 < S) by nia.
    destruct S as [|p|p] eqn:ES; try lia.
    unfold binary_normalize.
    assert (Dg : digits (Z.pos p) + ez <= 1000).
    { apply (digits_le_bound p ez (c + umax));
        [unfold ez; lia | unfold units; lia | exact Hi]. }
    assert (Ez1 : - G <= ez) by (unfold G, ez; lia).
    assert (Ez2 : ez <= 900) by (unfold ez; lia).
    pose proof (binary_round_units false p ez Ez1 Ez2 Dg) as Q.
    assert (Mn : round_units (c - umax) <= round_units (units (Z.pos p) ez))
      by (apply round_units_mono; unfold units; lia).
    assert (Mx : round_units (units (Z.pos p) ez) <= round_units (c + umax))
      by (apply round_units_mono; [apply units_pos; exact Ez1
                                  | unfold units; lia]).
    destruct (binary_round prec emax false p ez) as [s'|s'| |s' m3 e3];
      try contradiction.
    + destruct Q as [_ Q]. lia.
    + destruct Q as (-> & Q1 & Q2). rewrite Q2. split; lia.
Qed.

Lemma jitter_bounds (c0 c1 lo hi r : float)
  (m0 : positive) (e0 : Z) (mc : positive) (ec : Z)
  (ml : positive) (el : Z) (mh : positive) (eh : Z) :
  Prim2SF c0 = S754_finite false m0 e0 ->
  Prim2SF c1 = S754_finite false mc ec ->
  Prim2SF lo = S754_finite false ml el ->
  Prim2SF hi = S754_finite false mh eh ->
  jitter_constants m0 e0 mc ec ml el mh eh ->
  (0 <=? r)%float = true -> (r <? 1)%float = true ->
  (lo <=? jitter c0 c1 r)%float = true
  /\ (jitter c0 c1 r <=? hi)%float = true
  /\ exists m e, Prim2SF (jitter c0 c1 r) = S754_finite false m e.
Proof.
  intros E0 E1 El Eh K R0 R1.
  unfold jitter_constants in K. cbv zeta in K.
  repeat (apply andb_true_iff in K; destruct K as [K ?]).
  repeat match goal with
         | H : (_ <=? _) = true |- _ => apply Z.leb_le in H
         | H : (_ <? _) = true |- _ => apply Z.ltb_lt in H
         | H : (_ =? _) = true |- _ => apply Z.eqb_eq in H
         end.
  set (umax := round_units (units (Z.pos mc) (ec - 1))) in *.
  set (c := units (Z.pos m0) e0) in *.
  rewrite leb_spec in R0. rewrite ltb_spec in R1.
  change (Prim2SF 0) with (S754_zero false) in R0.
  change (Prim2SF 1) with one_sf in R1.
  pose proof (sub_half_within (Prim2SF r) (Prim2SF_valid r) R0 R1) as W1.
  assert (W2 : within umax (SFmul prec emax (SFsub prec emax (Prim2SF r) half_sf)
                                    (S754_finite false mc ec)))
    by (apply mul_within; [lia | assumption | exact W1]).
  assert (W3 := add_within m0 e0 umax _ ltac:(lia) ltac:(fold c; lia)
                  ltac:(fold c; lia) ltac:(fold c; lia) ltac:(fold c; lia) W2).
  fold c in W3.
  pose proof (Prim2SF_valid (jitter c0 c1 r)) as V.
  pose proof (Prim2SF_valid lo) as Vl. pose proof (Prim2SF_valid hi) as Vh.
  rewrite !leb_spec. rewrite El, Eh in *.
  unfold jitter in *. rewrite add_spec, mul_spec, sub_spec, E0, E1 in *.
  change (Prim2SF 0.5) with half_sf in *.
  unfold SF64add, SF64mul, SF64sub in *.
  destruct (SFadd prec emax _ _) as [s|s| |s m e]; try contradiction.
  destruct s; [contradiction|]. destruct W3 as (Ge & Lo & Hi).
  split; [|split].
  - apply SFleb_units; try assumption. lia.
  - apply SFleb_units; try assumption. lia.
  - now exists m, e.
Qed.

End RoundingFacts.

(** ** The synthesized token *)

Module JitterClaims.
Import JS Dashboard Rounding RoundingFacts.
Local Open Scope float_scope.

Lemma air_price_jitter r :
  (0 <=? r) = true -> (r <? 1) = true ->
  (0.00676 - 0.000025 <=? jitter 0.00676 0.00005 r) = true
  /\ (jitter 0.00676 0.00005 r <=? 0.00676 + 0.000025) = true
  /\ exists m e, Prim2SF (jitter 0.00676 0.00005 r) = S754_finite false m e.
Proof.
  apply (jitter_bounds 0.00676 0.00005 (0.00676 - 0.000025) (0.00676 + 0.000025)
           r 7793749371142286 (-60) 7378697629483821 (-67)
           7764926333527115 (-60) 7822572408757457 (-60));
    [reflexivity | reflexivity | reflexivity | reflexivity
    | vm_compute; reflexivity].
Qed.

Lemma air_change_jitter r :
  (0 <=? r) = true -> (r <? 1) = true ->
  (1.8 - 1.5 <=? jitter 1.8 3 r) = true
  /\ (jitter 1.8 3 r <=? 1.8 + 1.5) = true
  /\ exists m e, Prim2SF (jitter 1.8 3 r) = S754_finite false m e.
Proof.
  apply (jitter_bounds 1.8 3 (1.8 - 1.5) (1.8 + 1.5)
           r 8106479329266893 (-52) 6755399441055744 (-51)
           5404319552844596 (-54) 7430939385161318 (-51));
    [reflexivity | reflexivity | reflexivity | reflexivity
    | vm_compute; reflexivity].
Qed.

Lemma safeNumber_jitter c0 c1 r fallback m e :
  Prim2SF (jitter c0 c1 r) = S754_finite false m e ->
  safeNumber (Num (c0 + (r - 0.5) * c1)) fallback = jitter c0 c1 r
  /\ (0 <? jitter c0 c1 r) = true.
Proof.
  intros E. split.
  - rewrite NumericClaims.safeNumber_finite. simpl Number.
    change (c0 + (r - 0.5) * c1) with (jitter c0 c1 r).
    now rewrite (FormatFacts.finite_isFinite _ _ _ _ E).
  - rewrite ltb_spec, E. reflexivity.
Qed.

(** C10 (amended). For random numbers in [0,1), the price of the synthesized
    token lies between the doubles [0.00676 - 0.000025] and
    [0.00676 + 0.000025], and its change between [1.8 - 1.5] and [1.8 + 1.5],
    ends included; the price is greater than zero. *)
Theorem air_token_bounds (random1 random2 : number) :
  (0 <=? random1) = true -> (random1 <? 1) = true ->
  (0 <=? random2) = true -> (random2 <? 1) = true ->
  let air := airTokenData random1 random2 in
  (0.00676 - 0.000025 <=? TokenData.price air) = true
  /\ (TokenData.price air <=? 0.00676 + 0.000025) = true
  /\ (1.8 - 1.5 <=? TokenData.change24h air) = true
  /\ (TokenData.change24h air <=? 1.8 + 1.5) = true
  /\ (0 <? TokenData.price air) = true.
Proof.
  intros P0 P1 C0 C1. unfold airTokenData. cbn [TokenData.price TokenData.change24h].
  destruct (air_price_jitter random1 P0 P1) as (Pl & Ph & mp & ep & Ep).
  destruct (air_change_jitter random2 C0 C1) as (Cl & Ch & mc & ec & Ec).
  destruct (safeNumber_jitter 0.00676 0.00005 random1 0.00676 mp ep Ep) as [-> Pp].
  destruct (safeNumber_jitter 1.8 3 random2 1.8 mc ec Ec) as [-> _].
  auto.
Qed.

Lemma air_token_bounds_witness :
  ((0 <=? 0.25) = true /\ (0.25 <? 1) = true
   /\ (0 <=? 0.75) = true /\ (0.75 <? 1) = true)
  /\ (0.00676 - 0.000025 <=? TokenData.price (airTokenData 0.25 0.75)) = true
  /\ (TokenData.price (airTokenData 0.25 0.75) <=? 0.00676 + 0.000025) = true
  /\ (1.8 - 1.5 <=? TokenData.change24h (airTokenData 0.25 0.75)) = true
  /\ (TokenData.change24h (airTokenData 0.25 0.75) <=? 1.8 + 1.5) = true
  /\ (0 <? TokenData.price (airTokenData 0.25 0.75)) = true.
Proof.
  split; [repeat split|].
  apply (air_token_bounds 0.25 0.75); reflexivity.
Defined.

(** For a random number just below 1 the price is the upper end itself: not
    below the double [0.00676 + 0.000025], and above the decimal 0.006785. *)
Lemma air_token_bounds_counterexample :
  (0 <=? 0.9999999999999998) = true
  /\ (0.9999999999999998 <? 1) = true
  /\ (TokenData.price (airTokenData 0.9999999999999998 0.9999999999999998)
      <? 0.00676 + 0.000025) = false
  /\ Prim2SF (TokenData.price
                (airTokenData 0.9999999999999998 0.9999999999999998))
     = S754_finite false 7822572408757457 (-60)
  /\ (6785 * 2 ^ 60 < 7822572408757457 * 1000000)%Z.
Proof. repeat split. Qed.

(** The ends are reached: the lower one at 0, the upper ones just below 1. *)
Example air_token_ends :
  TokenData.price (airTokenData 0 0) = 0.00676 - 0.000025
  /\ TokenData.change24h (airTokenData 0 0) = 1.8 - 1.5
  /\ TokenData.price (airTokenData 0.99999999999999989 0.99999999999999989)
     = 0.00676 + 0.000025
  /\ TokenData.change24h (airTokenData 0.99999999999999989 0.99999999999999989)
     = 1.8 + 1.5.
Proof. repeat split. Qed.

End JitterClaims.

(** * Further properties *)

(** ** Order of numbers *)

Module OrderFacts.
Import JS.

Ltac order_cases :=
  repeat match goal with
         | H : context [Z.compare ?a ?b] |- _ =>
             destruct (Z.compare_spec a b); try discriminate
         | |- context [Z.compare ?a ?b] =>
             destruct (Z.compare_spec a b); try reflexivity
         | H : context [Pos.compare_cont Eq ?a ?b] |- _ =>
             change (Pos.compare_cont Eq a b) with (Pos.compare a b) in H;
             destruct (Pos.compare_spec a b); try discriminate
         | |- context [Pos.compare_cont Eq ?a ?b] =>
             change (Pos.compare_cont Eq a b) with (Pos.compare a b);
             destruct (Pos.compare_spec a b); try reflexivity
         end.

(** [a <= b] and [b < c] leave no room for [c <= a]. *)
Lemma SFleb_SFltb_trans a b c :
  SFleb a b = true -> SFltb b c = true -> SFleb c a = false.
Proof.
  unfold SFleb, SFltb.
  destruct a as [sa|sa| |sa ma ea], b as [sb|sb| |sb mb eb],
    c as [sc|sc| |sc mc ec];
    try (destruct sa); try (destruct sb); try (destruct sc);
    simpl; try discriminate; try reflexivity;
    intros H1 H2; order_cases; subst; try lia; try discriminate.
Qed.

Lemma leb_ltb_trans (x h t : number) :
  (x <=? h)%float = true -> (h <? t)%float = true -> (t <=? x)%float = false.
Proof. rewrite !leb_spec, ltb_spec. apply SFleb_SFltb_trans. Qed.

Lemma SFltb_SFleb_trans a b c :
  SFltb a b = true -> SFleb b c = true -> SFleb c a = false.
Proof.
  unfold SFleb, SFltb.
  destruct a as [sa|sa| |sa ma ea], b as [sb|sb| |sb mb eb],
    c as [sc|sc| |sc mc ec];
    try (destruct sa); try (destruct sb); try (destruct sc);
    simpl; try discriminate; try reflexivity;
    intros H1 H2; order_cases; subst; try lia; try discriminate.
Qed.

Lemma ltb_leb_trans (t l x : number) :
  (t <? l)%float = true -> (l <=? x)%float = true -> (x <=? t)%float = false.
Proof. rewrite !leb_spec, ltb_spec. apply SFltb_SFleb_trans. Qed.

End OrderFacts.

(** ** The fetch cycle, in closed form *)

Module CycleFacts.
Import JS Dashboard Cycle EvaluatorFacts FormatFacts.
Local Open Scope list_scope.

Lemma hit_by_deactivated l cs x :
  hit_by l cs (PriceAlert.deactivated x) = hit_by l cs x.
Proof. reflexivity. Qed.

Lemma evaluations_alerts permission l cs w :
  alerts (state (evaluations permission l cs w))
  = map (fun x => if hit_by l cs x then PriceAlert.deactivated x else x)
        (alerts (state w)).
Proof.
  revert w. induction cs as [|c cs IH]; intros w.
  - simpl. symmetry. apply map_id.
  - unfold evaluations in *. simpl fold_left. rewrite IH, checkPriceAlerts_alerts.
    rewrite map_map. apply map_ext. intros x. unfold hit_by. simpl existsb.
    destruct (hit (fst c) (snd c) l x) eqn:H; simpl.
    + destruct (existsb _ cs); reflexivity.
    + reflexivity.
Qed.

Lemma evaluations_notifications permission l cs w :
  notifications (evaluations permission l cs w)
  = notifications w
    ++ match permission with
       | granted => fired l cs
       | _ => []
       end.
Proof.
  revert w. induction cs as [|c cs IH]; intros w.
  - simpl. destruct permission; now rewrite app_nil_r.
  - unfold evaluations in *. simpl fold_left.
    rewrite IH, checkPriceAlerts_notifications.
    destruct permission; simpl; rewrite <- ?app_assoc; reflexivity.
Qed.

Lemma evaluations_frame permission l cs w :
  let w' := evaluations permission l cs w in
  tokens (state w') = tokens (state w)
  /\ airToken (state w') = airToken (state w)
  /\ loading (state w') = loading (state w)
  /\ showAlertModal (state w') = showAlertModal (state w)
  /\ console w' = console w.
Proof.
  revert w. induction cs as [|c cs IH]; intros w; simpl; auto.
  specialize (IH (checkPriceAlerts permission l (fst c) (snd c) w)).
  simpl in IH.
  pose proof (checkPriceAlerts_frame permission l (fst c) (snd c) w) as F.
  simpl in F. unfold evaluations in *. simpl fold_left.
  destruct IH as (-> & -> & -> & -> & ->). exact F.
Qed.

Lemma fold_calls permission l (toks : list TokenData.t) w :
  fold_left (fun w token =>
               checkPriceAlerts permission l
                 (TokenData.price token) (TokenData.symbol token) w)
            toks w
  = evaluations permission l
      (map (fun t => (TokenData.price t, TokenData.symbol t)) toks) w.
Proof.
  revert w. induction toks as [|t toks IH]; intros w; [reflexivity|].
  simpl. apply IH.
Qed.

(** A successful cycle: the evaluator calls, then the three setters. *)
Lemma fetchCryptoData_success permission l data random1 random2 w toks :
  cryptoTokens data = Some toks ->
  fetchCryptoData permission l (Response true (Some data)) random1 random2 w
  = setLoading false
      (setAirToken (Some (airTokenData random1 random2))
         (setTokens toks
            (evaluations permission l
               (calls (airTokenData random1 random2) toks) w))).
Proof.
  intros E. unfold fetchCryptoData. rewrite E. cbv zeta.
  rewrite fold_calls. reflexivity.
Qed.

Lemma failed_none result :
  failed result = None ->
  exists data toks, result = Response true (Some data)
                    /\ cryptoTokens data = Some toks.
Proof.
  destruct result as [|[|] [data|]]; simpl; try discriminate.
  destruct (cryptoTokens data) as [toks|] eqn:E; [|discriminate].
  intros _. now exists data, toks.
Qed.

Lemma failed_some permission l result random1 random2 w e :
  failed result = Some e ->
  fetchCryptoData permission l result random1 random2 w = catch e w.
Proof.
  unfold failed, fetchCryptoData.
  destruct result as [|[|] [data|]]; try (intros [= <-]; reflexivity).
  destruct (cryptoTokens data); [discriminate|]. now intros [= <-].
Qed.

Lemma safeNumber_isFinite v fallback :
  isFinite (safeNumber v fallback)
  = isFinite (Number v) || isFinite fallback.
Proof.
  rewrite NumericClaims.safeNumber_finite.
  destruct (isFinite (Number v)) eqn:E; simpl; auto.
Qed.

Lemma coin_token_fields data coin sym name fallback t :
  coin_token data coin sym name fallback = Some t ->
  isFinite fallback = true ->
  TokenData.symbol t = sym
  /\ TokenData.name t = name
  /\ TokenData.contract t = None
  /\ isFinite (TokenData.price t) = true
  /\ isFinite (TokenData.change24h t) = true.
Proof.
  unfold coin_token, safeNumber_any.
  destruct (get data coin) as [entry|]; [|discriminate].
  destruct (ToPrimitive (get_optional entry "usd")) as [v1|]; [|discriminate].
  destruct (ToPrimitive (get_optional entry "usd_24h_change")) as [v2|];
    [|discriminate].
  intros [= <-] F. simpl. rewrite !safeNumber_isFinite, F.
  rewrite !orb_true_r. auto.
Qed.

Lemma cryptoTokens_fields data toks :
  cryptoTokens data = Some toks ->
  map TokenData.symbol toks = ["ETH"; "BTC"; "USDC"; "LINK"; "UNI"]
  /\ map TokenData.name toks
     = ["Ethereum"; "Bitcoin"; "USD Coin"; "Chainlink"; "Uniswap"]
  /\ Forall (fun t => TokenData.contract t = None
                      /\ isFinite (TokenData.price t) = true
                      /\ isFinite (TokenData.change24h t) = true) toks.
Proof.
  unfold cryptoTokens.
  destruct (coin_token data "ethereum" _ _ _) as [t1|] eqn:E1; [|discriminate].
  destruct (coin_token data "bitcoin" _ _ _) as [t2|] eqn:E2; [|discriminate].
  destruct (coin_token data "usd-coin" _ _ _) as [t3|] eqn:E3; [|discriminate].
  destruct (coin_token data "chainlink" _ _ _) as [t4|] eqn:E4; [|discriminate].
  destruct (coin_token data "uniswap" _ _ _) as [t5|] eqn:E5; [|discriminate].
  intros [= <-].
  apply coin_token_fields in E1, E2, E3, E4, E5; try reflexivity.
  cbn [map].
  destruct E1 as (-> & -> & ? & ? & ?), E2 as (-> & -> & ? & ? & ?),
    E3 as (-> & -> & ? & ? & ?), E4 as (-> & -> & ? & ? & ?),
    E5 as (-> & -> & ? & ? & ?).
  repeat split; repeat constructor; auto.
Qed.

Lemma airTokenData_fields random1 random2 :
  let air := airTokenData random1 random2 in
  TokenData.symbol air = "AIR"
  /\ TokenData.name air = "AIR Token"
  /\ TokenData.contract air = Some "0x8164b40840418c77a68f6f9eedb5202b36d8b288"
  /\ isFinite (TokenData.price air) = true
  /\ isFinite (TokenData.change24h air) = true.
Proof.
  simpl. rewrite !safeNumber_isFinite.
  replace (isFinite 0.00676%float) with true by reflexivity.
  replace (isFinite 1.8%float) with true by reflexivity.
  rewrite !orb_true_r. auto.
Qed.

(** The alert cell after a cycle, in closed form. *)
Lemma fetchCryptoData_alerts permission l result random1 random2 w :
  alerts (state (fetchCryptoData permission l result random1 random2 w))
  = map (fun x => if deactivates l result random1 random2 x
                  then PriceAlert.deactivated x else x)
        (alerts (state w)).
Proof.
  destruct (failed result) as [e|] eqn:F.
  - rewrite (failed_some _ _ _ _ _ _ _ F). simpl.
    assert (D : forall x, deactivates l result random1 random2 x = false).
    { intros x. unfold deactivates, failed in *.
      destruct result as [|[|] [data|]]; try reflexivity.
      destruct (cryptoTokens data); [discriminate | reflexivity]. }
    rewrite (map_ext _ (fun x => x)); [now rewrite map_id|].
    intros x. now rewrite D.
  - destruct (failed_none _ F) as (data & toks & -> & E).
    rewrite (fetchCryptoData_success _ _ _ _ _ _ _ E).
    unfold setLoading, setAirToken, setTokens. cbn [state alerts].
    rewrite evaluations_alerts. unfold deactivates. rewrite E. reflexivity.
Qed.

Lemma fetchCryptoData_notifications permission l data random1 random2 w toks :
  cryptoTokens data = Some toks ->
  notifications
    (fetchCryptoData permission l (Response true (Some data)) random1 random2 w)
  = notifications w
    ++ match permission with
       | granted => fired l (calls (airTokenData random1 random2) toks)
       | _ => []
       end.
Proof.
  intros E. rewrite (fetchCryptoData_success _ _ _ _ _ _ _ E).
  unfold setLoading, setAirToken, setTokens. cbn [notifications].
  apply evaluations_notifications.
Qed.

Lemma only_deactivates_map (f : PriceAlert.t -> bool) l :
  Forall2 (fun before now => now = before \/ now = PriceAlert.deactivated before)
          l (map (fun x => if f x then PriceAlert.deactivated x else x) l).
Proof.
  induction l as [|x l IH]; simpl; constructor; auto.
  destruct (f x); auto.
Qed.

Lemma only_deactivates_trans l1 l2 l3 :
  Forall2 (fun before now => now = before \/ now = PriceAlert.deactivated before)
          l1 l2 ->
  Forall2 (fun before now => now = before \/ now = PriceAlert.deactivated before)
          l2 l3 ->
  Forall2 (fun before now => now = before \/ now = PriceAlert.deactivated before)
          l1 l3.
Proof.
  intros F. revert l3. induction F as [|x y l1 l2 R F IH]; intros l3 G.
  - inversion G. constructor.
  - inversion G as [|? z ? l3' R' G']; subst. constructor; [|now apply IH].
    destruct R as [->| ->], R' as [->| ->]; auto.
Qed.

Lemma only_deactivates_settings l1 l2 :
  Forall2 (fun before now => now = before \/ now = PriceAlert.deactivated before)
          l1 l2 ->
  map settings l2 = map settings l1
  /\ (List.length (filter PriceAlert.isActive l2)
      <= List.length (filter PriceAlert.isActive l1))%nat.
Proof.
  induction 1 as [|x y l1 l2 R F [IH1 IH2]]; simpl; [auto|].
  split.
  - f_equal; [|exact IH1]. destruct R as [->| ->]; reflexivity.
  - destruct R as [->| ->]; simpl.
    + destruct (PriceAlert.isActive x); simpl; lia.
    + destruct (PriceAlert.isActive x); simpl; lia.
Qed.

End CycleFacts.

(** ** Texts of numbers *)

Module TextFacts.
Import JS Dashboard View Text FormatFacts.

Lemma all_chars_append p s t :
  all_chars p (s ++ t) = all_chars p s && all_chars p t.
Proof.
  induction s as [|c s IH]; simpl; [reflexivity|].
  now rewrite IH, andb_assoc.
Qed.

Lemma all_chars_substring p s i j :
  all_chars p s = true -> all_chars p (substring i j s) = true.
Proof.
  revert i j. induction s as [|c s IH]; intros [|i] [|j]; simpl; auto;
    intros H; apply andb_true_iff in H; destruct H as [H1 H2]; auto.
  rewrite H1. simpl. now apply IH.
Qed.

Lemma all_chars_impl (p q : ascii -> bool) s :
  (forall c, p c = true -> q c = true) ->
  all_chars p s = true -> all_chars q s = true.
Proof.
  intros I. induction s as [|c s IH]; simpl; auto.
  intros H. apply andb_true_iff in H. destruct H as [H1 H2].
  now rewrite (I c H1), IH.
Qed.

Lemma all_chars_zeros k : all_chars is_digit (zeros k) = true.
Proof. induction k; simpl; auto. Qed.

Lemma all_chars_decimal_digits n : all_chars is_digit (decimal_digits n) = true.
Proof.
  unfold decimal_digits. induction (N.to_uint n); simpl; auto.
Qed.

Lemma decimal_digits_nonempty n : decimal_digits n <> "".
Proof.
  intros E. pose proof (digits_value_decimal_digits n) as V.
  rewrite E in V. injection V as <-. discriminate.
Qed.

Lemma first_char_decimal_digits n : first_char is_digit (decimal_digits n) = true.
Proof.
  pose proof (all_chars_decimal_digits n) as A.
  pose proof (decimal_digits_nonempty n) as N.
  destruct (decimal_digits n) as [|c s]; [congruence|].
  simpl in *. apply andb_true_iff in A. tauto.
Qed.

Lemma first_char_append p s t :
  first_char p s = true -> first_char p (s ++ t) = true.
Proof. destruct s; simpl; [discriminate | auto]. Qed.

Lemma first_char_substring p s j :
  first_char p s = true -> first_char p (substring 0 (S j) s) = true.
Proof. destruct s; simpl; [discriminate | auto]. Qed.

Lemma digit_numeral c : is_digit c = true -> numeral_char c = true.
Proof. unfold numeral_char. now intros ->. Qed.

Lemma digit_sign c : is_digit c = true -> sign_or_digit c = true.
Proof. unfold sign_or_digit. now intros ->. Qed.

Lemma first_char_impl (p q : ascii -> bool) s :
  (forall c, p c = true -> q c = true) ->
  first_char p s = true -> first_char q s = true.
Proof. intros I. destruct s; simpl; auto. Qed.

Lemma fixed_digits_chars n f :
  all_chars numeral_char (fixed_digits n f) = true
  /\ first_char is_digit (fixed_digits n f) = true.
Proof.
  pose proof (all_chars_decimal_digits n) as A.
  pose proof (first_char_decimal_digits n) as B.
  unfold fixed_digits. destruct (Nat.eqb f 0).
  - split; [|exact B]. revert A. apply all_chars_impl, digit_numeral.
  - set (m := if (String.length (decimal_digits n) <=? f)%nat
              then zeros (f + 1 - String.length (decimal_digits n))
                   ++ decimal_digits n
              else decimal_digits n).
    assert (L : (f < String.length m)%nat).
    { unfold m. destruct (Nat.leb_spec (String.length (decimal_digits n)) f).
      - rewrite length_append, length_zeros. lia.
      - lia. }
    assert (Am : all_chars is_digit m = true).
    { unfold m. destruct (String.length (decimal_digits n) <=? f)%nat; auto.
      now rewrite all_chars_append, all_chars_zeros, A. }
    assert (Bm : first_char is_digit m = true).
    { unfold m. destruct (Nat.leb_spec (String.length (decimal_digits n)) f); auto.
      apply first_char_append.
      replace (f + 1 - String.length (decimal_digits n))%nat
        with (S (f - String.length (decimal_digits n))) by lia.
      reflexivity. }
    apply (all_chars_impl _ _ _ digit_numeral) in Am.
    split.
    + rewrite !all_chars_append, !all_chars_substring by exact Am. reflexivity.
    + apply first_char_append.
      replace (String.length m - f)%nat with (S (String.length m - f - 1)) by lia.
      now apply first_char_substring.
Qed.

Lemma layout_digits_chars ds n :
  all_chars is_digit ds = true ->
  first_char is_digit ds = true ->
  all_chars numeral_char (layout_digits ds n) = true
  /\ first_char is_digit (layout_digits ds n) = true.
Proof.
  intros A B.
  pose proof (all_chars_impl _ _ _ digit_numeral A) as A'.
  unfold layout_digits, substring_from.
  destruct ((Z.of_nat (String.length ds) <=? n) && (n <=? 21))%Z.
  { split.
    - rewrite all_chars_append, A'.
      apply (all_chars_impl _ _ _ digit_numeral), all_chars_zeros.
    - now apply first_char_append. }
  destruct ((0 <? n) && (n <=? 21))%Z eqn:C.
  { apply andb_true_iff in C. destruct C as [C _]. apply Z.ltb_lt in C.
    split.
    - rewrite !all_chars_append, !all_chars_substring by exact A'. reflexivity.
    - apply first_char_append.
      replace (Z.to_nat n) with (S (Z.to_nat n - 1)) by lia.
      now apply first_char_substring. }
  destruct ((-6 <? n) && (n <=? 0))%Z.
  { split; [|reflexivity].
    rewrite !all_chars_append, A'.
    rewrite (all_chars_impl _ _ _ digit_numeral (all_chars_zeros _)).
    reflexivity. }
  assert (M : all_chars numeral_char
                (if (Z.of_nat (String.length ds) =? 1)%Z then ds
                 else substring 0 1 ds ++ "." ++ substring 1 (String.length ds - 1) ds)
              = true
              /\ first_char is_digit
                   (if (Z.of_nat (String.length ds) =? 1)%Z then ds
                    else substring 0 1 ds ++ "."
                         ++ substring 1 (String.length ds - 1) ds)
                 = true).
  { destruct (Z.of_nat (String.length ds) =? 1)%Z; [auto|]. split.
    - rewrite !all_chars_append, !all_chars_substring by exact A'. reflexivity.
    - apply first_char_append. now apply first_char_substring. }
  destruct M as [M1 M2]. split.
  - rewrite !all_chars_append, M1.
    rewrite (all_chars_impl _ _ _ digit_numeral (all_chars_decimal_digits _)).
    destruct (n - 1 <? 0)%Z; reflexivity.
  - now apply first_char_append.
Qed.

Lemma NumberToString_chars x m e :
  Prim2SF x = S754_finite false m e ->
  all_chars numeral_char (NumberToString x) = true
  /\ first_char is_digit (NumberToString x) = true.
Proof.
  intros E. unfold NumberToString. rewrite E.
  destruct (shortest_digits 17 1 (decimal_exponent m e) m e) as [d e10].
  destruct (strip_zeros 20 d e10) as [d' e10'].
  apply layout_digits_chars.
  - apply all_chars_decimal_digits.
  - apply first_char_decimal_digits.
Qed.

(** A number that is finite is a zero or has a mantissa and an exponent. *)
Lemma isFinite_cases x :
  isFinite x = true ->
  (exists s, Prim2SF x = S754_zero s)
  \/ (exists s m e, Prim2SF x = S754_finite s m e).
Proof.
  unfold isFinite, is_finite, is_nan, is_infinity.
  rewrite !eqb_spec, abs_spec.
  destruct (Prim2SF x) as [s|s| |s m e]; eauto; intros H; exfalso.
  - destruct s; vm_compute in H; discriminate.
  - vm_compute in H. discriminate.
Qed.

Lemma not_finite_cases x :
  isFinite x = false ->
  Prim2SF x = S754_nan \/ exists s, Prim2SF x = S754_infinity s.
Proof.
  intros F. destruct (Prim2SF x) as [s|s| |s m e] eqn:E; eauto.
  - rewrite (zero_isFinite x s E) in F. discriminate.
  - rewrite (finite_isFinite x s m e E) in F. discriminate.
Qed.

Lemma toFixed_chars x f :
  isFinite x = true ->
  all_chars numeral_char (toFixed x f) = true
  /\ first_char sign_or_digit (toFixed x f) = true.
Proof.
  intros F. unfold toFixed.
  destruct (isFinite_cases x F) as [(s & E)|(s & m & e & E)]; rewrite E.
  - destruct (fixed_digits_chars 0 f) as [A B]. split; [exact A|].
    revert B. apply first_char_impl, digit_sign.
  - assert (T : all_chars numeral_char
                  (match scaled_compare m e (10 ^ 21) 0 with
                   | Lt => fixed_digits
                             (Z.to_N (scaled_round m e (- Z.of_nat f))) f
                   | _ => NumberToString (abs x)
                   end) = true
                /\ first_char is_digit
                     (match scaled_compare m e (10 ^ 21) 0 with
                      | Lt => fixed_digits
                                (Z.to_N (scaled_round m e (- Z.of_nat f))) f
                      | _ => NumberToString (abs x)
                      end) = true).
    { assert (Ea : Prim2SF (abs x) = S754_finite false m e)
        by (now rewrite abs_spec, E).
      pose proof (NumberToString_chars (abs x) m e Ea) as Nc.
      destruct (scaled_compare m e (10 ^ 21) 0);
        auto using fixed_digits_chars. }
    destruct T as [T1 T2]. destruct s.
    + split; [|reflexivity]. rewrite all_chars_append, T1. reflexivity.
    + split; [exact T1|]. revert T2. apply first_char_impl, digit_sign.
Qed.

Lemma safeNumber_of_finite x fallback :
  isFinite x = true -> safeNumber (Num x) fallback = x.
Proof.
  intros F. rewrite NumericClaims.safeNumber_finite. simpl. now rewrite F.
Qed.

Lemma safeNumber_not_finite x fallback :
  isFinite x = false -> safeNumber (Num x) fallback = fallback.
Proof.
  intros F. rewrite NumericClaims.safeNumber_finite. simpl. now rewrite F.
Qed.

Lemma safeNumber_zero_finite v : isFinite (safeNumber v zero) = true.
Proof.
  rewrite NumericClaims.safeNumber_finite.
  destruct (isFinite (Number v)) eqn:E; [exact E | reflexivity].
Qed.

(** The text of a change starts with a plus sign exactly when the change
    counts as a gain. *)
Lemma plus_sign_trending change24h :
  prefix "+" (formatChange (Num change24h)) = trending_up change24h.
Proof.
  unfold formatChange, trending_up.
  pose proof (toFixed_chars (safeNumber (Num change24h) zero) 2
                (safeNumber_zero_finite _)) as [_ B].
  destruct (toFixed (safeNumber (Num change24h) zero) 2) as [|c t];
    [discriminate|].
  destruct (gt (safeNumber (Num change24h) zero) zero); simpl.
  - now destruct t.
  - simpl in B. unfold sign_or_digit, is_digit in B.
    destruct (Ascii.eqb_spec c "+") as [->|N].
    + discriminate.
    + destruct c as [[] [] [] [] [] [] [] []]; try reflexivity.
      now elim N.
Qed.

End TextFacts.

(** ** Coercion of values to numbers *)

Module CoercionFacts.
Import JS Dashboard Text Coercion FormatFacts TextFacts.

(** Induction on a value through the elements of its arrays. *)
Lemma any_elements (P : any -> Prop) :
  (forall v, P (Prim v)) ->
  (forall l, Forall P l -> P (Arr l)) ->
  (forall ps, P (Obj ps)) ->
  forall a, P a.
Proof.
  intros HP HA HO.
  fix IH 1. intros [v|l|ps]; [apply HP | | apply HO].
  apply HA. induction l as [|x l IHl]; constructor; [apply IH | exact IHl].
Qed.

(** What is left of a join once its first element has a text. *)
Ltac join_rest l :=
  destruct l;
  [ split; [discriminate | intros [|]; discriminate]
  | match goal with
    | |- option_map _ ?j = None <-> _ =>
        destruct j; simpl; split; auto; try discriminate;
        intros [|]; auto; discriminate
    end ].

Lemma ToString_any_raises a : ToString_any a = None <-> raises a = true.
Proof.
  induction a as [v|l IH|ps] using any_elements.
  - simpl. split; discriminate.
  - cbn [ToString_any raises].
    induction IH as [|x l Hx _ IHl]; [simpl; split; discriminate|].
    cbn [existsb]. rewrite orb_true_iff, <- IHl, <- Hx. clear IHl Hx.
    destruct x as [[| | | |]|l'|ps]; cbn [ToString_any]; try join_rest l.
    + match goal with
      | |- match ?e with _ => _ end = None <-> _ =>
          destruct e as [t|]; [|split; auto]
      end.
      join_rest l.
    + destruct (has_own_property "toString" ps); [split; auto|].
      join_rest l.
  - simpl. destruct (has_own_property "toString" ps); split; auto; discriminate.
Qed.

Lemma ToPrimitive_raises a : ToPrimitive a = None <-> raises a = true.
Proof.
  rewrite <- ToString_any_raises.
  destruct a as [v|l|ps]; unfold ToPrimitive.
  - simpl. split; discriminate.
  - destruct (ToString_any (Arr l)); simpl; split; auto; discriminate.
  - destruct (ToString_any (Obj ps)); simpl; split; auto; discriminate.
Qed.

(** *** Texts read as numbers *)

(** What is left of a text without its leading white space starts with
    none. *)
Lemma trim_start_idem s : trim_start (trim_start s) = trim_start s.
Proof.
  remember (String.length s) as n eqn:L. revert s L.
  induction n as [n IH] using lt_wf_ind. intros s ->.
  destruct s as [|c1 r1]; [reflexivity|].
  cbn [trim_start].
  destruct (white_space_1 c1) eqn:W1.
  { eapply IH; [|reflexivity]. simpl. lia. }
  destruct r1 as [|c2 r2]; [cbn [trim_start]; now rewrite W1|].
  destruct (white_space_2 c1 c2) eqn:W2.
  { eapply IH; [|reflexivity]. simpl. lia. }
  destruct r2 as [|c3 r3]; [cbn [trim_start]; now rewrite W1, W2|].
  destruct (white_space_3 c1 c2 c3) eqn:W3.
  { eapply IH; [|reflexivity]. simpl. lia. }
  cbn [trim_start]. now rewrite W1, W2, W3.
Qed.

Lemma trim_end_head c r :
  trim_start (String c r) = String c r ->
  trim_end (String c r) = String c (trim_end r).
Proof. intros E. cbn [trim_end]. now rewrite E. Qed.

Lemma trim_start_digit c r :
  is_digit c = true -> trim_start (String c r) = String c r.
Proof.
  intros D. destruct c as [[] [] [] [] [] [] [] []]; try discriminate D;
    destruct r as [|c2 [|c3 r3]]; reflexivity.
Qed.

Lemma trim_end_digits s : all_chars is_digit s = true -> trim_end s = s.
Proof.
  induction s as [|c s IH]; [reflexivity|]. simpl all_chars.
  intros A. apply andb_true_iff in A. destruct A as [D A].
  rewrite trim_end_head by now apply trim_start_digit. now rewrite IH.
Qed.

(** A blank text reads as zero. *)
Lemma StringToNumber_blank s : blank s = true -> StringToNumber s = zero.
Proof.
  unfold blank, StringToNumber.
  destruct (trim_start s); [reflexivity|discriminate].
Qed.

(** A text that does not start as a numeral does reads as NaN. *)
Lemma StringToNumber_start s :
  blank s = false -> first_char numeral_start (trim_start s) = false ->
  StringToNumber s = nan.
Proof.
  unfold blank, StringToNumber. pose proof (trim_start_idem s) as I.
  destruct (trim_start s) as [|c r]; [discriminate|]. intros _.
  rewrite (trim_end_head _ _ I). unfold first_char. generalize (trim_end r).
  intros t S.
  destruct c as [[] [] [] [] [] [] [] []]; try discriminate S; reflexivity.
Qed.

Lemma read_digits_uint d acc count :
  read_digits (NilEmpty.string_of_uint d) acc count
  = ((DecimalPos.Unsigned.of_lu (Decimal.rev d)
      + acc * 10 ^ DecimalPos.Unsigned.usize d)%N,
     (count + String.length (NilEmpty.string_of_uint d))%nat, "").
Proof.
  revert acc count.
  induction d as [|d IH|d IH|d IH|d IH|d IH|d IH|d IH|d IH|d IH|d IH];
    intros acc count.
  { simpl. f_equal. f_equal; lia. }
  all: cbn [NilEmpty.string_of_uint read_digits].
  all: match goal with
       | |- context [is_digit ?c] => change (is_digit c) with true
       end.
  all: cbn iota; unfold Decimal.rev; cbn [Decimal.revapp].
  all: rewrite DecimalPos.Unsigned.of_lu_revapp; fold (Decimal.rev d).
  all: rewrite IH.
  all: cbn [DecimalPos.Unsigned.usize String.length]; rewrite N.pow_succ_r'.
  all: match goal with
       | |- context [digit_value ?c] =>
           let v := eval vm_compute in (digit_value c) in
           change (digit_value c) with v
       end.
  all: match goal with
       | |- context [DecimalPos.Unsigned.of_lu (?f Decimal.Nil)] =>
           let v := eval vm_compute in
                      (DecimalPos.Unsigned.of_lu (f Decimal.Nil)) in
           change (DecimalPos.Unsigned.of_lu (f Decimal.Nil)) with v
       end.
  all: f_equal; f_equal; lia.
Qed.

(** The decimal numeral of [n] reads as the double nearest to [n]. *)
Lemma StringToNumber_decimal_digits n :
  StringToNumber (decimal_digits n) = decimal_to_number false n 0.
Proof.
  pose proof (all_chars_decimal_digits n) as A.
  pose proof (first_char_decimal_digits n) as F.
  pose proof (decimal_digits_nonempty n) as Ne.
  assert (R : read_digits (decimal_digits n) 0 0
              = (n, String.length (decimal_digits n), "")).
  { unfold decimal_digits. rewrite read_digits_uint.
    rewrite <- DecimalPos.Unsigned.of_uint_alt.
    change (Pos.of_uint (N.to_uint n)) with (N.of_uint (N.to_uint n)).
    rewrite DecimalN.Unsigned.of_to. f_equal. f_equal. lia. }
  unfold StringToNumber.
  destruct (decimal_digits n) as [|c r] eqn:E; [congruence|].
  cbn [first_char] in F. rewrite (trim_start_digit _ _ F).
  rewrite (trim_end_digits _ A).
  assert (Rp : radix_prefix (String c r) = None).
  { destruct r as [|c2 r2];
      [destruct c as [[] [] [] [] [] [] [] []]; reflexivity|].
    cbn [all_chars] in A. apply andb_true_iff in A. destruct A as [_ A].
    apply andb_true_iff in A. destruct A as [D2 _].
    destruct c as [[] [] [] [] [] [] [] []]; try reflexivity.
    destruct c2 as [[] [] [] [] [] [] [] []]; try discriminate D2; reflexivity. }
  rewrite Rp. cbn [is_empty].
  assert (Rs : read_sign (String c r) = (false, String c r)).
  { destruct c as [[] [] [] [] [] [] [] []]; try discriminate F; reflexivity. }
  rewrite Rs.
  assert (Pi : prefix "Infinity" (String c r) = false).
  { destruct c as [[] [] [] [] [] [] [] []]; try discriminate F; reflexivity. }
  unfold read_unsigned. rewrite Pi, R. cbn [String.length Nat.eqb].
  reflexivity.
Qed.

End CoercionFacts.

Module CoercionClaims.
Import JS Dashboard Text Coercion Examples Scenarios FormatFacts TextFacts
       CoercionFacts.

Lemma safeNumber_any_raises a fallback :
  safeNumber_any a fallback = None <-> raises a = true.
Proof.
  rewrite <- ToPrimitive_raises. unfold safeNumber_any.
  destruct (ToPrimitive a); split; auto; discriminate.
Qed.

Lemma safeNumber_any_finite a v fallback :
  ToPrimitive a = Some v ->
  safeNumber_any a fallback
  = Some (if isFinite (Number v) then Number v else fallback).
Proof.
  intros E. unfold safeNumber_any. rewrite E.
  now rewrite NumericClaims.safeNumber_finite.
Qed.

(** A value that holds no number gets the fallback. *)
Lemma safeNumber_no_number a fallback :
  no_number a = true -> safeNumber_any a fallback = Some fallback.
Proof.
  destruct a as [[| |b|x|s]|l|ps]; simpl; try discriminate.
  - reflexivity.
  - intros F. apply negb_true_iff in F.
    rewrite (safeNumber_any_finite _ (Num x)) by reflexivity.
    simpl. now rewrite F.
  - intros F. apply andb_true_iff in F. destruct F as [B S].
    apply negb_true_iff in B, S.
    rewrite (safeNumber_any_finite _ (Str s)) by reflexivity.
    simpl. now rewrite (StringToNumber_start _ B S).
  - intros F. apply negb_true_iff in F.
    unfold safeNumber_any, ToPrimitive. simpl. rewrite F. reflexivity.
Qed.

(** C3 (amended). For every value and fallback the helper raises a TypeError
    exactly when the value is an object with an own property [toString],
    alone or as an element of an array at any depth; otherwise it returns
    the number that [Number] reads in the value when this is finite, and the
    fallback when it is NaN or an infinity. So a finite number comes back
    unchanged; [undefined], NaN, the infinities, a text that is not blank
    and does not start, white space apart, with a digit, a point, a sign or
    the letter I, and an object without own [toString] give the fallback;
    but [null], [false], a blank text and the empty array give 0 and [true]
    gives 1, whatever the fallback, and the decimal numeral of a natural
    number gives the double nearest to it. *)
Theorem safeNumber_spec (a : any) (fallback : number) :
  (safeNumber_any a fallback = None <-> raises a = true)
  /\ (forall v, ToPrimitive a = Some v ->
        safeNumber_any a fallback
        = Some (if isFinite (Number v) then Number v else fallback))
  /\ (forall v, a = Prim v ->
        safeNumber_any a fallback = Some (safeNumber v fallback))
  /\ (forall x, a = Prim (Num x) -> isFinite x = true ->
        safeNumber_any a fallback = Some x)
  /\ (no_number a = true -> safeNumber_any a fallback = Some fallback)
  /\ (a = Prim Null \/ a = Prim (Bool false) \/ a = Arr []
      \/ (exists s, a = Prim (Str s) /\ blank s = true) ->
      safeNumber_any a fallback = Some zero)
  /\ (a = Prim (Bool true) -> safeNumber_any a fallback = Some one)
  /\ (forall n, a = Prim (Str (decimal_digits n)) ->
        safeNumber_any a fallback
        = Some (if isFinite (decimal_to_number false n 0)
                then decimal_to_number false n 0 else fallback)).
Proof.
  split; [apply safeNumber_any_raises|].
  split; [intros v; apply safeNumber_any_finite|].
  split; [now intros v ->|].
  split.
  { intros x -> F. rewrite (safeNumber_any_finite _ (Num x)) by reflexivity.
    simpl. now rewrite F. }
  split; [apply safeNumber_no_number|].
  split.
  { intros [->|[->|[->|(s & -> & B)]]]; try reflexivity.
    rewrite (safeNumber_any_finite _ (Str s)) by reflexivity.
    simpl. now rewrite (StringToNumber_blank _ B). }
  split; [now intros ->|].
  intros n ->. rewrite (safeNumber_any_finite _ (Str (decimal_digits n)))
    by reflexivity.
  simpl. now rewrite StringToNumber_decimal_digits.
Qed.

(** [null] is not a number, and the helper answers 0, not the fallback;
    [true] is answered as 1, and a price written as a text is read. *)
Lemma safeNumber_counterexample :
  safeNumber_any (Prim Null) 2340%float = Some zero
  /\ (zero =? 2340)%float = false
  /\ safeNumber_any (Prim (Bool true)) 0%float = Some one
  /\ (one =? 0)%float = false
  /\ safeNumber_any (Prim (Str "")) 1.0%float = Some zero.
Proof. repeat split. Qed.

(** Inputs of each kind. *)
Example safeNumber_examples :
  map (fun a => safeNumber_any a 2340%float)
      [Prim (Num 3100.5%float); Prim (Num nan); Prim (Num infinity);
       Prim (Num neg_infinity); Prim Undefined; Prim (Str "n/a");
       Prim (Str "3100.5"); Prim (Str (nbsp ++ "42"));
       Obj []; Obj [("toString", Prim (Num 1%float))];
       Arr []; Arr [Prim (Num 7%float)];
       Arr [Obj [("toString", Prim Null)]]; Prim Null; Prim (Bool true)]
  = [Some 3100.5%float; Some 2340%float; Some 2340%float; Some 2340%float;
     Some 2340%float; Some 2340%float; Some 3100.5%float; Some 42%float;
     Some 2340%float; None; Some 0%float; Some 7%float; None; Some 0%float;
     Some 1%float].
Proof. vm_compute. reflexivity. Qed.

(** *** Fallback prices *)

Lemma get_readable data coin :
  data <> Prim Null -> data <> Prim Undefined ->
  get data coin = Some (get_optional data coin).
Proof.
  intros N U. unfold get_optional.
  destruct data as [[| | | |]|l|ps]; try congruence; reflexivity.
Qed.

Lemma coin_token_some data coin sym name fallback :
  data <> Prim Null -> data <> Prim Undefined ->
  raises (get_optional (get_optional data coin) "usd") = false ->
  raises (get_optional (get_optional data coin) "usd_24h_change") = false ->
  exists price change24h,
    safeNumber_any (get_optional (get_optional data coin) "usd") fallback
    = Some price
    /\ safeNumber_any (get_optional (get_optional data coin) "usd_24h_change")
                      zero
       = Some change24h
    /\ coin_token data coin sym name fallback
       = Some (TokenData.mk sym name price change24h None).
Proof.
  intros N U R1 R2. unfold coin_token. rewrite (get_readable _ _ N U).
  destruct (safeNumber_any (get_optional (get_optional data coin) "usd")
                           fallback) as [p|] eqn:E1;
    [|apply safeNumber_any_raises in E1; congruence].
  destruct (safeNumber_any (get_optional (get_optional data coin)
                                         "usd_24h_change") zero)
    as [c|] eqn:E2;
    [|apply safeNumber_any_raises in E2; congruence].
  now exists p, c.
Qed.

Lemma coin_token_none data coin sym name fallback :
  raises (get_optional (get_optional data coin) "usd")
  || raises (get_optional (get_optional data coin) "usd_24h_change") = true ->
  coin_token data coin sym name fallback = None.
Proof.
  intros R. unfold coin_token.
  destruct (get data coin) as [entry|] eqn:G; [|reflexivity].
  assert (E : get_optional data coin = entry)
    by (unfold get_optional; now rewrite G).
  rewrite E in R.
  apply orb_true_iff in R. destruct R as [R|R].
  - apply (safeNumber_any_raises _ fallback) in R. now rewrite R.
  - apply (safeNumber_any_raises _ zero) in R. rewrite R.
    now destruct (safeNumber_any (get_optional entry "usd") fallback).
Qed.

Lemma cryptoTokens_unreadable data :
  unreadable data = true -> cryptoTokens data = None.
Proof.
  intros R.
  assert (E : existsb (fun coin =>
                 raises (get_optional (get_optional data coin) "usd")
                 || raises (get_optional (get_optional data coin)
                                         "usd_24h_change")) coins = true
              \/ data = Prim Null \/ data = Prim Undefined).
  { destruct data as [[| | | |]|l|ps]; auto. }
  destruct E as [E|[->| ->]]; [|reflexivity..].
  unfold coins in E. cbn [existsb] in E. unfold cryptoTokens.
  repeat (apply orb_true_iff in E; destruct E as [E|E]);
    try discriminate E;
    match type of E with
    | raises (get_optional (get_optional _ ?coin) _) = true =>
        match goal with
        | |- context [coin_token data coin ?sym ?name ?fb] =>
            rewrite (coin_token_none data coin sym name fb)
              by (rewrite E; auto using orb_true_r)
        end
    end;
    repeat match goal with
           | |- context [match ?o with Some _ => _ | None => _ end] =>
               destruct o
           end; reflexivity.
Qed.

Lemma unreadable_false data :
  unreadable data = false ->
  data <> Prim Null /\ data <> Prim Undefined
  /\ Forall (fun coin =>
               raises (get_optional (get_optional data coin) "usd") = false
               /\ raises (get_optional (get_optional data coin)
                                       "usd_24h_change") = false) coins.
Proof.
  intros R.
  assert (E : existsb (fun coin =>
                 raises (get_optional (get_optional data coin) "usd")
                 || raises (get_optional (get_optional data coin)
                                         "usd_24h_change")) coins = false
              /\ data <> Prim Null /\ data <> Prim Undefined).
  { destruct data as [[| | | |]|l|ps]; try discriminate R;
      repeat split; try discriminate; exact R. }
  destruct E as (E & N & U). split; [exact N|]. split; [exact U|].
  apply Forall_forall. intros coin I.
  assert (H : existsb (fun coin =>
                 raises (get_optional (get_optional data coin) "usd")
                 || raises (get_optional (get_optional data coin)
                                         "usd_24h_change")) coins <> true)
    by (rewrite E; discriminate).
  clear E.
  destruct (raises (get_optional (get_optional data coin) "usd")) eqn:R1;
    [elim H; apply existsb_exists; exists coin; now rewrite R1|].
  destruct (raises (get_optional (get_optional data coin) "usd_24h_change"))
    eqn:R2; [elim H; apply existsb_exists; exists coin;
             rewrite R1, R2; auto|].
  auto.
Qed.

Lemma fetchCryptoData_tokens permission l data random1 random2 w toks :
  cryptoTokens data = Some toks ->
  tokens (state (fetchCryptoData permission l (Response true (Some data))
                   random1 random2 w))
  = toks.
Proof. intros E. unfold fetchCryptoData. rewrite E. reflexivity. Qed.

Lemma missing_field data coin key :
  (forall ps qs, data = Obj ps -> find_property coin ps = Some (Obj qs) ->
                 find_property key qs = None) ->
  get_optional (get_optional data coin) key = Prim Undefined.
Proof.
  intros M. destruct data as [[| | | |]|l|ps]; try reflexivity.
  unfold get_optional at 2. cbn [get]. unfold own_property.
  destruct (find_property coin ps) as [[[| | | |]|l|qs]|] eqn:F;
    try reflexivity.
  unfold get_optional. cbn [get]. unfold own_property.
  now rewrite (M ps qs eq_refl F).
Qed.

(** C8 (amended). On a response that is ok with a JSON body: when the body
    is [null], or one of the ten fields is an object with an own property
    [toString] (alone or in an array), the cycle fails with a TypeError,
    which is logged, and sets no token. Otherwise the list holds the five
    tokens, each with what the helper returns for its field: the number
    read in the field when it is finite, and the literal fallback (2340,
    43250, 1.00, 14.85 and 6.42 for the prices, 0 for the changes) when the
    field holds no number. A field holds no number when it is missing (the
    body is no object, or has no entry for the coin, or the entry is no
    object or lacks the property), NaN or an infinity, a text that is not
    blank and does not start as a numeral does, or an object without own
    [toString]; so a table whose fields all hold no number gives exactly
    the fallback list. *)
Theorem fallback_prices
  (permission : Permission) (l : list PriceAlert.t) (data : any)
  (random1 random2 : number) (w : World) :
  let result := Response true (Some data) in
  let after := fetchCryptoData permission l result random1 random2 w in
  let usd coin := get_optional (get_optional data coin) "usd" in
  let change coin := get_optional (get_optional data coin) "usd_24h_change" in
  failed result = (if unreadable data then Some TypeError else None)
  /\ (unreadable data = true -> after = catch TypeError w)
  /\ (unreadable data = false ->
      map TokenData.symbol (tokens (state after))
      = ["ETH"; "BTC"; "USDC"; "LINK"; "UNI"]
      /\ Forall2 (fun entry t =>
                    Some (TokenData.price t)
                    = safeNumber_any (usd (fst entry)) (snd entry)
                    /\ Some (TokenData.change24h t)
                       = safeNumber_any (change (fst entry)) zero
                    /\ (no_number (usd (fst entry)) = true ->
                        TokenData.price t = snd entry)
                    /\ (no_number (change (fst entry)) = true ->
                        TokenData.change24h t = zero)
                    /\ (usd (fst entry) = Prim Undefined ->
                        TokenData.price t = snd entry)
                    /\ (change (fst entry) = Prim Undefined ->
                        TokenData.change24h t = zero))
                 coin_fallbacks (tokens (state after))
      /\ (Forall (fun coin => no_number (usd coin) = true
                              /\ no_number (change coin) = true) coins ->
          tokens (state after)
          = [TokenData.mk "ETH" "Ethereum" 2340%float zero None;
             TokenData.mk "BTC" "Bitcoin" 43250%float zero None;
             TokenData.mk "USDC" "USD Coin" 1.0%float zero None;
             TokenData.mk "LINK" "Chainlink" 14.85%float zero None;
             TokenData.mk "UNI" "Uniswap" 6.42%float zero None]))
  /\ (forall coin key,
        (forall ps qs, data = Obj ps ->
                       find_property coin ps = Some (Obj qs) ->
                       find_property key qs = None) ->
        get_optional (get_optional data coin) key = Prim Undefined).
Proof.
  intros result after usd change.
  assert (Un : unreadable data = true -> cryptoTokens data = None)
    by apply cryptoTokens_unreadable.
  assert (Re : unreadable data = false ->
               exists p1 c1 p2 c2 p3 c3 p4 c4 p5 c5,
                 (safeNumber_any (usd "ethereum") 2340%float = Some p1
                  /\ safeNumber_any (change "ethereum") zero = Some c1)
                 /\ (safeNumber_any (usd "bitcoin") 43250%float = Some p2
                     /\ safeNumber_any (change "bitcoin") zero = Some c2)
                 /\ (safeNumber_any (usd "usd-coin") 1.0%float = Some p3
                     /\ safeNumber_any (change "usd-coin") zero = Some c3)
                 /\ (safeNumber_any (usd "chainlink") 14.85%float = Some p4
                     /\ safeNumber_any (change "chainlink") zero = Some c4)
                 /\ (safeNumber_any (usd "uniswap") 6.42%float = Some p5
                     /\ safeNumber_any (change "uniswap") zero = Some c5)
                 /\ cryptoTokens data
                    = Some [TokenData.mk "ETH" "Ethereum" p1 c1 None;
                            TokenData.mk "BTC" "Bitcoin" p2 c2 None;
                            TokenData.mk "USDC" "USD Coin" p3 c3 None;
                            TokenData.mk "LINK" "Chainlink" p4 c4 None;
                            TokenData.mk "UNI" "Uniswap" p5 c5 None]).
  { intros R. destruct (unreadable_false _ R) as (N & U & F).
    unfold coins in F.
    repeat match goal with
           | H : Forall _ (_ :: _) |- _ => inversion H; clear H; subst
           end.
    repeat match goal with
           | H : _ = false /\ _ = false |- _ => destruct H
           end.
    destruct (coin_token_some data "ethereum" "ETH" "Ethereum" 2340%float)
      as (p1 & c1 & P1 & C1 & T1); auto.
    destruct (coin_token_some data "bitcoin" "BTC" "Bitcoin" 43250%float)
      as (p2 & c2 & P2 & C2 & T2); auto.
    destruct (coin_token_some data "usd-coin" "USDC" "USD Coin" 1.0%float)
      as (p3 & c3 & P3 & C3 & T3); auto.
    destruct (coin_token_some data "chainlink" "LINK" "Chainlink" 14.85%float)
      as (p4 & c4 & P4 & C4 & T4); auto.
    destruct (coin_token_some data "uniswap" "UNI" "Uniswap" 6.42%float)
      as (p5 & c5 & P5 & C5 & T5); auto.
    exists p1, c1, p2, c2, p3, c3, p4, c4, p5, c5.
    unfold cryptoTokens. rewrite T1, T2, T3, T4, T5. tauto. }
  split.
  { unfold result, failed. destruct (unreadable data).
    - now rewrite Un.
    - destruct Re as (? & ? & ? & ? & ? & ? & ? & ? & ? & ? & Re); auto.
      destruct Re as (_ & _ & _ & _ & _ & ->). reflexivity. }
  split.
  { intros R. unfold after, result, fetchCryptoData. now rewrite (Un R). }
  split; [|intros coin key; apply missing_field].
  intros R.
  destruct (Re R)
    as (p1 & c1 & p2 & c2 & p3 & c3 & p4 & c4 & p5 & c5
        & [P1 C1] & [P2 C2] & [P3 C3] & [P4 C4] & [P5 C5] & E).
  unfold after, result. rewrite (fetchCryptoData_tokens _ _ _ _ _ _ _ E).
  assert (Fb : forall a fb p,
             safeNumber_any a fb = Some p -> no_number a = true -> p = fb).
  { intros a fb p S No. rewrite (safeNumber_no_number _ _ No) in S.
    now injection S. }
  split; [reflexivity|]. split.
  - unfold coin_fallbacks.
    repeat constructor; cbn [fst snd TokenData.price TokenData.change24h];
      try (symmetry; assumption);
      try (intros Mi; eapply Fb; [eassumption | now rewrite Mi]);
      eauto.
  - intros F. unfold coins in F.
    repeat match goal with
           | H : Forall _ (_ :: _) |- _ => inversion H; clear H; subst
           end.
    repeat match goal with
           | H : _ = true /\ _ = true |- _ => destruct H
           end.
    rewrite (Fb _ _ _ P1), (Fb _ _ _ C1), (Fb _ _ _ P2), (Fb _ _ _ C2),
      (Fb _ _ _ P3), (Fb _ _ _ C3), (Fb _ _ _ P4), (Fb _ _ _ C4),
      (Fb _ _ _ P5), (Fb _ _ _ C5) by assumption.
    reflexivity.
Qed.

(** A price that is [null] in the response is shown as 0, not as 2340. *)
Lemma fallback_prices_counterexample :
  map TokenData.price
      (tokens (state (fetchCryptoData granted []
                        (Response true
                           (Some (Obj [("ethereum",
                                        Obj [("usd", Prim Null)])])))
                        0.5%float 0.5%float (world_with []))))
  = [0%float; 43250%float; 1.0%float; 14.85%float; 6.42%float]
  /\ (0 =? 2340)%float = false.
Proof. split; vm_compute; reflexivity. Qed.

(** Bodies of each kind: fields that hold no number, a field that raises,
    and a price behind a no-break space. *)
Example bodies :
  let prices data :=
    map TokenData.price
        (tokens (state (fetchCryptoData granted [] (Response true (Some data))
                          0.5%float 0.5%float (world_with [])))) in
  prices (Obj [("ethereum", Obj [("usd", Prim (Str "n/a"))]);
               ("bitcoin", Prim (Num 5%float));
               ("chainlink", Obj [("usd", Obj [])])])
  = [2340%float; 43250%float; 1.0%float; 14.85%float; 6.42%float]
  /\ prices (Arr [])
     = [2340%float; 43250%float; 1.0%float; 14.85%float; 6.42%float]
  /\ prices (Obj [("ethereum",
                   Obj [("usd", Obj [("toString", Prim (Num 1%float))])])])
     = []
  /\ prices (Obj [("ethereum",
                   Obj [("usd", Prim (Str (nbsp ++ "3000")))])])
     = [3000%float; 43250%float; 1.0%float; 14.85%float; 6.42%float].
Proof. vm_compute. repeat split. Qed.

End CoercionClaims.

(** ** Signs of parsed numbers *)

Module SignFacts.
Import JS Parsed.

Lemma binary_round_aux_signed s m e l :
  signed s (binary_round_aux prec emax s m e l).
Proof.
  unfold binary_round_aux.
  destruct (shr_fexp prec emax m e l) as [mrs' e'].
  destruct (shr_fexp prec emax _ e' loc_Exact) as [mrs'' e''].
  destruct (shr_m mrs''); simpl; auto.
  match goal with |- context [if ?c then _ else _] => destruct c end;
    reflexivity.
Qed.

Lemma binary_round_signed s m e : signed s (binary_round prec emax s m e).
Proof.
  unfold binary_round.
  destruct (shl_align m e _) as [mz ez]. apply binary_round_aux_signed.
Qed.

Lemma decimal_to_SF_signed s d e10 : signed s (decimal_to_SF s d e10).
Proof.
  unfold decimal_to_SF. destruct d as [|p]; [reflexivity|].
  destruct (0 <=? e10)%Z.
  - apply binary_round_signed.
  - destruct (SFdiv_core_binary prec emax (Z.pos p) 0 (10 ^ (- e10)) 0)
      as [[q e'] l].
    apply binary_round_aux_signed.
Qed.

Lemma SFldexp_signed s x e :
  signed s x -> signed s (SFldexp prec emax x e).
Proof.
  destruct x as [s'|s'| |s' m' e']; simpl; auto.
  intros ->. apply binary_round_signed.
Qed.

Lemma of_uint63_signed n : signed false (Prim2SF (of_uint63 n)).
Proof.
  rewrite of_uint63_spec. unfold binary_normalize.
  pose proof (Uint63.to_Z_bounded n) as B.
  destruct (Uint63.to_Z n) as [|p|p]; [reflexivity | | lia].
  apply binary_round_signed.
Qed.

(** What [SF2Prim] makes of a negative result is not above zero. *)
Lemma SF2Prim_negative x :
  signed true x -> gt (SF2Prim x) zero = false.
Proof.
  destruct x as [s|s| |s m e]; simpl; try (intros ->; reflexivity);
    [reflexivity|].
  intros ->. unfold gt. rewrite ltb_spec, opp_spec, FloatLemmas.Z_ldexp_spec.
  pose proof (SFldexp_signed false _ e
                (of_uint63_signed (Uint63.of_Z (Z.pos m)))) as S.
  destruct (SFldexp prec emax _ e) as [s|s| |s m' e']; simpl in *;
    subst; reflexivity.
Qed.

Lemma literal_value_negative l : gt (literal_value true l) zero = false.
Proof.
  destruct l as [|d e10]; [reflexivity|].
  apply SF2Prim_negative, decimal_to_SF_signed.
Qed.

End SignFacts.

(** ** Alert life cycle and the mounted component *)

Module LifecycleFacts.
Import JS Dashboard View Text Cycle EvaluatorFacts NumberFacts FormatFacts
       CycleFacts SignFacts.
Local Open Scope list_scope.

Lemma filter_absent alert_id l :
  ~ In alert_id (ids l) ->
  filter (fun a => negb (String.eqb (PriceAlert.id a) alert_id)) l = l.
Proof.
  unfold ids. induction l as [|a l IH]; simpl; [reflexivity|].
  intros N. destruct (String.eqb_spec (PriceAlert.id a) alert_id) as [E|_].
  - tauto.
  - simpl. rewrite IH; tauto.
Qed.

Lemma filter_twice (f : PriceAlert.t -> bool) l :
  filter f (filter f l) = filter f l.
Proof.
  induction l as [|a l IH]; simpl; [reflexivity|].
  destruct (f a) eqn:E; simpl; [|exact IH]. now rewrite E, IH.
Qed.

Lemma filter_swap (f g : PriceAlert.t -> bool) l :
  filter f (filter g l) = filter g (filter f l).
Proof.
  induction l as [|a l IH]; simpl; [reflexivity|].
  destruct (f a) eqn:Ef, (g a) eqn:Eg; simpl; rewrite ?Ef, ?Eg, IH; reflexivity.
Qed.

Lemma setAlerts_id f w :
  f (alerts (state w)) = alerts (state w) -> setAlerts f w = w.
Proof.
  destruct w as [[tk air ld al sh] nt cs]. unfold setAlerts. simpl.
  now intros ->.
Qed.

(** A text that does not start as a threshold can start is not read as a number
    above zero: it is read as NaN, or as a number with a minus sign. *)
Lemma parseFloat_start text :
  first_char threshold_start (trim_start text) = false ->
  gt (parseFloat text) zero = false.
Proof.
  unfold parseFloat. destruct (trim_start text) as [|c r]; [reflexivity|].
  unfold first_char. intros S.
  destruct (Ascii.eqb_spec c "-") as [->|N].
  - cbn [read_sign]. generalize (read_unsigned r).
    intros [[l rest]|]; [|reflexivity].
    apply literal_value_negative.
  - destruct c as [[] [] [] [] [] [] [] []];
      try discriminate S; try (now elim N); reflexivity.
Qed.

Lemma well_displayed_ext s s' :
  tokens s' = tokens s -> airToken s' = airToken s ->
  well_displayed s -> well_displayed s'.
Proof.
  unfold well_displayed, allTokens. now intros -> ->.
Qed.

Lemma fetch_well_displayed permission l result random1 random2 w :
  well_displayed (state w) ->
  well_displayed (state (fetchCryptoData permission l result random1 random2 w)).
Proof.
  intros D. destruct (failed result) as [e|] eqn:F.
  - rewrite (failed_some _ _ _ _ _ _ _ F). revert D.
    now apply well_displayed_ext.
  - destruct (failed_none _ F) as (data & toks & -> & E).
    rewrite (fetchCryptoData_success _ _ _ _ _ _ _ E).
    destruct (cryptoTokens_fields data toks E) as (S & _ & Fi).
    pose proof (airTokenData_fields random1 random2) as A. cbv zeta in A.
    unfold well_displayed, allTokens, setLoading, setAirToken, setTokens.
    cbn [state airToken tokens map]. split.
    + right. rewrite S. reflexivity.
    + constructor; [tauto|]. revert Fi. apply Forall_impl. tauto.
Qed.

Lemma step_mounted permission e w :
  mounted w -> mounted (step permission e w).
Proof.
  intros (No & Al & D).
  destruct e as [result r1 r2|now form|alert_id|shown].
  - destruct (LifecycleClaims.tick_reads_mount_alerts
                permission result r1 r2 w) as [Ea En].
    unfold mounted. rewrite Ea, En.
    split; [exact No|]. split; [exact Al|].
    now apply (fetch_well_displayed permission (alerts initial)).
  - unfold step, handleSubmit.
    destruct (gt (parseFloat (thresholdText form)) zero) eqn:G;
      [|now split].
    split; [exact No|]. split; [|exact D]. simpl.
    apply Forall_app. split; [exact Al|]. repeat constructor. exact G.
  - split; [exact No|]. split; [|exact D]. simpl.
    apply Forall_forall. intros a Ha. apply filter_In in Ha.
    rewrite Forall_forall in Al. now apply Al.
  - now split.
Qed.

Lemma run_mounted permission events w :
  mounted w -> mounted (run permission events w).
Proof.
  revert w. induction events as [|e events IH]; intros w M; [exact M|].
  simpl. apply IH. now apply step_mounted.
Qed.

Lemma initial_mounted : mounted (mkWorld initial [] []).
Proof.
  repeat split; simpl; auto.
Qed.

Lemma step_loading permission e w :
  loading (state w) = false -> loading (state (step permission e w)) = false.
Proof.
  intros L. destruct e as [result r1 r2|now form|alert_id|shown]; simpl; auto.
  - destruct (failed result) as [e|] eqn:F.
    + now rewrite (failed_some _ _ _ _ _ _ _ F).
    + destruct (failed_none _ F) as (data & toks & -> & E).
      now rewrite (fetchCryptoData_success _ _ _ _ _ _ _ E).
  - unfold handleSubmit. now destruct (gt _ _).
Qed.

Lemma run_loading permission events w :
  loading (state w) = false -> loading (state (run permission events w)) = false.
Proof.
  revert w. induction events as [|e events IH]; intros w L; [exact L|].
  simpl. apply IH. now apply step_loading.
Qed.

End LifecycleFacts.

(** ** Displayed values of the synthesized token *)

Module DisplayFacts.
Import JS Dashboard Rounding RoundingFacts FormatFacts OrderFacts.
Local Open Scope Z_scope.

(** Between valid positive numbers, [<=] is the order of the values. *)
Lemma SFleb_units_inv m1 e1 m2 e2 :
  valid_binary (S754_finite false m1 e1) = true ->
  valid_binary (S754_finite false m2 e2) = true ->
  SFleb (S754_finite false m1 e1) (S754_finite false m2 e2) = true ->
  units (Z.pos m1) e1 <= units (Z.pos m2) e2.
Proof.
  intros V1 V2 L.
  destruct (Z.le_gt_cases (units (Z.pos m1) e1) (units (Z.pos m2) e2))
    as [H|H]; [exact H|].
  assert (L' : SFleb (S754_finite false m2 e2) (S754_finite false m1 e1) = true)
    by (apply SFleb_units; try assumption; lia).
  unfold SFleb, SFcompare in L, L'.
  assert (e1 = e2 /\ m1 = m2) as [-> ->]; [|lia].
  order_cases; subst; try lia; auto; try discriminate.
Qed.

(** The value in units of [10^-d], against the value in units of [2^-G]. *)
Lemma scaled_units m e d :
  - G <= e -> 0 <= d ->
  scaled_num m e (- d) * 2 ^ G = scaled_den e (- d) * (units (Z.pos m) e * 10 ^ d).
Proof.
  intros Ge Pd. unfold scaled_num, scaled_den, units.
  rewrite Z.opp_involutive, (Z.max_l d 0), (Z.max_r (- d) 0) by lia.
  change (10 ^ 0) with 1. rewrite Z.mul_1_r.
  assert (P : 2 ^ Z.max e 0 * 2 ^ G = 2 ^ Z.max (- e) 0 * 2 ^ (e + G)).
  { rewrite <- !Z.pow_add_r by (unfold G in *; lia). f_equal. lia. }
  set (a := 2 ^ Z.max e 0) in *. set (b := 2 ^ Z.max (- e) 0) in *.
  set (c := 2 ^ (e + G)) in *. set (g := 2 ^ G) in *. set (t := 10 ^ d) in *.
  transitivity (Z.pos m * t * (a * g)); [ring|]. rewrite P. ring.
Qed.

Lemma nearest_bounds num den u g t lo hi n1 n2 :
  0 < den -> 0 < g -> 0 < t ->
  num * g = den * (u * t) ->
  lo <= u <= hi ->
  2 * n1 * g <= 2 * lo * t + g ->
  2 * hi * t + g < 2 * (n2 + 1) * g ->
  n1 <= (2 * num + den) / (2 * den) <= n2.
Proof.
  intros D Pg Pt U [Lo Hi] B1 B2.
  assert (E : (2 * num + den) * g = den * (2 * u * t + g)).
  { transitivity (2 * (num * g) + den * g); [ring|]. rewrite U. ring. }
  assert (L1 : 2 * lo * t <= 2 * u * t) by nia.
  assert (L2 : 2 * u * t <= 2 * hi * t) by nia.
  split.
  - apply Z.div_le_lower_bound; [lia|].
    apply Z.mul_le_mono_pos_r with (p := g); [exact Pg|]. rewrite E.
    transitivity (den * (2 * n1 * g)); [apply Z.eq_le_incl; ring|].
    apply Z.mul_le_mono_nonneg_l; lia.
  - apply Z.lt_succ_r. apply Z.div_lt_upper_bound; [lia|].
    apply Z.mul_lt_mono_pos_r with (p := g); [exact Pg|]. rewrite E.
    replace (2 * den * Z.succ n2 * g) with (den * (2 * (n2 + 1) * g)) by ring.
    apply Z.mul_lt_mono_pos_l; lia.
Qed.

Lemma below_algebra num den u g hi bound :
  0 < den -> 0 < g ->
  num * g = den * u -> u <= hi -> hi < bound * g ->
  num < bound * den.
Proof.
  intros D Pg U Hi B.
  apply Z.mul_lt_mono_pos_r with (p := g); [exact Pg|]. rewrite U.
  replace (bound * den * g) with (den * (bound * g)) by ring.
  apply Z.mul_lt_mono_pos_l; lia.
Qed.

Lemma scaled_round_bounds m e d lo hi n1 n2 :
  - G <= e -> 0 <= d ->
  lo <= units (Z.pos m) e <= hi ->
  (2 * n1 * 2 ^ G <=? 2 * lo * 10 ^ d + 2 ^ G) = true ->
  (2 * hi * 10 ^ d + 2 ^ G <? 2 * (n2 + 1) * 2 ^ G) = true ->
  n1 <= scaled_round m e (- d) <= n2.
Proof.
  intros Ge Pd B B1 B2. apply Z.leb_le in B1. apply Z.ltb_lt in B2.
  unfold scaled_round.
  apply (nearest_bounds _ _ (units (Z.pos m) e) (2 ^ G) (10 ^ d) lo hi);
    try assumption.
  - apply scaled_den_pos.
  - apply pow2_pos. unfold G. lia.
  - apply Z.pow_pos_nonneg; lia.
  - now apply scaled_units.
Qed.

Lemma scaled_below m e hi bound :
  - G <= e ->
  units (Z.pos m) e <= hi ->
  (hi <? bound * 2 ^ G) = true ->
  scaled_compare m e bound 0 = Lt.
Proof.
  intros Ge Hi B. apply Z.ltb_lt in B.
  pose proof (scaled_units m e 0 Ge ltac:(lia)) as U.
  change (- 0) with 0 in U. change (10 ^ 0) with 1 in U.
  rewrite Z.mul_1_r in U.
  unfold scaled_compare. apply Z.compare_lt_iff.
  apply (below_algebra _ _ (units (Z.pos m) e) (2 ^ G) hi); try assumption.
  - apply scaled_den_pos.
  - apply pow2_pos. unfold G. lia.
Qed.

(** The bounds of a jitter, in units. *)
Lemma leb_units lo x ml el m e :
  Prim2SF lo = S754_finite false ml el ->
  Prim2SF x = S754_finite false m e ->
  (lo <=? x)%float = true ->
  units (Z.pos ml) el <= units (Z.pos m) e /\ - G <= e.
Proof.
  intros El E L. rewrite leb_spec, El, E in L.
  pose proof (Prim2SF_valid lo) as Vl. pose proof (Prim2SF_valid x) as V.
  rewrite El in Vl. rewrite E in V.
  split; [now apply SFleb_units_inv|].
  destruct (valid_finite _ _ _ V) as [C _]. unfold G. lia.
Qed.

End DisplayFacts.

(** ** Properties of the evaluator *)

Module EvaluatorProperties.
Import JS Dashboard Examples Scenarios EvaluatorFacts NumberFacts.
Local Open Scope list_scope.

Lemma checkPriceAlerts_none permission l price sym w :
  Forall (fun a => triggers price sym a = false) l ->
  checkPriceAlerts permission l price sym w = w.
Proof.
  intros F. revert w. induction F as [|a l T F IH]; intros w; [reflexivity|].
  rewrite checkPriceAlerts_cons, check_alert_triggers, T. apply IH.
Qed.

Lemma hit_self price sym l x :
  In x l -> triggers price sym x = true -> hit price sym l x = true.
Proof.
  intros I T. unfold hit. apply existsb_exists. exists x.
  rewrite T, String.eqb_refl. auto.
Qed.

(** X1. Notifications follow the permission, deactivations do not: with the
    permission granted the evaluator builds one notification per triggering
    alert of its closure, in closure order, after those already built; with
    the permission denied or never asked it builds none. The alerts of the
    state come out the same in every case. *)
Theorem notifications_follow_permission
  (permission : Permission) (l : list PriceAlert.t) (price : number)
  (sym : string) (w : World) :
  let after := checkPriceAlerts permission l price sym w in
  alerts (state after)
  = alerts (state (checkPriceAlerts granted l price sym w))
  /\ notifications after
     = match permission with
       | granted =>
           notifications w
           ++ map (fun a => alert_notification a price sym)
                  (filter (triggers price sym) l)
       | denied | default => notifications w
       end.
Proof.
  intros after. unfold after. split.
  - now rewrite !checkPriceAlerts_alerts.
  - rewrite checkPriceAlerts_notifications.
    destruct permission; auto using app_nil_r.
Qed.

(** X2. An evaluator that reads the alert list of the current state leaves
    nothing for a second one: run again on the list it left, at the same
    price and symbol, it changes nothing and builds no notification. *)
Theorem evaluator_idempotent
  (permission : Permission) (price : number) (sym : string) (w : World) :
  let once := checkPriceAlerts permission (alerts (state w)) price sym w in
  checkPriceAlerts permission (alerts (state once)) price sym once = once.
Proof.
  intros once. apply checkPriceAlerts_none.
  unfold once. rewrite checkPriceAlerts_alerts.
  apply Forall_forall. intros a Ha. apply in_map_iff in Ha.
  destruct Ha as (x & <- & Hx).
  destruct (hit price sym (alerts (state w)) x) eqn:H.
  - apply triggers_deactivated.
  - destruct (triggers price sym x) eqn:T; [|reflexivity].
    rewrite (hit_self price sym _ x Hx T) in H. discriminate.
Qed.

(** X3. An evaluator that keeps its alert list fires again: called a second
    time with the same closure, price and symbol, it leaves the alerts as the
    first call did and builds every notification once more. *)
Theorem stale_closure_fires_again
  (l : list PriceAlert.t) (price : number) (sym : string) (w : World) :
  let fired := map (fun a => alert_notification a price sym)
                   (filter (triggers price sym) l) in
  let once := checkPriceAlerts granted l price sym w in
  let twice := checkPriceAlerts granted l price sym once in
  alerts (state twice) = alerts (state once)
  /\ notifications once = notifications w ++ fired
  /\ notifications twice = notifications w ++ fired ++ fired.
Proof.
  intros fired once twice. unfold twice, once. repeat split.
  - rewrite !checkPriceAlerts_alerts, map_map. apply map_ext. intros x.
    destruct (hit price sym l x) eqn:H.
    + rewrite hit_deactivated, H. reflexivity.
    + now rewrite H.
  - apply checkPriceAlerts_notifications.
  - rewrite !checkPriceAlerts_notifications. now rewrite <- app_assoc.
Qed.

Lemma leb_nan_r x y : isNaN y = true -> (x <=? y)%float = false.
Proof.
  intros H. rewrite leb_spec, (is_nan_spec y H).
  now destruct (Prim2SF x).
Qed.

Lemma leb_nan_l x y : isNaN x = true -> (x <=? y)%float = false.
Proof.
  intros H. rewrite leb_spec, (is_nan_spec x H). reflexivity.
Qed.

(** X4. Comparisons with NaN fail: at a NaN price, or over alerts whose
    thresholds are all NaN, the evaluator does nothing. *)
Theorem nan_never_triggers
  (permission : Permission) (l : list PriceAlert.t) (price : number)
  (sym : string) (w : World) :
  isNaN price = true
  \/ Forall (fun a => isNaN (PriceAlert.threshold a) = true) l ->
  checkPriceAlerts permission l price sym w = w.
Proof.
  intros H. apply checkPriceAlerts_none. apply Forall_forall. intros a Ha.
  assert (N : isNaN price = true \/ isNaN (PriceAlert.threshold a) = true).
  { destruct H as [H|H]; [now left | right].
    rewrite Forall_forall in H. now apply H. }
  unfold triggers. rewrite shouldTrigger_condition. unfold condition, ge, le.
  destruct N as [N|N], (PriceAlert.type a);
    rewrite ?(leb_nan_l _ _ N), ?(leb_nan_r _ _ N); apply andb_false_r.
Qed.

Lemma nan_never_triggers_witness :
  (isNaN nan = true
   \/ Forall (fun a => isNaN (PriceAlert.threshold a) = true) [eth_above_3000])
  /\ checkPriceAlerts granted [eth_above_3000] nan "ETH"
       (world_with [eth_above_3000])
     = world_with [eth_above_3000].
Proof.
  split; [left; reflexivity|].
  apply (nan_never_triggers granted [eth_above_3000] nan "ETH"
           (world_with [eth_above_3000]) (or_introl eq_refl)).
Defined.

End EvaluatorProperties.

(** ** Properties of the fetch cycle *)

Module CycleProperties.
Import JS Dashboard Examples Scenarios Cycle View EvaluatorFacts FormatFacts
       CycleFacts OrderFacts.
Local Open Scope list_scope.

(** X5. Every cycle that settles clears the loading flag and leaves the modal
    flag alone; the console receives the one error of a failed cycle and
    nothing from a successful one. *)
Theorem fetch_settles
  (permission : Permission) (l : list PriceAlert.t) (result : FetchResult)
  (random1 random2 : number) (w : World) :
  let after := fetchCryptoData permission l result random1 random2 w in
  loading (state after) = false
  /\ showAlertModal (state after) = showAlertModal (state w)
  /\ console after
     = console w ++ match failed result with
                    | Some e => [e]
                    | None => []
                    end.
Proof.
  intros after. unfold after. destruct (failed result) as [e|] eqn:F.
  - rewrite (failed_some _ _ _ _ _ _ _ F). simpl. auto.
  - destruct (failed_none _ F) as (data & toks & -> & E).
    rewrite (fetchCryptoData_success _ _ _ _ _ _ _ E). simpl.
    pose proof (evaluations_frame permission l
                  (calls (airTokenData random1 random2) toks) w) as Fr.
    simpl in Fr. destruct Fr as (_ & _ & _ & -> & ->).
    now rewrite app_nil_r.
Qed.

(** X6. After a successful cycle the list holds the five tokens by symbol and
    name, in their order, the synthesized token is AIR, and every price and
    change on display is a finite number, whatever the response and the
    random numbers were. *)
Theorem fetched_numbers_finite
  (permission : Permission) (l : list PriceAlert.t) (result : FetchResult)
  (random1 random2 : number) (w : World) :
  failed result = None ->
  let after := fetchCryptoData permission l result random1 random2 w in
  map TokenData.symbol (tokens (state after))
  = ["ETH"; "BTC"; "USDC"; "LINK"; "UNI"]
  /\ map TokenData.name (tokens (state after))
     = ["Ethereum"; "Bitcoin"; "USD Coin"; "Chainlink"; "Uniswap"]
  /\ airToken (state after) = Some (airTokenData random1 random2)
  /\ TokenData.symbol (airTokenData random1 random2) = "AIR"
  /\ Forall (fun t => isFinite (TokenData.price t) = true
                      /\ isFinite (TokenData.change24h t) = true)
            (allTokens (state after)).
Proof.
  intros F after. destruct (failed_none _ F) as (data & toks & -> & E).
  unfold after. rewrite (fetchCryptoData_success _ _ _ _ _ _ _ E).
  unfold allTokens. simpl.
  destruct (cryptoTokens_fields data toks E) as (S & N & Fi).
  pose proof (airTokenData_fields random1 random2) as A. simpl in A.
  repeat split; auto.
  constructor; [tauto|].
  eapply Forall_impl; [|exact Fi]. simpl. tauto.
Qed.

Lemma fetched_numbers_finite_witness :
  failed (Response true (Some (Obj [("bitcoin", Obj [("usd", Prim (Num infinity))])])))
  = None
  /\ Forall (fun t => isFinite (TokenData.price t) = true
                      /\ isFinite (TokenData.change24h t) = true)
            (allTokens
               (state (fetchCryptoData granted []
                         (Response true
                            (Some (Obj [("bitcoin", Obj [("usd", Prim (Num infinity))])])))
                         nan 0.5%float (world_with [])))).
Proof.
  split; [reflexivity|].
  apply (fetched_numbers_finite granted []
           (Response true (Some (Obj [("bitcoin", Obj [("usd", Prim (Num infinity))])])))
           nan 0.5%float (world_with []) eq_refl).
Defined.

(** X7. Fetch cycles, whatever they receive and whatever alert lists their
    closures hold, only deactivate: alert by alert, the state after any
    number of cycles is the state before or its deactivated copy, so
    identifiers, symbols, directions and thresholds stay in place and the
    panel of active alerts never grows. *)
Theorem fetches_only_deactivate
  (permission : Permission)
  (cs : list (list PriceAlert.t * FetchResult * number * number)) (w : World) :
  let after := fetches permission cs w in
  Forall2 (fun before now => now = before \/ now = PriceAlert.deactivated before)
          (alerts (state w)) (alerts (state after))
  /\ map settings (alerts (state after)) = map settings (alerts (state w))
  /\ (List.length (activeAlerts (state after))
      <= List.length (activeAlerts (state w)))%nat.
Proof.
  intros after.
  assert (F : Forall2 (fun before now =>
                         now = before \/ now = PriceAlert.deactivated before)
                      (alerts (state w)) (alerts (state after))).
  { unfold after. clear after. revert w.
    induction cs as [|[[[l result] r1] r2] cs IH]; intros w.
    - simpl. rewrite <- (map_id (alerts (state w))) at 2.
      apply (only_deactivates_map (fun _ => false)).
    - simpl. eapply only_deactivates_trans; [|apply IH].
      rewrite fetchCryptoData_alerts. apply only_deactivates_map. }
  split; [exact F|]. now apply only_deactivates_settings.
Qed.

(** X8. A successful cycle evaluates the prices it has just built: an active
    alert of the closure, listed for the symbol of one of the six tokens and
    whose condition holds at that token's price, leaves every alert with its
    identifier inactive; with the permission granted its notification is
    among those built. *)
Theorem fetched_price_fires_alert
  (permission : Permission) (l : list PriceAlert.t) (data : any)
  (random1 random2 : number) (w : World) (toks : list TokenData.t)
  (t : TokenData.t) (a : PriceAlert.t) :
  cryptoTokens data = Some toks ->
  In t (airTokenData random1 random2 :: toks) ->
  In a l ->
  PriceAlert.symbol a = TokenData.symbol t ->
  PriceAlert.isActive a = true ->
  condition a (TokenData.price t) = true ->
  let after := fetchCryptoData permission l (Response true (Some data))
                 random1 random2 w in
  (forall x, In x (alerts (state after)) ->
             PriceAlert.id x = PriceAlert.id a ->
             PriceAlert.isActive x = false)
  /\ (permission = granted ->
      In (alert_notification a (TokenData.price t) (TokenData.symbol t))
         (notifications after)).
Proof.
  intros E Ht Ha S A C after.
  assert (T : triggers (TokenData.price t) (TokenData.symbol t) a = true).
  { unfold triggers. now rewrite S, String.eqb_refl, A, shouldTrigger_condition. }
  assert (Hc : In (TokenData.price t, TokenData.symbol t)
                  (calls (airTokenData random1 random2) toks)).
  { unfold calls. apply (in_map (fun t => (TokenData.price t, TokenData.symbol t))).
    exact Ht. }
  split.
  - intros x Hx Ex. unfold after in Hx. rewrite fetchCryptoData_alerts in Hx.
    apply in_map_iff in Hx. destruct Hx as (y & <- & Hy).
    assert (D : deactivates l (Response true (Some data)) random1 random2 y
                = true).
    { unfold deactivates. rewrite E. unfold hit_by. apply existsb_exists.
      exists (TokenData.price t, TokenData.symbol t). split; [exact Hc|].
      simpl. unfold hit. apply existsb_exists. exists a. split; [exact Ha|].
      rewrite T. simpl. apply String.eqb_eq.
      destruct (deactivates _ _ _ _ y); exact Ex. }
    rewrite D. reflexivity.
  - intros ->. unfold after. rewrite (fetchCryptoData_notifications _ _ _ _ _ _ _ E).
    apply in_or_app. right. unfold fired. apply in_flat_map.
    exists (TokenData.price t, TokenData.symbol t). split; [exact Hc|].
    simpl. apply (in_map (fun a => alert_notification a _ _)).
    apply filter_In. auto.
Qed.

Lemma fetched_price_fires_alert_witness :
  (cryptoTokens eth_only = Some eth_only_tokens
   /\ In (TokenData.mk "ETH" "Ethereum" 3100.5%float (-1.25)%float None)
         (airTokenData 0.5%float 0.5%float :: eth_only_tokens)
   /\ In eth_above_3000 [eth_above_3000]
   /\ PriceAlert.symbol eth_above_3000 = "ETH"
   /\ PriceAlert.isActive eth_above_3000 = true
   /\ condition eth_above_3000 3100.5%float = true)
  /\ In (alert_notification eth_above_3000 3100.5%float "ETH")
        (notifications
           (fetchCryptoData granted [eth_above_3000]
              (Response true (Some eth_only)) 0.5%float 0.5%float
              (world_with [eth_above_3000]))).
Proof.
  assert (I : In (TokenData.mk "ETH" "Ethereum" 3100.5%float (-1.25)%float None)
                 (airTokenData 0.5%float 0.5%float :: eth_only_tokens))
    by (right; left; reflexivity).
  split; [repeat split; try reflexivity; [exact I | now left]|].
  apply (fetched_price_fires_alert granted [eth_above_3000] eth_only
           0.5%float 0.5%float (world_with [eth_above_3000]) eth_only_tokens
           (TokenData.mk "ETH" "Ethereum" 3100.5%float (-1.25)%float None)
           eth_above_3000 eq_refl I (or_introl eq_refl) eq_refl eq_refl eq_refl).
  reflexivity.
Defined.

(** X9. A cycle evaluates six symbols only: when the closure holds the alerts
    of the state, with pairwise distinct identifiers, an alert on any other
    symbol comes out of the cycle as it was. *)
Theorem other_symbols_never_checked
  (permission : Permission) (result : FetchResult) (random1 random2 : number)
  (w : World) (x : PriceAlert.t) :
  NoDup (ids (alerts (state w))) ->
  In x (alerts (state w)) ->
  ~ In (PriceAlert.symbol x) symbols ->
  let after := fetchCryptoData permission (alerts (state w)) result
                 random1 random2 w in
  In x (alerts (state after)).
Proof.
  intros N Hx S after. unfold after. rewrite fetchCryptoData_alerts.
  apply in_map_iff. exists x. split; [|exact Hx].
  assert (D : deactivates (alerts (state w)) result random1 random2 x = false);
    [|now rewrite D].
  unfold deactivates. destruct result as [|[|] [data|]]; try reflexivity.
  destruct (cryptoTokens data) as [toks|] eqn:E; [|reflexivity].
  destruct (hit_by _ _ x) eqn:H; [|reflexivity]. exfalso.
  unfold hit_by in H. apply existsb_exists in H. destruct H as (c & Hc & H).
  rewrite (EvaluatorClaims.hit_unique _ _ _ x N Hx) in H.
  unfold triggers in H. apply andb_true_iff in H. destruct H as [H _].
  apply andb_true_iff in H. destruct H as [H _]. apply String.eqb_eq in H.
  apply S. rewrite H. unfold calls in Hc. apply in_map_iff in Hc.
  destruct Hc as (t & <- & Ht). simpl.
  destruct (cryptoTokens_fields data toks E) as (Sy & _ & _).
  destruct Ht as [<-|Ht]; [now left|].
  right. change (In (TokenData.symbol t) ["ETH"; "BTC"; "USDC"; "LINK"; "UNI"]).
  rewrite <- Sy. now apply in_map.
Qed.

Lemma other_symbols_never_checked_witness :
  (NoDup (ids (alerts (state (world_with [doge_above_1; eth_above_3000]))))
   /\ In doge_above_1
         (alerts (state (world_with [doge_above_1; eth_above_3000])))
   /\ ~ In (PriceAlert.symbol doge_above_1) symbols)
  /\ In doge_above_1
        (alerts (state
           (fetchCryptoData granted [doge_above_1; eth_above_3000]
              (Response true (Some eth_only)) 0.5%float 0.5%float
              (world_with [doge_above_1; eth_above_3000])))).
Proof.
  assert (N : NoDup (ids (alerts (state (world_with
                                           [doge_above_1; eth_above_3000])))))
    by (repeat constructor; simpl; intuition discriminate).
  assert (S : ~ In (PriceAlert.symbol doge_above_1) symbols)
    by (simpl; intuition discriminate).
  split; [repeat split; [exact N | now left | exact S]|].
  apply (other_symbols_never_checked granted (Response true (Some eth_only))
           0.5%float 0.5%float (world_with [doge_above_1; eth_above_3000])
           doge_above_1 N (or_introl eq_refl) S).
Defined.

(** X10. The synthesized price stays within its range, so an alert on AIR
    above a threshold greater than [0.00676 + 0.000025], or below one less
    than [0.00676 - 0.000025], does not trigger: when the closure holds the
    alerts of the state, with pairwise distinct identifiers, the cycle leaves
    it as it was. The placeholder of the form, 0.00700, is such a
    threshold. *)
Theorem air_alert_out_of_range
  (permission : Permission) (result : FetchResult) (random1 random2 : number)
  (w : World) (a : PriceAlert.t) :
  (0 <=? random1)%float = true -> (random1 <? 1)%float = true ->
  NoDup (ids (alerts (state w))) ->
  In a (alerts (state w)) ->
  PriceAlert.symbol a = "AIR" ->
  match PriceAlert.type a with
  | PriceAlert.above =>
      (0.00676 + 0.000025 <? PriceAlert.threshold a)%float = true
  | PriceAlert.below =>
      (PriceAlert.threshold a <? 0.00676 - 0.000025)%float = true
  end ->
  let after := fetchCryptoData permission (alerts (state w)) result
                 random1 random2 w in
  triggers (TokenData.price (airTokenData random1 random2)) "AIR" a = false
  /\ In a (alerts (state after)).
Proof.
  intros R0 R1 N Ha S Out after.
  destruct (JitterClaims.air_price_jitter random1 R0 R1) as (Lo & Hi & m & e & E).
  destruct (JitterClaims.safeNumber_jitter
              0.00676%float 0.00005%float random1 0.00676%float m e E)
    as [P _].
  assert (T : triggers (TokenData.price (airTokenData random1 random2)) "AIR" a
              = false).
  { unfold triggers. rewrite shouldTrigger_condition.
    unfold condition, airTokenData. cbn [TokenData.price].
    rewrite P. unfold ge, le.
    destruct (PriceAlert.type a).
    - rewrite (leb_ltb_trans _ _ _ Hi Out). apply andb_false_r.
    - rewrite (ltb_leb_trans _ _ _ Out Lo). apply andb_false_r. }
  split; [exact T|].
  unfold after. rewrite fetchCryptoData_alerts.
  apply in_map_iff. exists a. split; [|exact Ha].
  assert (D : deactivates (alerts (state w)) result random1 random2 a = false);
    [|now rewrite D].
  unfold deactivates. destruct result as [|[|] [data|]]; try reflexivity.
  destruct (cryptoTokens data) as [toks|] eqn:Et; [|reflexivity].
  destruct (hit_by _ _ a) eqn:H; [|reflexivity]. exfalso.
  unfold hit_by in H. apply existsb_exists in H. destruct H as (c & Hc & H).
  rewrite (EvaluatorClaims.hit_unique _ _ _ a N Ha) in H.
  unfold calls in Hc. apply in_map_iff in Hc. destruct Hc as (t & <- & Ht).
  cbn [fst snd] in H. destruct Ht as [<-|Ht].
  - change (TokenData.symbol (airTokenData random1 random2)) with "AIR" in H.
    congruence.
  - unfold triggers in H. rewrite S in H.
    destruct (cryptoTokens_fields data toks Et) as (Sy & _ & _).
    assert (I : In (TokenData.symbol t) ["ETH"; "BTC"; "USDC"; "LINK"; "UNI"])
      by (rewrite <- Sy; now apply in_map).
    simpl in I.
    destruct I as [I|[I|[I|[I|[I|[]]]]]]; rewrite <- I in H; discriminate.
Qed.

Lemma air_alert_out_of_range_witness :
  ((0 <=? 0.9999999999999998)%float = true
   /\ (0.9999999999999998 <? 1)%float = true
   /\ NoDup (ids (alerts (state (world_with [air_above_placeholder]))))
   /\ In air_above_placeholder
         (alerts (state (world_with [air_above_placeholder])))
   /\ PriceAlert.symbol air_above_placeholder = "AIR"
   /\ (0.00676 + 0.000025 <? PriceAlert.threshold air_above_placeholder)%float
      = true)
  /\ In air_above_placeholder
        (alerts (state
           (fetchCryptoData granted [air_above_placeholder]
              (Response true (Some eth_only))
              0.9999999999999998%float 0.5%float
              (world_with [air_above_placeholder])))).
Proof.
  assert (N : NoDup (ids (alerts (state (world_with [air_above_placeholder])))))
    by (repeat constructor; simpl; intuition).
  split; [repeat split; try reflexivity; [exact N | now left]|].
  apply (air_alert_out_of_range granted (Response true (Some eth_only))
           0.9999999999999998%float 0.5%float
           (world_with [air_above_placeholder]) air_above_placeholder
           eq_refl eq_refl N (or_introl eq_refl) eq_refl eq_refl).
Defined.

End CycleProperties.

(** ** Properties of the formatters *)

Module FormatProperties.
Import JS Dashboard Examples Scenarios View Text FormatFacts TextFacts.

(** X11. When the helper returns, and it does unless its input is an
    object with an own property [toString], alone or in an array, the result
    is finite exactly when the number read in the input or the fallback is
    finite; with a finite fallback the result is finite, and a second
    application, with any fallback, returns it unchanged. *)
Theorem safeNumber_result_finite
  (a : any) (fallback other : number) (r : number) :
  safeNumber_any a fallback = Some r ->
  (exists v, ToPrimitive a = Some v
             /\ isFinite r = isFinite (Number v) || isFinite fallback)
  /\ (isFinite fallback = true ->
      isFinite r = true /\ safeNumber_any (Prim (Num r)) other = Some r).
Proof.
  unfold safeNumber_any. destruct (ToPrimitive a) as [v|]; [|discriminate].
  intros [= <-].
  assert (E : isFinite (safeNumber v fallback)
              = isFinite (Number v) || isFinite fallback).
  { rewrite NumericClaims.safeNumber_finite.
    destruct (isFinite (Number v)) eqn:F; simpl; auto. }
  split; [now exists v|]. intros F.
  assert (S : isFinite (safeNumber v fallback) = true)
    by (rewrite E, F; apply orb_true_r).
  split; [exact S|]. simpl. f_equal. now apply safeNumber_of_finite.
Qed.

Lemma safeNumber_result_finite_witness :
  safeNumber_any (Prim (Str (nbsp ++ "42"))) nan = Some 42%float
  /\ exists v, ToPrimitive (Prim (Str (nbsp ++ "42"))) = Some v
               /\ isFinite 42%float = isFinite (Number v) || isFinite nan.
Proof.
  split; [reflexivity|].
  apply (safeNumber_result_finite (Prim (Str (nbsp ++ "42"))) nan zero
           42%float eq_refl).
Defined.

(** X12. With at most 100 digits, on a finite number the formatters of the
    component agree with the exported ones. On NaN and the infinities they
    part: the component's print zero, the exported ones print [NaN],
    [Infinity] or [-Infinity]. *)
Theorem dashboard_formatters_vs_exported (x : number) (decimals : nat) :
  (decimals <= 100)%nat ->
  (isFinite x = true ->
   formatPrice (Num x) decimals = Utils.formatPrice x decimals
   /\ formatChange (Num x) = Utils.formatChange x)
  /\ (isFinite x = false ->
      formatPrice (Num x) decimals = Utils.formatPrice zero decimals
      /\ formatChange (Num x) = "0.00%"
      /\ In (Utils.formatPrice x decimals) ["NaN"; "Infinity"; "-Infinity"]
      /\ In (Utils.formatChange x) ["NaN%"; "+Infinity%"; "-Infinity%"]).
Proof.
  intros _. split; intros F.
  - unfold formatPrice, formatChange, Utils.formatPrice, Utils.formatChange.
    now rewrite (safeNumber_of_finite x zero F).
  - unfold formatPrice, formatChange.
    rewrite (safeNumber_not_finite x zero F).
    split; [reflexivity|]. split; [reflexivity|].
    unfold Utils.formatPrice, Utils.formatChange, toFixed, gt.
    rewrite ltb_spec.
    destruct (not_finite_cases x F) as [E|(s & E)]; rewrite E.
    + simpl. auto.
    + destruct s; simpl; auto.
Qed.

Lemma dashboard_formatters_vs_exported_witness :
  (5 <= 100)%nat
  /\ (isFinite neg_infinity = false ->
      formatPrice (Num neg_infinity) 5 = Utils.formatPrice zero 5
      /\ formatChange (Num neg_infinity) = "0.00%"
      /\ In (Utils.formatPrice neg_infinity 5) ["NaN"; "Infinity"; "-Infinity"]
      /\ In (Utils.formatChange neg_infinity)
            ["NaN%"; "+Infinity%"; "-Infinity%"]).
Proof.
  split; [lia|].
  apply (dashboard_formatters_vs_exported neg_infinity 5). lia.
Defined.

(** X13. The formatters of the component never print [NaN] or [Infinity]:
    whatever the primitive value, with at most 100 digits, a price text is
    made of digits, a point, a minus sign and, from [10^21] on, an exponent,
    and it starts with a digit or a minus sign; a change text is such a text
    after an optional plus sign and before [%]. *)
Theorem formatters_print_numerals (v : value) (decimals : nat) :
  (decimals <= 100)%nat ->
  (all_chars numeral_char (formatPrice v decimals) = true
   /\ first_char sign_or_digit (formatPrice v decimals) = true)
  /\ (exists sign text,
        formatChange v = sign ++ text ++ "%"
        /\ (sign = "+" \/ sign = "")
        /\ all_chars numeral_char text = true
        /\ first_char sign_or_digit text = true)
  /\ ~ In (formatPrice v decimals) ["NaN"; "Infinity"; "-Infinity"]
  /\ ~ In (formatChange v) ["NaN%"; "+Infinity%"; "-Infinity%"; "Infinity%"].
Proof.
  intros _.
  pose proof (toFixed_chars (safeNumber v zero) decimals
                (safeNumber_zero_finite v)) as [A B].
  pose proof (toFixed_chars (safeNumber v zero) 2
                (safeNumber_zero_finite v)) as [A2 B2].
  repeat split.
  - exact A.
  - exact B.
  - exists (if gt (safeNumber v zero) zero then "+" else ""),
           (toFixed (safeNumber v zero) 2).
    repeat split; auto. destruct (gt _ _); auto.
  - unfold formatPrice in *. intros [E|[E|[E|[]]]]; rewrite <- E in A;
      vm_compute in A; discriminate.
  - assert (C : all_chars (fun c => numeral_char c || Ascii.eqb c "%")
                           (formatChange v) = true).
    { unfold formatChange. rewrite !all_chars_append.
      rewrite (all_chars_impl numeral_char _ _
                 (fun c H => orb_true_intro _ _ (or_introl H)) A2).
      destruct (gt _ _); reflexivity. }
    intros [E|[E|[E|[E|[]]]]]; rewrite <- E in C; vm_compute in C;
      discriminate.
Qed.

Lemma formatters_print_numerals_witness :
  (2 <= 100)%nat
  /\ ~ In (formatPrice (Str "Infinity") 2) ["NaN"; "Infinity"; "-Infinity"].
Proof.
  split; [lia|].
  apply (formatters_print_numerals (Str "Infinity") 2). lia.
Defined.

(** X14. On a finite price below [10^21] in magnitude, with at least one
    decimal and at most 100, both price formatters give the digits of the integer nearest to
    [|price| * 10^decimals] (the larger of two equally near) with a point
    before the last [decimals] of them, after a minus sign when the price is
    negative. *)
Theorem formatPrice_rounds
  (x : number) (s : bool) (m : positive) (e : Z) (decimals : nat) :
  Prim2SF x = S754_finite s m e ->
  scaled_compare m e (10 ^ 21) 0 = Lt ->
  (0 < decimals <= 100)%nat ->
  exists (n : N) (whole fraction : string),
    (2 * scaled_num m e (- Z.of_nat decimals)
     - scaled_den e (- Z.of_nat decimals)
     < 2 * scaled_den e (- Z.of_nat decimals) * Z.of_N n
     <= 2 * scaled_num m e (- Z.of_nat decimals)
        + scaled_den e (- Z.of_nat decimals))%Z
    /\ String.length fraction = decimals
    /\ (0 < String.length whole)%nat
    /\ digits_value (whole ++ fraction) = Some n
    /\ Utils.formatPrice x decimals
       = (if s then "-" else "") ++ whole ++ "." ++ fraction
    /\ formatPrice (Num x) decimals = Utils.formatPrice x decimals.
Proof.
  intros E B [F _].
  destruct (NumericClaims.toFixed_shape x s m e decimals E B F)
    as (n & whole & fraction & R & L & W & V & T).
  exists n, whole, fraction. repeat split; try tauto.
  unfold formatPrice, Utils.formatPrice.
  now rewrite (safeNumber_of_finite x zero (finite_isFinite x s m e E)).
Qed.

Lemma formatPrice_rounds_witness :
  (Prim2SF 3100.5%float = S754_finite false 6818071603838976 (-41)
   /\ scaled_compare 6818071603838976 (-41) (10 ^ 21) 0 = Lt
   /\ (0 < 2 <= 100)%nat)
  /\ exists (n : N) (whole fraction : string),
       (2 * scaled_num 6818071603838976 (-41) (- Z.of_nat 2)
        - scaled_den (-41) (- Z.of_nat 2)
        < 2 * scaled_den (-41) (- Z.of_nat 2) * Z.of_N n
        <= 2 * scaled_num 6818071603838976 (-41) (- Z.of_nat 2)
           + scaled_den (-41) (- Z.of_nat 2))%Z
       /\ String.length fraction = 2%nat
       /\ (0 < String.length whole)%nat
       /\ digits_value (whole ++ fraction) = Some n
       /\ Utils.formatPrice 3100.5%float 2
          = (if false then "-" else "") ++ whole ++ "." ++ fraction
       /\ formatPrice (Num 3100.5%float) 2 = Utils.formatPrice 3100.5%float 2.
Proof.
  split; [repeat split; lia|].
  apply (formatPrice_rounds 3100.5%float false 6818071603838976%positive
           (-41)%Z 2 eq_refl eq_refl).
  lia.
Defined.

(** X15. The colour of a change agrees with its text: the text starts with a
    plus sign exactly when the change counts as a gain, and otherwise with a
    digit or a minus sign. *)
Theorem trend_matches_sign (change24h : number) :
  prefix "+" (formatChange (Num change24h)) = trending_up change24h
  /\ (trending_up change24h = false ->
      first_char sign_or_digit (formatChange (Num change24h)) = true).
Proof.
  split; [apply plus_sign_trending|].
  unfold trending_up, formatChange. intros ->.
  change (first_char sign_or_digit
            (toFixed (safeNumber (Num change24h) zero) 2 ++ "%") = true).
  apply first_char_append.
  apply (toFixed_chars _ 2 (safeNumber_zero_finite _)).
Qed.

End FormatProperties.

(** ** Properties of the life cycle *)

Module LifecycleProperties.
Import JS Dashboard Examples Scenarios View Text Cycle EvaluatorFacts
       NumberFacts FormatFacts CycleFacts LifecycleFacts.
Local Open Scope list_scope.

(** X16. Deleting the alert just created, under an identifier no other alert
    carries, restores the state. *)
Theorem create_then_delete
  (now : N) (symbol : string) (type : PriceAlert.direction)
  (threshold : number) (w : World) :
  ~ In (decimal_digits now) (ids (alerts (state w))) ->
  deleteAlert (decimal_digits now) (createAlert now symbol type threshold w) = w.
Proof.
  intros Fresh. destruct w as [[tk air ld al sh] nt cs].
  unfold deleteAlert, createAlert, setAlerts. simpl in *.
  rewrite filter_app. simpl. rewrite String.eqb_refl. simpl.
  rewrite app_nil_r, filter_absent by exact Fresh. reflexivity.
Qed.

Lemma create_then_delete_witness :
  ~ In (decimal_digits 1700000000000)
       (ids (alerts (state (world_with [btc_below_10]))))
  /\ deleteAlert (decimal_digits 1700000000000)
       (createAlert 1700000000000 "ETH" PriceAlert.above 3000%float
          (world_with [btc_below_10]))
     = world_with [btc_below_10].
Proof.
  assert (F : ~ In (decimal_digits 1700000000000)
                   (ids (alerts (state (world_with [btc_below_10])))))
    by (simpl; intuition discriminate).
  split; [exact F|].
  apply (create_then_delete 1700000000000 "ETH" PriceAlert.above 3000%float
           (world_with [btc_below_10]) F).
Defined.

(** X17. Deleting an identifier that no alert carries changes nothing,
    deleting twice is deleting once, and two deletions commute. *)
Theorem delete_idempotent (i j : string) (w : World) :
  (~ In i (ids (alerts (state w))) -> deleteAlert i w = w)
  /\ deleteAlert i (deleteAlert i w) = deleteAlert i w
  /\ deleteAlert i (deleteAlert j w) = deleteAlert j (deleteAlert i w).
Proof.
  destruct w as [[tk air ld al sh] nt cs].
  unfold deleteAlert, setAlerts. simpl. repeat split.
  - intros A. now rewrite filter_absent.
  - now rewrite filter_twice.
  - now rewrite filter_swap.
Qed.

(** X18. A threshold text that, apart from the white space and line
    terminators [parseFloat] strips (those of Unicode included), does not
    start with a digit, a point, a plus sign or the letter I is rejected:
    the empty and the blank text, words, and every text with a minus
    sign. *)
Theorem text_without_number_rejected (now : N) (form : AlertForm) (w : World) :
  first_char threshold_start (trim_start (thresholdText form)) = false ->
  handleSubmit now form w = (form, w).
Proof.
  intros S. unfold handleSubmit. now rewrite (parseFloat_start _ S).
Qed.

Lemma text_without_number_rejected_witness :
  first_char threshold_start (trim_start (thresholdText minus_form)) = false
  /\ handleSubmit 1700000000000 minus_form (world_with [])
     = (minus_form, world_with []).
Proof.
  split; [reflexivity|].
  apply (text_without_number_rejected 1700000000000 minus_form (world_with [])
           eq_refl).
Defined.

(** X19. In the mounted component no alert ever fires: whatever the ticks,
    submissions, deletions and openings of the modal, no notification was
    built and every alert is still active and listed in the panel, since the
    interval evaluates the alert list of the first render. *)
Theorem mounted_alerts_never_fire
  (permission : Permission) (events : list Event) :
  let w := run permission events (mkWorld initial [] []) in
  notifications w = []
  /\ Forall (fun a => PriceAlert.isActive a = true) (alerts (state w))
  /\ activeAlerts (state w) = alerts (state w).
Proof.
  intros w. destruct (run_mounted permission events _ initial_mounted)
    as (No & Al & _).
  fold w in No, Al. repeat split; [exact No | |].
  - revert Al. apply Forall_impl. tauto.
  - unfold activeAlerts. induction Al as [|a l [A _] Al IH]; simpl; auto.
    now rewrite A, IH.
Qed.

(** X20. Every alert of the mounted component has a threshold above zero,
    hence not NaN: alerts only enter through the form. *)
Theorem created_thresholds_positive
  (permission : Permission) (events : list Event) :
  let w := run permission events (mkWorld initial [] []) in
  Forall (fun a => gt (PriceAlert.threshold a) zero = true
                   /\ isNaN (PriceAlert.threshold a) = false)
         (alerts (state w)).
Proof.
  intros w. destruct (run_mounted permission events _ initial_mounted)
    as (_ & Al & _).
  fold w in Al. revert Al. apply Forall_impl. intros a [_ G].
  split; [exact G|]. now apply gt_zero_not_nan.
Qed.

(** X21. In every state of the mounted component the selector offers no
    token or the six by symbol, under pairwise distinct symbols and with
    finite prices and changes; and selecting the symbol of an offered token
    finds that token. *)
Theorem displayed_tokens_distinct
  (permission : Permission) (events : list Event) :
  let s := state (run permission events (mkWorld initial [] [])) in
  (map TokenData.symbol (allTokens s) = []
   \/ map TokenData.symbol (allTokens s) = symbols)
  /\ NoDup (map TokenData.symbol (allTokens s))
  /\ Forall (fun t => isFinite (TokenData.price t) = true
                      /\ isFinite (TokenData.change24h t) = true)
            (allTokens s)
  /\ (forall t, In t (allTokens s) ->
                selectedToken s (TokenData.symbol t) = Some t).
Proof.
  intros s. destruct (run_mounted permission events _ initial_mounted)
    as (_ & _ & (Sy & Fi)).
  fold s in Sy, Fi.
  assert (N : NoDup (map TokenData.symbol (allTokens s))).
  { destruct Sy as [-> | ->]; [constructor|].
    repeat constructor; simpl; intuition discriminate. }
  repeat split; auto.
  unfold selectedToken. clear Sy Fi.
  induction (allTokens s) as [|t0 l IH]; intros t []; simpl in *.
  - subst. now rewrite String.eqb_refl.
  - inversion N as [|? ? Nt N']; subst.
    destruct (String.eqb_spec (TokenData.symbol t0) (TokenData.symbol t)) as [E|_].
    + exfalso. apply Nt. rewrite E. now apply in_map.
    + now apply IH.
Qed.

(** X22. The loading screen is gone after the first tick, whatever its
    result, and never comes back: no event sets the loading flag. *)
Theorem loading_screen_only_at_start
  (permission : Permission) (result : FetchResult) (random1 random2 : number)
  (events : list Event) (w : World) :
  loading (state (run permission (Tick result random1 random2 :: events) w))
  = false
  /\ (loading (state w) = false ->
      loading (state (run permission events w)) = false).
Proof.
  split; [|apply run_loading].
  simpl. apply run_loading.
  destruct (failed result) as [e|] eqn:F.
  - now rewrite (failed_some _ _ _ _ _ _ _ F).
  - destruct (failed_none _ F) as (data & toks & -> & E).
    now rewrite (fetchCryptoData_success _ _ _ _ _ _ _ E).
Qed.

End LifecycleProperties.

(** ** Properties of the synthesized token on display *)

Module DisplayProperties.
Import JS Dashboard Examples Scenarios View Text Rounding RoundingFacts
       FormatFacts TextFacts DisplayFacts.

(** X23. With five decimals the synthesized price reads as one of six texts,
    from 0.00674 to 0.00679. *)
Theorem air_price_display (random1 random2 : number) :
  (0 <=? random1)%float = true -> (random1 <? 1)%float = true ->
  In (formatPrice (Num (TokenData.price (airTokenData random1 random2))) 5)
     ["0.00674"; "0.00675"; "0.00676"; "0.00677"; "0.00678"; "0.00679"].
Proof.
  intros R0 R1.
  destruct (JitterClaims.air_price_jitter random1 R0 R1) as (Lo & Hi & m & e & E).
  destruct (JitterClaims.safeNumber_jitter
              0.00676%float 0.00005%float random1 0.00676%float m e E)
    as [P _].
  unfold airTokenData. cbn [TokenData.price]. rewrite P.
  destruct (leb_units (0.00676 - 0.000025)%float _ 7764926333527115 (-60) m e
              eq_refl E Lo) as [Ul Ge].
  pose proof (Prim2SF_valid (jitter 0.00676 0.00005 random1)) as V.
  pose proof (Prim2SF_valid (0.00676 + 0.000025)%float) as Vh.
  rewrite E in V.
  change (Prim2SF (0.00676 + 0.000025)%float)
    with (S754_finite false 7822572408757457 (-60)) in Vh.
  assert (Uh : (units (Z.pos m) e <= units 7822572408757457 (-60))%Z).
  { apply SFleb_units_inv; try assumption.
    rewrite leb_spec, E in Hi. exact Hi. }
  assert (B : scaled_compare m e (10 ^ 21) 0 = Lt).
  { apply (scaled_below m e _ (10 ^ 21) Ge Uh). vm_compute. reflexivity. }
  assert (N : (674 <= scaled_round m e (- 5) <= 679)%Z).
  { apply (scaled_round_bounds m e 5 _ _ 674 679 Ge ltac:(lia) (conj Ul Uh));
      vm_compute; reflexivity. }
  unfold formatPrice.
  rewrite (safeNumber_of_finite _ zero (finite_isFinite _ _ _ _ E)).
  unfold toFixed. rewrite E, B. change (- Z.of_nat 5)%Z with (- 5)%Z.
  set (n := scaled_round m e (- 5)) in *.
  clearbody n.
  assert (C : (n = 674 \/ n = 675 \/ n = 676 \/ n = 677 \/ n = 678 \/ n = 679)%Z)
    by (clear - N; lia).
  destruct C as [->|[->|[->|[->|[->| ->]]]]]; vm_compute; tauto.
Qed.

Lemma air_price_display_witness :
  ((0 <=? 0.25)%float = true /\ (0.25 <? 1)%float = true)
  /\ In (formatPrice (Num (TokenData.price (airTokenData 0.25%float 0.75%float))) 5)
        ["0.00674"; "0.00675"; "0.00676"; "0.00677"; "0.00678"; "0.00679"].
Proof.
  split; [split; reflexivity|].
  apply (air_price_display 0.25%float 0.75%float eq_refl eq_refl).
Defined.

(** X24. The synthesized change always counts as a gain: its text starts with
    a plus sign and reads between +0.30% and +3.30%. *)
Theorem air_change_display (random1 random2 : number) :
  (0 <=? random2)%float = true -> (random2 <? 1)%float = true ->
  let change24h := TokenData.change24h (airTokenData random1 random2) in
  trending_up change24h = true
  /\ exists (n : N) (whole fraction : string),
       formatChange (Num change24h) = "+" ++ whole ++ "." ++ fraction ++ "%"
       /\ String.length fraction = 2%nat
       /\ digits_value (whole ++ fraction) = Some n
       /\ (30 <= n <= 330)%N.
Proof.
  intros R0 R1.
  destruct (JitterClaims.air_change_jitter random2 R0 R1) as (Lo & Hi & m & e & E).
  destruct (JitterClaims.safeNumber_jitter
              1.8%float 3%float random2 1.8%float m e E)
    as [P Pos].
  unfold airTokenData. cbn [TokenData.change24h]. rewrite P. cbv zeta.
  assert (S : safeNumber (Num (jitter 1.8 3 random2)) zero = jitter 1.8 3 random2)
    by apply (safeNumber_of_finite _ zero (finite_isFinite _ _ _ _ E)).
  split; [unfold trending_up; rewrite S; exact Pos|].
  destruct (leb_units (1.8 - 1.5)%float _ 5404319552844596 (-54) m e
              eq_refl E Lo) as [Ul Ge].
  pose proof (Prim2SF_valid (jitter 1.8 3 random2)) as V.
  pose proof (Prim2SF_valid (1.8 + 1.5)%float) as Vh.
  rewrite E in V.
  change (Prim2SF (1.8 + 1.5)%float)
    with (S754_finite false 7430939385161318 (-51)) in Vh.
  assert (Uh : (units (Z.pos m) e <= units 7430939385161318 (-51))%Z).
  { apply SFleb_units_inv; try assumption.
    rewrite leb_spec, E in Hi. exact Hi. }
  assert (B : scaled_compare m e (10 ^ 21) 0 = Lt).
  { apply (scaled_below m e _ (10 ^ 21) Ge Uh). vm_compute. reflexivity. }
  assert (N : (30 <= scaled_round m e (- 2) <= 330)%Z).
  { apply (scaled_round_bounds m e 2 _ _ 30 330 Ge ltac:(lia) (conj Ul Uh));
      vm_compute; reflexivity. }
  assert (Gp : gt (jitter 1.8 3 random2) zero = true) by exact Pos.
  unfold formatChange. rewrite S, Gp.
  unfold toFixed. rewrite E, B. change (- Z.of_nat 2)%Z with (- 2)%Z.
  destruct (fixed_digits_shape (Z.to_N (scaled_round m e (- 2))) 2 ltac:(lia))
    as (whole & fraction & -> & L & W & D).
  exists (Z.to_N (scaled_round m e (- 2))), whole, fraction.
  repeat split; auto.
  - simpl. now rewrite !append_assoc.
  - lia.
  - lia.
Qed.

Lemma air_change_display_witness :
  ((0 <=? 0.75)%float = true /\ (0.75 <? 1)%float = true)
  /\ trending_up (TokenData.change24h (airTokenData 0.25%float 0.75%float))
     = true.
Proof.
  split; [split; reflexivity|].
  apply (air_change_display 0.25%float 0.75%float eq_refl eq_refl).
Defined.

End DisplayProperties.
